(** * BlueRetro Bluetooth host core (main/bluetooth/host.c)

    A shallow embedding of the link/transport core: the link-key ring, the
    device session table, the ACL fragment reassembler and channel router,
    the transmit drain task, the feedback relay task and the bridge path.

    Conventions.
    - Bytes are [Byte.byte]; multi-byte header fields are read little-endian
      and handled as [Z]; [uint32_t] arithmetic is written with its
      wrap-around ([u32]).
    - C arrays are lists whose length is the array's capacity.  An access
      outside the array has no defined result in C; every operation that can
      make one returns [option], and [None] stands for that access.
    - Calls into collaborators that live outside host.c (protocol handlers,
      the adapter, the controller driver) are recorded as events; where the
      collaborator writes back into state that host.c reads afterwards it is
      a function carried by the [platform] record. *)

From Stdlib Require Import ZArith Lia.
From Stdlib.Strings Require Import Byte.
From stdpp Require Import base option list numbers.

Open Scope Z_scope.

(** ** Machine integers and bytes *)

Definition u32 (z : Z) : Z := z mod 2 ^ 32.

Definition byte_val (b : byte) : Z := Z.of_N (Byte.to_N b).

(** Conversion to [uint8_t]: the low eight bits are kept. *)
Definition u8 (z : Z) : byte :=
  default x00 (Byte.of_N (Z.to_N (z mod 256))).

#[global] Instance byte_eq_dec : EqDecision byte.
Proof.
  intros a b. destruct (N.eq_dec (Byte.to_N a) (Byte.to_N b)) as [E | E].
  - left. apply (f_equal Byte.of_N) in E. rewrite !Byte.of_to_N in E.
    congruence.
  - right. congruence.
Defined.

(** Little-endian [uint16_t] at byte offset [off] of a buffer. *)
Definition rd16 (buf : list byte) (off : nat) : option Z :=
  lo ← buf !! off;
  hi ← buf !! S off;
  Some (byte_val lo + 256 * byte_val hi).

(** [memcpy (dst + off, src, n)] into an array [dst]: [src] must hold [n]
    bytes and the written range must lie inside [dst]. *)
Definition memcpy (dst : list byte) (off : Z) (src : list byte) (n : Z)
  : option (list byte) :=
  if bool_decide (0 ≤ off ∧ 0 ≤ n ∧ n ≤ Z.of_nat (length src)
                  ∧ off + n ≤ Z.of_nat (length dst))
  then Some (take (Z.to_nat off) dst ++ take (Z.to_nat n) src
               ++ drop (Z.to_nat (off + n)) dst)
  else None.

(** [atomic_test_bit], [atomic_set_bit], [atomic_clear_bit] on a flag word. *)
Definition atomic_test_bit (flags bit : Z) : bool := Z.testbit flags bit.
Definition atomic_set_bit (flags bit : Z) : Z := Z.lor flags (Z.shiftl 1 bit).
Definition atomic_clear_bit (flags bit : Z) : Z :=
  Z.land flags (Z.lnot (Z.shiftl 1 bit)).

(** ** Data model *)

(** Modelled from the spec: hci.h, which declares
    [struct bt_hci_evt_link_key_notify], is not among the sources.  A
    link-key record is "remote address + stored pairing key"; the key type
    is the remaining field of the HCI event. *)
Record bt_hci_evt_link_key_notify := mk_link_key_notify {
  lkn_bdaddr : list byte;
  lkn_link_key : list byte;
  lkn_key_type : byte
}.

(** Modelled from the spec: hci.h, which declares
    [struct bt_hci_cp_link_key_reply], is not among the sources.  The
    lookup's in/out argument: the address asked for and the key found. *)
Record bt_hci_cp_link_key_reply := mk_link_key_reply {
  lkr_bdaddr : list byte;
  lkr_link_key : list byte
}.

(** [struct bt_host_link_keys]: insertion cursor and the 16 records. *)
Record bt_host_link_keys_t := mk_link_keys {
  lk_index : Z;
  lk_link_keys : list bt_hci_evt_link_key_notify
}.

(** The SD card as far as the link-key file is concerned: whether
    [fopen (LINK_KEYS_FILE, "wb")] succeeds, and the blob last written. *)
Record sd_card := mk_sd {
  sd_fopen_ok : bool;
  sd_linkkeys : option bt_host_link_keys_t
}.

#[global] Instance notify_eq_dec : EqDecision bt_hci_evt_link_key_notify.
Proof. solve_decision. Defined.

Definition zero_bytes (n : nat) : list byte := replicate n x00.

Definition zero_link_key_notify : bt_hci_evt_link_key_notify :=
  mk_link_key_notify (zero_bytes 6) (zero_bytes 16) x00.

(** [static struct bt_host_link_keys bt_host_link_keys = {0};] *)
Definition bt_host_link_keys_init : bt_host_link_keys_t :=
  mk_link_keys 0 (replicate 16 zero_link_key_notify).

(** ** Link-key store *)

Definition bt_host_store_keys_on_file (sd : sd_card)
    (data : bt_host_link_keys_t) : sd_card * Z :=
  if sd_fopen_ok sd
  then (mk_sd (sd_fopen_ok sd) (Some data), 0)
  else (sd, -1).

(** The body of the [for] loop of [bt_host_load_link_key]: a matching
    record overwrites the output key and sets the return value to 0. *)
Definition load_step (acc : bt_hci_cp_link_key_reply * Z)
    (rec : bt_hci_evt_link_key_notify) : bt_hci_cp_link_key_reply * Z :=
  let '(reply, ret) := acc in
  if bool_decide (lkr_bdaddr reply = lkn_bdaddr rec)
  then (mk_link_key_reply (lkr_bdaddr reply) (lkn_link_key rec), 0)
  else (reply, ret).

(** The output argument as the call leaves it, and the return value. *)
Definition bt_host_load_link_key (keys : bt_host_link_keys_t)
    (link_key_reply : bt_hci_cp_link_key_reply)
  : bt_hci_cp_link_key_reply * Z :=
  foldl load_step (link_key_reply, -1) (lk_link_keys keys).

(** The scan of [bt_host_store_link_key]: [index] starts at the cursor and
    is set to [i] at every matching record. *)
Fixpoint store_scan (bdaddr : list byte)
    (recs : list bt_hci_evt_link_key_notify) (i : Z) (index : Z) : Z :=
  match recs with
  | [] => index
  | rec :: recs' =>
      store_scan bdaddr recs' (i + 1)
        (if bool_decide (bdaddr = lkn_bdaddr rec) then i else index)
  end.

Definition bt_host_store_link_key (sd : sd_card) (keys : bt_host_link_keys_t)
    (link_key_notify : bt_hci_evt_link_key_notify)
  : option (sd_card * bt_host_link_keys_t * Z) :=
  let index :=
    store_scan (lkn_bdaddr link_key_notify) (lk_link_keys keys) 0
               (lk_index keys) in
  if bool_decide (0 ≤ index < Z.of_nat (length (lk_link_keys keys))) then
    let recs := <[Z.to_nat index := link_key_notify]> (lk_link_keys keys) in
    let cursor :=
      if bool_decide (index = lk_index keys)
      then Z.land (u32 (lk_index keys + 1)) 15
      else lk_index keys in
    let keys' := mk_link_keys cursor recs in
    let '(sd', ret) := bt_host_store_keys_on_file sd keys' in
    Some (sd', keys', ret)
  else None.

(** A ring as the program keeps it: 16 records and a cursor inside them. *)
Definition link_keys_ok (keys : bt_host_link_keys_t) : Prop :=
  length (lk_link_keys keys) = 16%nat ∧ 0 ≤ lk_index keys < 16.

(** [j] is the last record of [recs] that carries address [a]. *)
Definition last_match (a : list byte)
    (recs : list bt_hci_evt_link_key_notify) (j : nat) : Prop :=
  (∃ r, recs !! j = Some r ∧ lkn_bdaddr r = a)
  ∧ ∀ j' r', (j < j')%nat → recs !! j' = Some r' → lkn_bdaddr r' ≠ a.

(** Storing a list of records one after the other. *)
Fixpoint store_all (sd : sd_card) (keys : bt_host_link_keys_t)
    (recs : list bt_hci_evt_link_key_notify)
  : option (sd_card * bt_host_link_keys_t) :=
  match recs with
  | [] => Some (sd, keys)
  | rec :: recs' =>
      '(sd', keys', _) ← bt_host_store_link_key sd keys rec;
      store_all sd' keys' recs'
  end.

(** ** Sessions, adapter data and the platform *)

(** Modelled from the spec: host.h, which declares the channel structure,
    is not among the sources.  Of a session's "negotiated local/remote
    channel ids" host.c reads the local one, [scid]. *)
Record l2cap_chan := mk_chan { scid : Z }.

(** Modelled from the spec: host.h, which declares [struct bt_dev], is not
    among the sources.  A device session has an identity (connection
    handle, six-byte remote address, device type), a channel map, status
    flags and the index of its generic-adapter entry; these are the fields
    host.c touches.  A pointer into [bt_dev[]] is the slot number. *)
Record bt_dev := mk_bt_dev {
  dev_id : Z;
  dev_flags : Z;
  dev_type : Z;
  remote_bdaddr : list byte;
  acl_handle : Z;
  sdp_tx_chan : l2cap_chan;
  sdp_rx_chan : l2cap_chan;
  ctrl_chan : l2cap_chan;
  intr_chan : l2cap_chan
}.

(** Modelled from the spec: adapter.h is not among the sources.  One row
    of the "small per-type report table": a report id and the length that
    goes with it. *)
Record hid_report := mk_report { hr_id : Z; hr_len : Z }.

(** Modelled from the spec: adapter.h, which declares [struct bt_data], is
    not among the sources.  One entry of [bt_adapter.data], the session's
    generic-adapter data: flags (with the initialised bit), the report
    counter, the report table and the input and output buffers, as far as
    host.c touches them.  The counter is taken as [uint32_t]. *)
Record bt_data := mk_bt_data {
  bd_flags : Z;
  bd_dev_id : Z;
  bd_dev_type : Z;
  bd_report_id : Z;
  bd_report_cnt : Z;
  bd_report_type : Z;
  bd_reports : list hid_report;
  bd_input : list byte;
  bd_output : list byte
}.

(** [memset (p, 0, sizeof ( *p))]: every field zero, array sizes kept. *)
Definition bt_dev_zero : bt_dev :=
  mk_bt_dev 0 0 0 (zero_bytes 6) 0 (mk_chan 0) (mk_chan 0) (mk_chan 0)
            (mk_chan 0).

Definition bt_data_zero (d : bt_data) : bt_data :=
  mk_bt_data 0 0 0 0 0 0
    (replicate (length (bd_reports d)) (mk_report 0 0))
    (zero_bytes (length (bd_input d)))
    (zero_bytes (length (bd_output d))).

(** Constants, macros and collaborators that host.c takes from headers and
    modules outside the translated sources (hci.h, l2cap.h, host.h,
    adapter.h, FreeRTOS).  Nothing is assumed about their values. *)
Record platform := mk_platform {
  BT_ACL_START : Z;
  BT_ACL_CONT : Z;
  bt_acl_flags : Z → Z;
  bt_acl_handle : Z → Z;
  BT_L2CAP_CID_ATT : Z;
  BT_L2CAP_CID_BR_SIG : Z;
  BT_DEV_DEVICE_FOUND : Z;
  BT_INIT : Z;
  HID_GENERIC : Z;
  REPORT_MAX : nat;
  portTICK_PERIOD_MS : Z;
  (** [adapter_bridge (&bt_adapter.data[id])]: what it leaves in the entry *)
  adapter_bridge : bt_data → bt_data;
  (** [adapter_bridge_fb (fb_data, fb_len, &bt_adapter.data[id])]: what it
      leaves in the entry, and whether it returned non-zero *)
  adapter_bridge_fb : list byte → Z → bt_data → bt_data * bool;
  (** [xRingbufferSend (txq_hdl, item, len, 0) == pdTRUE], from the items
      already queued *)
  xRingbufferSend : list (list byte) → list byte → bool
}.

(** What host.c does to the outside: log lines and calls to collaborators. *)
Inductive event :=
| LogWaitFragment (offset size : Z)
| LogReassembled (offset size : Z)
| LogFragStart
| LogDevNull
| LogTxqFull
| CallAttHdlr (pkt : list byte) (pkt_len : Z)
| CallL2capSigHdlr (slot : nat) (pkt : list byte)
| CallSdpHdlr (slot : nat) (pkt : list byte)
| CallHidHdlr (slot : nat) (pkt : list byte)
| CallAdapterBridge (id : Z)
| CallAdapterInitBuffer (id : Z)
| CallHidFeedback (slot : nat) (output : list byte)
| CallVTaskDelay (ticks : Z)
| CallSendPacket (packet : list byte).

Definition BT_DEV_MAX : nat := 7.

(** [enum { BT_CTRL_READY, BT_HOST_DISCONN_SW_INHIBIT }] *)
Definition BT_CTRL_READY : Z := 0.
Definition BT_HOST_DISCONN_SW_INHIBIT : Z := 1.

(** Modelled from the spec: hci.h and l2cap.h, which declare
    [struct bt_hci_pkt], [struct bt_l2cap_hdr] and the header-size macros,
    are not among the sources.  The "header overhead" in front of an L2CAP
    payload is laid out as HCI frames are on the wire (packed,
    little-endian): H4 type at 0, ACL handle at 1, ACL length at 3, L2CAP
    length at 5, L2CAP channel id at 7. *)
Definition BT_HCI_H4_HDR_SIZE : Z := 1.
Definition BT_HCI_ACL_HDR_SIZE : Z := 4.
Definition sizeof_bt_l2cap_hdr : Z := 4.

Definition pkt_acl_handle (pkt : list byte) : option Z := rd16 pkt 1.
Definition pkt_acl_len (pkt : list byte) : option Z := rd16 pkt 3.
Definition pkt_l2cap_len (pkt : list byte) : option Z := rd16 pkt 5.
Definition pkt_l2cap_cid (pkt : list byte) : option Z := rd16 pkt 7.

(** The fragment reassembly globals. *)
Record frag_state := mk_frag {
  frag_size : Z;
  frag_offset : Z;
  frag_buf : list byte
}.

Definition frag_init : frag_state := mk_frag 0 0 (zero_bytes 1024).

(** The logical frame a handler is given: [pkt_len] bytes at [pkt]. *)
Definition frame_bytes (fr : list byte * Z) : list byte :=
  take (Z.to_nat (snd fr)) (fst fr).

(** Result of one feedback-relay iteration, telling apart the array that
    an index fell out of. *)
Inductive fb_result :=
| FbEmptyItem
| FbDevOutOfRange (index : Z)
| FbDataOutOfRange (id : Z)
| FbDone (data : list bt_data) (evs : list event).

Section Host.
Context (P : platform).

(** ** Device session table *)

Definition dev_found (d : bt_dev) : bool :=
  atomic_test_bit (dev_flags d) (BT_DEV_DEVICE_FOUND P).

(** The four lookups return the slot ([Some i]: the C function returns [i]
    and stores [&bt_dev[i]]) or nothing ([None]: it returns -1 and leaves
    the pointer alone). *)
Definition bt_host_get_new_dev (devs : list bt_dev) : option nat :=
  fst <$> list_find (fun d => dev_found d = false) devs.

Definition bt_host_get_active_dev (devs : list bt_dev) : option nat :=
  fst <$> list_find (fun d => dev_found d = true) devs.

Definition bt_host_get_dev_from_bdaddr (bdaddr : list byte)
    (devs : list bt_dev) : option nat :=
  fst <$> list_find
    (fun d => dev_found d = true ∧ bdaddr = remote_bdaddr d) devs.

Definition bt_host_get_dev_from_handle (handle : Z) (devs : list bt_dev)
  : option nat :=
  fst <$> list_find
    (fun d => dev_found d = true ∧ bt_acl_handle P handle = acl_handle d) devs.

(** [data[id]] for a signed index. *)
Definition data_at (data : list bt_data) (id : Z) : option bt_data :=
  if bool_decide (0 ≤ id) then data !! Z.to_nat id else None.

Definition bt_host_reset_dev (devs : list bt_dev) (data : list bt_data)
    (slot : nat) : option (list bt_dev * list bt_data * list event) :=
  device ← devs !! slot;
  let id := dev_id device in
  d ← data_at data id;
  Some (<[slot := bt_dev_zero]> devs,
        <[Z.to_nat id := bt_data_zero d]> data,
        [CallAdapterInitBuffer id]).

(** ** ACL reassembly and routing *)

(** Lines 255-274 of [bt_host_acl_hdlr]: the new fragment state, the log
    lines, and the frame ([pkt], [pkt_len]) that goes on to routing, if
    the function has not returned before. *)
Definition acl_reassemble (fs : frag_state) (pkt : list byte) (len : Z)
  : option (frag_state * list event * option (list byte * Z)) :=
  handle ← pkt_acl_handle pkt;
  '(fs1, log1, cur) ←
    (if bool_decide (bt_acl_flags P handle = BT_ACL_CONT P) then
       acl_len ← pkt_acl_len pkt;
       buf ← memcpy (frag_buf fs) (frag_offset fs)
                (drop (Z.to_nat (BT_HCI_H4_HDR_SIZE + BT_HCI_ACL_HDR_SIZE)) pkt)
                acl_len;
       let offset := u32 (frag_offset fs + acl_len) in
       let fs' := mk_frag (frag_size fs) offset buf in
       if bool_decide (offset < frag_size fs)
       then Some (fs', [LogWaitFragment offset (frag_size fs)], None)
       else Some (fs', [LogReassembled offset (frag_size fs)],
                  Some (buf, frag_size fs))
     else Some (fs, [], Some (pkt, len)));
  match cur with
  | None => Some (fs1, log1, None)
  | Some (pkt1, pkt_len) =>
      handle1 ← pkt_acl_handle pkt1;
      l2cap_len ← (if bool_decide (bt_acl_flags P handle1 = BT_ACL_START P)
                   then Some <$> pkt_l2cap_len pkt1 else Some None);
      let hdrs :=
        BT_HCI_H4_HDR_SIZE + BT_HCI_ACL_HDR_SIZE + sizeof_bt_l2cap_hdr in
      match l2cap_len with
      | Some l =>
          if bool_decide (u32 (pkt_len - hdrs) < l) then
            buf ← memcpy (frag_buf fs1) 0 pkt1 pkt_len;
            Some (mk_frag (u32 (l + hdrs)) pkt_len buf,
                  log1 ++ [LogFragStart], None)
          else Some (fs1, log1, Some (pkt1, pkt_len))
      | None => Some (fs1, log1, Some (pkt1, pkt_len))
      end
  end.

(** Lines 276-296 of [bt_host_acl_hdlr]: the channel-id chain. *)
Definition acl_route (devs : list bt_dev) (device : option nat)
    (pkt : list byte) (pkt_len : Z) : option (list event) :=
  cid ← pkt_l2cap_cid pkt;
  match device with
  | None =>
      if bool_decide (cid = BT_L2CAP_CID_ATT P)
      then Some [CallAttHdlr pkt pkt_len]
      else Some [LogDevNull]
  | Some slot =>
      d ← devs !! slot;
      if bool_decide (cid = BT_L2CAP_CID_BR_SIG P)
      then Some [CallL2capSigHdlr slot pkt]
      else if bool_decide (cid = scid (sdp_tx_chan d))
              || bool_decide (cid = scid (sdp_rx_chan d))
      then Some [CallSdpHdlr slot pkt]
      else if bool_decide (cid = scid (ctrl_chan d))
              || bool_decide (cid = scid (intr_chan d))
      then Some [CallHidHdlr slot pkt]
      else Some []
  end.

Definition bt_host_acl_hdlr (devs : list bt_dev) (fs : frag_state)
    (bt_hci_acl_pkt : list byte) (len : Z)
  : option (frag_state * list event) :=
  handle ← pkt_acl_handle bt_hci_acl_pkt;
  let device := bt_host_get_dev_from_handle handle devs in
  '(fs', log, cur) ← acl_reassemble fs bt_hci_acl_pkt len;
  match cur with
  | None => Some (fs', log)
  | Some (pkt, pkt_len) =>
      evs ← acl_route devs device pkt pkt_len;
      Some (fs', log ++ evs)
  end.

(** Feeding received packets one after the other; each packet arrives with
    its own length, as [bt_host_rx_pkt] passes it on.  The result lists,
    per packet, the frame that reached routing. *)
Fixpoint reassemble_all (fs : frag_state) (pkts : list (list byte))
  : option (frag_state * list (option (list byte * Z))) :=
  match pkts with
  | [] => Some (fs, [])
  | pkt :: pkts' =>
      '(fs', _, cur) ← acl_reassemble fs pkt (Z.of_nat (length pkt));
      '(fs'', curs) ← reassemble_all fs' pkts';
      Some (fs'', cur :: curs)
  end.

(** ** Transmit queue and drain task *)

(** [bt_host_txq_add]: the queue, the return value and the log line. *)
Definition bt_host_txq_add (txq : list (list byte)) (packet : list byte)
    (packet_len : Z) : option (list (list byte) * Z * list event) :=
  if bool_decide (0 ≤ packet_len ≤ Z.of_nat (length packet)) then
    let item := take (Z.to_nat packet_len) packet in
    if xRingbufferSend P txq item
    then Some (txq ++ [item], 0, [])
    else Some (txq, -1, [LogTxqFull])
  else None.

(** [uint8_t packet[2] = {0xFF, ms};] converts [ms] to [uint8_t]. *)
Definition bt_host_q_wait_pkt (txq : list (list byte)) (ms : Z)
  : option (list (list byte) * list event) :=
  let packet := [xff; u8 ms] in
  '(txq', _, evs) ← bt_host_txq_add txq packet 2;
  Some (txq', evs).

Definition bt_host_tx_pkt_ready (bt_flags : Z) : Z :=
  atomic_set_bit bt_flags BT_CTRL_READY.

(** One turn of the [while (1)] of [bt_tx_task].  With the ready bit clear
    the turn does nothing; with an empty queue [xRingbufferReceive] keeps
    the task blocked, which is a turn that changes nothing. *)
Definition bt_tx_task (bt_flags : Z) (txq : list (list byte))
  : option (Z * list (list byte) * list event) :=
  if atomic_test_bit bt_flags BT_CTRL_READY then
    match txq with
    | [] => Some (bt_flags, txq, [])
    | packet :: txq' =>
        b0 ← packet !! 0%nat;
        if bool_decide (byte_val b0 = 255) then
          b1 ← packet !! 1%nat;
          if bool_decide (portTICK_PERIOD_MS P = 0) then None
          else Some (bt_flags, txq',
                     [CallVTaskDelay (byte_val b1 / portTICK_PERIOD_MS P)])
        else
          Some (atomic_clear_bit bt_flags BT_CTRL_READY, txq',
                [CallSendPacket packet])
    end
  else Some (bt_flags, txq, []).

(** What can happen to the ready bit and the queue: a turn of the drain
    task, the controller's ready callback, or a producer queueing a packet. *)
Inductive action :=
| ActTxTask
| ActTxPktReady
| ActTxqAdd (packet : list byte).

(** What an observer of the transport sees. *)
Inductive tx_obs :=
| ObsReady
| ObsDelay (ticks : Z)
| ObsSend (packet : list byte).

Definition obs_of_event (e : event) : list tx_obs :=
  match e with
  | CallVTaskDelay t => [ObsDelay t]
  | CallSendPacket p => [ObsSend p]
  | _ => []
  end.

Definition tx_step (bt_flags : Z) (txq : list (list byte)) (a : action)
  : option (Z * list (list byte) * list tx_obs) :=
  match a with
  | ActTxTask =>
      '(f, q, evs) ← bt_tx_task bt_flags txq;
      Some (f, q, concat (obs_of_event <$> evs))
  | ActTxPktReady => Some (bt_host_tx_pkt_ready bt_flags, txq, [ObsReady])
  | ActTxqAdd packet =>
      '(q, _, _) ← bt_host_txq_add txq packet (Z.of_nat (length packet));
      Some (bt_flags, q, [])
  end.

Fixpoint tx_run (bt_flags : Z) (txq : list (list byte)) (acts : list action)
  : option (Z * list (list byte) * list tx_obs) :=
  match acts with
  | [] => Some (bt_flags, txq, [])
  | a :: acts' =>
      '(f, q, o) ← tx_step bt_flags txq a;
      '(f', q', o') ← tx_run f q acts';
      Some (f', q', o ++ o')
  end.


(** ** Feedback relay task *)

(** One item taken from [wired_adapter.input_q_hdl] by [bt_fb_task]. *)
Definition bt_fb_task (devs : list bt_dev) (data : list bt_data)
    (fb_data : list byte) (fb_len : Z) : fb_result :=
  match fb_data !! 0%nat with
  | None => FbEmptyItem
  | Some b0 =>
      let index := byte_val b0 in
      match devs !! Z.to_nat index with
      | None => FbDevOutOfRange index
      | Some device =>
          let id := dev_id device in
          match data_at data id with
          | None => FbDataOutOfRange id
          | Some d =>
              let '(d', changed) := adapter_bridge_fb P fb_data fb_len d in
              FbDone (<[Z.to_nat id := d']> data)
                     (if changed
                      then [CallHidFeedback (Z.to_nat index) (bd_output d')]
                      else [])
          end
      end
  end.

(** ** Bridge *)

Definition set_report_type (d : bt_data) (i : Z) : bt_data :=
  mk_bt_data (bd_flags d) (bd_dev_id d) (bd_dev_type d) (bd_report_id d)
    (bd_report_cnt d) i (bd_reports d) (bd_input d) (bd_output d).

Definition set_report_cnt (d : bt_data) (n : Z) : bt_data :=
  mk_bt_data (bd_flags d) (bd_dev_id d) (bd_dev_type d) (bd_report_id d)
    n (bd_report_type d) (bd_reports d) (bd_input d) (bd_output d).

Definition set_bridge_input (d : bt_data) (report_id id type : Z)
    (input : list byte) : bt_data :=
  mk_bt_data (bd_flags d) id type report_id (bd_report_cnt d)
    (bd_report_type d) (bd_reports d) input (bd_output d).

(** The [for] loop over [reports[0 .. REPORT_MAX-1]]: the first row with
    the report id, or nothing when [i] ends at [REPORT_MAX]. *)
Definition find_report (d : bt_data) (report_id : Z)
  : option (nat * hid_report) :=
  list_find (fun r => hr_id r = report_id)
            (take (REPORT_MAX P) (bd_reports d)).

(** Lines 479-491 of [bt_host_bridge]: the entry and the length the copy
    will use, or nothing when the function returns at [i == REPORT_MAX]. *)
Definition bridge_resolve (d : bt_data) (device : bt_dev) (report_id : Z)
    (len : Z) : option (bt_data * Z) :=
  if bool_decide (dev_type device = HID_GENERIC P) then
    match find_report d report_id with
    | Some (i, r) => Some (set_report_type d (Z.of_nat i), hr_len r)
    | None => None
    end
  else Some (d, len).

Definition bt_host_bridge (data : list bt_data) (device : bt_dev)
    (report_id : Z) (buf : list byte) (len : Z)
  : option (list bt_data * list event) :=
  let id := dev_id device in
  d ← data_at data id;
  match bridge_resolve d device report_id len with
  | None => Some (data, [])
  | Some (d1, len1) =>
      '(d2, evs) ←
        (if atomic_test_bit (bd_flags d1) (BT_INIT P)
            || bool_decide (1 < bd_report_cnt d1)
         then
           input ← memcpy (bd_input d1) 0 buf len1;
           Some (adapter_bridge P
                   (set_bridge_input d1 report_id id (dev_type device) input),
                 [CallAdapterBridge id])
         else Some (d1, []));
      Some (<[Z.to_nat id := set_report_cnt d2 (u32 (bd_report_cnt d2 + 1))]>
              data, evs)
  end.

(** Whether a call of [bt_host_bridge] reached [adapter_bridge]. *)
Definition bridge_fired (evs : list event) : bool :=
  existsb (fun e => match e with CallAdapterBridge _ => true | _ => false end)
          evs.

End Host.

(** ** Concrete instances used to run the model *)

(** Sixteen-plus distinct peer addresses and keys. *)
Definition peer_addr (n : Z) : list byte :=
  [u8 n; x22; x33; x44; x55; x66].

Definition peer_key (n : Z) : list byte := replicate 16 (u8 n).

Definition peer_rec (n k : Z) : bt_hci_evt_link_key_notify :=
  mk_link_key_notify (peer_addr n) (peer_key k) x04.

Definition sd_ok : sd_card := mk_sd true None.

(** The ring after sixteen different peers have bonded: full, cursor back
    at slot 0, which holds peer 1. *)
Definition sixteen_peers : list bt_hci_evt_link_key_notify :=
  (fun n => peer_rec (Z.of_nat n) (Z.of_nat n)) <$> seq 1 16.

Definition full_ring : bt_host_link_keys_t := mk_link_keys 0 sixteen_peers.

(** A platform to run the model on: HCI and L2CAP numbers as the Bluetooth
    wire format has them, a 10 ms tick, an adapter that marks the entry
    initialised when it decodes a report (as the Xbox One decoder does), a
    feedback translation that always reports a change, and a ring buffer
    that takes an item while fewer than eight are waiting. *)
Definition set_flags (d : bt_data) (flags : Z) : bt_data :=
  mk_bt_data flags (bd_dev_id d) (bd_dev_type d) (bd_report_id d)
    (bd_report_cnt d) (bd_report_type d) (bd_reports d) (bd_input d)
    (bd_output d).

Definition esp32 : platform := {|
  BT_ACL_START := 2;
  BT_ACL_CONT := 1;
  bt_acl_flags := fun h => Z.shiftr h 12;
  bt_acl_handle := fun h => Z.land h 4095;
  BT_L2CAP_CID_ATT := 4;
  BT_L2CAP_CID_BR_SIG := 1;
  BT_DEV_DEVICE_FOUND := 0;
  BT_INIT := 0;
  HID_GENERIC := 0;
  REPORT_MAX := 4;
  portTICK_PERIOD_MS := 10;
  adapter_bridge := fun d => set_flags d (atomic_set_bit (bd_flags d) 0);
  adapter_bridge_fb := fun _ _ d => (d, true);
  xRingbufferSend := fun q _ => bool_decide (length q < 8)%nat
|}.

(** A ring in which two records carry the address of peer 7. *)
Definition dup_ring : bt_host_link_keys_t :=
  mk_link_keys 3
    (<[2%nat := peer_rec 7 70]>
       (<[5%nat := peer_rec 7 71]> (lk_link_keys bt_host_link_keys_init))).

(** A session table with slots 0, 1 and 2 discovered, the rest free, and
    the adapter entries that go with it. *)
Definition sample_dev (id flags handle : Z) : bt_dev :=
  mk_bt_dev id flags 1 (peer_addr id) handle (mk_chan 64) (mk_chan 65)
            (mk_chan 66) (mk_chan 67).

Definition sample_devs : list bt_dev :=
  [sample_dev 0 1 11; sample_dev 1 1 12; sample_dev 2 1 13;
   bt_dev_zero; bt_dev_zero; bt_dev_zero; bt_dev_zero].

Definition sample_data_entry (cnt : Z) : bt_data :=
  mk_bt_data 0 0 0 0 cnt 0
    [mk_report 1 4; mk_report 2 2; mk_report 0 0; mk_report 0 0]
    (zero_bytes 16) (zero_bytes 16).

Definition sample_data : list bt_data := replicate 7 (sample_data_entry 0).

(** A complete (unfragmented) ACL frame on handle 11: [flags] in the top
    four bits of the handle, empty L2CAP payload, channel id [cid]. *)
Definition sample_frame (cid : Z) : list byte :=
  [x02; x0b; x20; x04; x00; x00; x00; u8 cid; x00].

(** A session with its flag word replaced. *)
Definition set_dev_flags (d : bt_dev) (flags : Z) : bt_dev :=
  mk_bt_dev (dev_id d) flags (dev_type d) (remote_bdaddr d) (acl_handle d)
            (sdp_tx_chan d) (sdp_rx_chan d) (ctrl_chan d) (intr_chan d).

(** Packets as producers queue them: a delay marker has its two bytes, a
    packet for the controller has at least its H4 type and one more. *)
Definition packet_ok (p : list byte) : Prop := (2 ≤ length p)%nat.

Definition action_ok (a : action) : Prop :=
  match a with
  | ActTxqAdd p => packet_ok p
  | _ => True
  end.

(** A session of the generic HID type, and a four-byte report payload. *)
Definition sample_generic_dev : bt_dev :=
  mk_bt_dev 0 1 0 (peer_addr 0) 11 (mk_chan 64) (mk_chan 65) (mk_chan 66)
            (mk_chan 67).

Definition sample_payload : list byte := [x10; x20; x30; x40].

(** The bytes a continuation packet carries after its H4 and ACL headers. *)
Definition cont_payload (c : list byte) : list byte := drop 5 c.

(** A continuation fragment as the controller delivers it: flagged as
    continuation, and as long as its ACL header says. *)
Definition cont_fragment (P : platform) (c : list byte) : Prop :=
  (∃ h, pkt_acl_handle c = Some h ∧ bt_acl_flags P h = BT_ACL_CONT P)
  ∧ pkt_acl_len c = Some (Z.of_nat (length (cont_payload c))).

(** A fragment START: flagged as start, with all three headers, and with
    an L2CAP length [L] that exceeds what the packet carries. *)
Definition start_fragment (P : platform) (p : list byte) (L : Z) : Prop :=
  (∃ h, pkt_acl_handle p = Some h ∧ bt_acl_flags P h = BT_ACL_START P)
  ∧ pkt_l2cap_len p = Some L
  ∧ 9 ≤ Z.of_nat (length p)
  ∧ Z.of_nat (length p) - 9 < L.


(** A 17-byte frame for the HID control channel (0x42) of handle 11, cut
    into a START of 13 bytes and a continuation of 4 payload bytes, and a
    continuation packet without payload. *)
Definition frag_start : list byte :=
  [x02; x0b; x20; x08; x00; x08; x00; x42; x00; xa1; xa2; xa3; xa4].

Definition frag_whole : list byte :=
  [x02; x0b; x20; x08; x00; x08; x00; x42; x00; xa1; xa2; xa3; xa4;
   xa5; xa6; xa7; xa8].


(** The same frame cut in three. *)
Definition frag_cont_a : list byte := [x02; x0b; x10; x02; x00; xa5; xa6].
Definition frag_cont_b : list byte := [x02; x0b; x10; x02; x00; xa7; xa8].




(** ** The rest of host.c: files, housekeeping, start-up *)

(** [bt_host_load_keys_from_file]: with no file on the card ([stat] fails)
    the ring passed in is written out; with a file, it is read into the
    ring when [fopen (.., "rb")] succeeds.  The file holds a blob of the
    size of the ring, as [bt_host_store_keys_on_file] writes it; the code
    does not look at the results of [fwrite], [fclose] and [fread], and
    the model takes them to succeed. *)
Definition bt_host_load_keys_from_file (sd : sd_card) (fopen_rb_ok : bool)
    (data : bt_host_link_keys_t) : sd_card * bt_host_link_keys_t * Z :=
  match sd_linkkeys sd with
  | None =>
      let '(sd', ret) := bt_host_store_keys_on_file sd data in (sd', data, ret)
  | Some blob => if fopen_rb_ok then (sd, blob, 0) else (sd, data, -1)
  end.

(** [bt_host_load_bdaddr_from_file]: the argument handed to
    [esp_base_mac_addr_set], if it is called, and the return value.  A file
    of fewer than six bytes leaves part of [test_mac] unwritten. *)
Definition bt_host_load_bdaddr_from_file (file : option (list byte))
    (fopen_ok : bool) : option (option (list byte) * Z) :=
  match file with
  | None => Some (None, -1)
  | Some content =>
      if fopen_ok then
        if bool_decide (6 ≤ length content)%nat then
          let test_mac := take 6 content in
          b5 ← test_mac !! 5%nat;
          Some (Some (<[5%nat := u8 (byte_val b5 - 2)]> test_mac), 0)
        else None
      else Some (None, -1)
  end.

(** What the housekeeping task takes from host.h, sdp.c, hci.c and hid.c:
    two more flag bits of a session, and what the SDP parser, the
    disconnect command and the HID initialisation leave in the entry or
    session they are given. *)
Record host_env := mk_host_env {
  BT_DEV_SDP_DATA : Z;
  BT_DEV_HID_INTR_READY : Z;
  bt_sdp_parser : bt_data → bt_data;
  bt_hci_disconnect : bt_dev → bt_dev;
  bt_hid_init : bt_dev → bt_dev
}.

(** What the housekeeping task and the timer callback do to the outside. *)
Inductive hk_event :=
| HkLogBootSw
| HkLogCallback
| HkDisconnect (slot : nat)
| HkTimerCreate
| HkTimerStartOnce (us : Z)
| HkTimerDelete
| HkSdpParser (slot : nat)
| HkHidInit (slot : nat)
| HkVTaskDelay (ticks : Z).

Definition set_dev_type (d : bt_dev) (type : Z) : bt_dev :=
  mk_bt_dev (dev_id d) (dev_flags d) type (remote_bdaddr d) (acl_handle d)
            (sdp_tx_chan d) (sdp_rx_chan d) (ctrl_chan d) (intr_chan d).

(** [bt_host_disconn_sw_callback]: a log line, the timer is deleted and the
    inhibit bit cleared. *)
Definition bt_host_disconn_sw_callback (bt_flags : Z) : Z * list hk_event :=
  (atomic_clear_bit bt_flags BT_HOST_DISCONN_SW_INHIBIT,
   [HkLogCallback; HkTimerDelete]).

Section HostTask.
Context (P : platform) (E : host_env).

Definition dev_sdp_pending (d : bt_dev) : bool :=
  atomic_test_bit (dev_flags d) (BT_DEV_SDP_DATA E).

(** The first [for] loop of [bt_host_task], from slot [i] on. *)
Fixpoint disconnect_all (i : nat) (devs : list bt_dev)
  : list bt_dev * list hk_event :=
  match devs with
  | [] => ([], [])
  | d :: devs' =>
      let '(rest, evs) := disconnect_all (S i) devs' in
      if dev_found P d
      then (bt_hci_disconnect E d :: rest, HkDisconnect i :: evs)
      else (d :: rest, evs)
  end.

(** Lines 211-229: the BOOT switch, read as [gpio_get_level (0)]. *)
Definition boot_sw (level : Z) (bt_flags : Z) (devs : list bt_dev)
  : Z * list bt_dev * list hk_event :=
  if bool_decide (level = 0)
     && negb (atomic_test_bit bt_flags BT_HOST_DISCONN_SW_INHIBIT)
  then
    let '(devs', evs) := disconnect_all 0 devs in
    (atomic_set_bit bt_flags BT_HOST_DISCONN_SW_INHIBIT, devs',
     [HkLogBootSw] ++ evs ++ [HkTimerCreate; HkTimerStartOnce 2000000])
  else (bt_flags, devs, []).

(** Lines 232-243 for one slot: the session, its adapter entry
    [bt_adapter.data[i]] (read only when SDP data is pending), the events. *)
Definition sdp_housekeeping_dev (i : nat) (d : bt_dev) (data : list bt_data)
  : option (bt_dev * list bt_data * list hk_event) :=
  if dev_found P d && dev_sdp_pending d then
    e ← data !! i;
    let e' := bt_sdp_parser E e in
    let '(d1, evs) :=
      if bool_decide (bd_dev_type e' ≠ dev_type d) then
        let d0 := set_dev_type d (bd_dev_type e') in
        if atomic_test_bit (dev_flags d0) (BT_DEV_HID_INTR_READY E)
        then (bt_hid_init E d0, [HkHidInit i])
        else (d0, [])
      else (d, []) in
    Some (set_dev_flags d1
            (atomic_clear_bit (dev_flags d1) (BT_DEV_SDP_DATA E)),
          <[i := e']> data, HkSdpParser i :: evs)
  else Some (d, data, []).

(** The second [for] loop of [bt_host_task], from slot [i] on. *)
Fixpoint sdp_housekeeping (i : nat) (devs : list bt_dev)
    (data : list bt_data)
  : option (list bt_dev * list bt_data * list hk_event) :=
  match devs with
  | [] => Some ([], data, [])
  | d :: devs' =>
      '(d', data1, evs) ← sdp_housekeeping_dev i d data;
      '(rest, data2, evs') ← sdp_housekeeping (S i) devs' data1;
      Some (d' :: rest, data2, evs ++ evs')
  end.

(** One turn of the [while (1)] of [bt_host_task]. *)
Definition bt_host_task (level : Z) (bt_flags : Z) (devs : list bt_dev)
    (data : list bt_data)
  : option (Z * list bt_dev * list bt_data * list hk_event) :=
  let '(flags1, devs1, evs1) := boot_sw level bt_flags devs in
  '(devs2, data2, evs2) ← sdp_housekeeping 0 devs1 data;
  if bool_decide (portTICK_PERIOD_MS P = 0) then None
  else Some (flags1, devs2, data2,
             evs1 ++ evs2 ++ [HkVTaskDelay (10 / portTICK_PERIOD_MS P)]).

(** Housekeeping turns, each with the level read from the switch, and
    expiries of the inhibit timer, in any order. *)
Inductive hk_action :=
| HkTurn (level : Z)
| HkTimerExpired.

Definition hk_step (bt_flags : Z) (devs : list bt_dev) (data : list bt_data)
    (a : hk_action)
  : option (Z * list bt_dev * list bt_data * list hk_event) :=
  match a with
  | HkTurn level => bt_host_task level bt_flags devs data
  | HkTimerExpired =>
      let '(f, evs) := bt_host_disconn_sw_callback bt_flags in
      Some (f, devs, data, evs)
  end.

Fixpoint hk_run (bt_flags : Z) (devs : list bt_dev) (data : list bt_data)
    (acts : list hk_action)
  : option (Z * list bt_dev * list bt_data * list hk_event) :=
  match acts with
  | [] => Some (bt_flags, devs, data, [])
  | a :: acts' =>
      '(f, dv, dt, evs) ← hk_step bt_flags devs data a;
      '(f', dv', dt', evs') ← hk_run f dv dt acts';
      Some (f', dv', dt', evs ++ evs')
  end.

End HostTask.


(** The sessions a "disconnect all" is sent for. *)
Definition disconnected_slots (evs : list hk_event) : list nat :=
  omap (fun e => match e with HkDisconnect i => Some i | _ => None end) evs.

(** ** Start-up *)

(** What the ESP-IDF calls of [bt_host_init] return, and the two error
    codes it compares with (esp_err.h and nvs.h are not among the sources:
    nothing is assumed about the two values). *)
Record init_world := mk_init_world {
  ESP_OK : Z;
  ESP_ERR_NVS_NO_FREE_PAGES : Z;
  nvs_flash_init_first : Z;
  nvs_flash_erase_ret : Z;
  nvs_flash_init_second : Z;
  esp_bt_controller_init_ret : Z;
  esp_bt_controller_enable_ret : Z;
  xRingbufferCreate_ok : bool
}.

(** The steps of [bt_host_init] that leave a trace outside the function. *)
Inductive init_step :=
| InitGpioConfig
| InitLoadBdaddr
| InitRegisterCallback
| InitTxPktReady
| InitCreateTxq
| InitLoadKeys
| InitTaskCreate (task : nat)
| InitHciInit
| InitLogControllerInitFailed
| InitLogControllerEnableFailed
| InitLogRingbufFailed.

(** [ESP_ERROR_CHECK] aborts; otherwise the function returns a value. *)
Inductive init_result :=
| InitAbort
| InitReturn (ret : Z).

Definition TASK_HOST : nat := 0.
Definition TASK_FB : nat := 1.
Definition TASK_TX : nat := 2.

(** [bt_host_init]: the result, the flag word, and the steps taken. *)
Definition bt_host_init (W : init_world) (bt_flags : Z)
  : init_result * Z * list init_step :=
  let nvs :=
    if bool_decide (nvs_flash_init_first W = ESP_ERR_NVS_NO_FREE_PAGES W) then
      if bool_decide (nvs_flash_erase_ret W = ESP_OK W)
      then Some (nvs_flash_init_second W) else None
    else Some (nvs_flash_init_first W) in
  match nvs with
  | None => (InitAbort, bt_flags, [])
  | Some ret =>
      if bool_decide (ret = ESP_OK W) then
        let steps1 := [InitGpioConfig; InitLoadBdaddr] in
        if bool_decide (esp_bt_controller_init_ret W ≠ ESP_OK W)
        then (InitReturn (esp_bt_controller_init_ret W), bt_flags,
              steps1 ++ [InitLogControllerInitFailed])
        else if bool_decide (esp_bt_controller_enable_ret W ≠ ESP_OK W)
        then (InitReturn (esp_bt_controller_enable_ret W), bt_flags,
              steps1 ++ [InitLogControllerEnableFailed])
        else
          let flags' := bt_host_tx_pkt_ready bt_flags in
          let steps2 :=
            steps1 ++ [InitRegisterCallback; InitTxPktReady; InitCreateTxq] in
          if xRingbufferCreate_ok W then
            (InitReturn (esp_bt_controller_enable_ret W), flags',
             steps2 ++ [InitLoadKeys; InitTaskCreate TASK_HOST;
                        InitTaskCreate TASK_FB; InitTaskCreate TASK_TX;
                        InitHciInit])
          else (InitReturn (esp_bt_controller_enable_ret W), flags',
                steps2 ++ [InitLogRingbufFailed])
      else (InitAbort, bt_flags, [])
  end.

(** ** Transmit queue: what was sent, what was queued *)

(** A queue entry is a delay marker when its first byte is 0xFF. *)
Definition is_wait_pkt (p : list byte) : bool :=
  match p with
  | b0 :: _ => bool_decide (byte_val b0 = 255)
  | [] => false
  end.

Definition real_packets (q : list (list byte)) : list (list byte) :=
  List.filter (fun p => negb (is_wait_pkt p)) q.

Definition sent_packets (tr : list tx_obs) : list (list byte) :=
  omap (fun o => match o with ObsSend p => Some p | _ => None end) tr.

Definition queued_packets (acts : list action) : list (list byte) :=
  omap (fun a => match a with ActTxqAdd p => Some p | _ => None end) acts.

(** A sample environment for the housekeeping task: SDP-pending is bit 1,
    interrupt-ready is bit 2, the parser reports device type 5, and the
    commands leave the session as it is. *)
Definition sample_env : host_env := {|
  BT_DEV_SDP_DATA := 1;
  BT_DEV_HID_INTR_READY := 2;
  bt_sdp_parser := fun e =>
    mk_bt_data (bd_flags e) (bd_dev_id e) 5 (bd_report_id e)
      (bd_report_cnt e) (bd_report_type e) (bd_reports e) (bd_input e)
      (bd_output e);
  bt_hci_disconnect := fun d => d;
  bt_hid_init := fun d => d
|}.

(** Slots 0 and 1 discovered; slot 0 has SDP data pending and its interrupt
    channel open. *)
Definition hk_devs : list bt_dev :=
  [sample_dev 0 7 11; sample_dev 1 1 12;
   bt_dev_zero; bt_dev_zero; bt_dev_zero; bt_dev_zero; bt_dev_zero].

Definition sample_world (ringbuf : bool) : init_world := {|
  ESP_OK := 0;
  ESP_ERR_NVS_NO_FREE_PAGES := 4365;
  nvs_flash_init_first := 0;
  nvs_flash_erase_ret := 0;
  nvs_flash_init_second := 0;
  esp_bt_controller_init_ret := 0;
  esp_bt_controller_enable_ret := 0;
  xRingbufferCreate_ok := ringbuf
|}.

(** ** Definitions for the properties of the rest of the code *)

(** The slot written by the [k]-th store of a new address when the cursor
    starts at [c]. *)
Definition ring_slot (c : Z) (k : nat) : nat :=
  Z.to_nat ((c + Z.of_nat k) mod 16).

(** Peers 2 to 17: sixteen more new addresses. *)
Definition peers_2_to_17 : list bt_hci_evt_link_key_notify :=
  (fun n => peer_rec (Z.of_nat n) (Z.of_nat n)) <$> seq 2 16.

(** A packet that is routed as it arrives: not a continuation, and not the
    start of a fragmented frame. *)
Definition complete_packet (P : platform) (p : list byte) : Prop :=
  ∃ h, pkt_acl_handle p = Some h
       ∧ bt_acl_flags P h ≠ BT_ACL_CONT P
       ∧ (bt_acl_flags P h ≠ BT_ACL_START P
          ∨ ∃ Lp, pkt_l2cap_len p = Some Lp
                  ∧ Lp ≤ u32 (Z.of_nat (length p) - 9)).

(** A session the per-device housekeeping has work for. *)
Definition sdp_due (P : platform) (E : host_env) (d : bt_dev) : bool :=
  dev_found P d && dev_sdp_pending E d.






(** What the first loop of [bt_host_task] leaves in a slot. *)
Definition found_or_not (P : platform) (E : host_env) (d : bt_dev) : bt_dev :=
  if dev_found P d then bt_hci_disconnect E d else d.

(** The tasks [bt_host_init] created, in order. *)
Definition tasks_started (steps : list init_step) : list nat :=
  omap (fun s => match s with InitTaskCreate t => Some t | _ => None end)
       steps.

(** Whether the test that guards the copy in [bt_host_bridge] passes. *)
Definition bridge_guard (P : platform) (d : bt_data) : bool :=
  atomic_test_bit (bd_flags d) (BT_INIT P)
  || bool_decide (1 < bd_report_cnt d).

(** Three packets queued, the second a delay marker, then drained. *)
Definition fifo_acts : list action :=
  [ActTxqAdd [x01; x03]; ActTxqAdd [xff; x32]; ActTxqAdd [x01; x01];
   ActTxTask; ActTxPktReady; ActTxTask; ActTxTask].


(** A BDADDR.BIN whose last byte is 1. *)
Definition bdaddr_file : list byte := [x00; x11; x22; x33; x44; x01].

(** Adapter entries whose report counter is past the bootstrap. *)
Definition running_data : list bt_data := replicate 7 (sample_data_entry 2).

(** ** Dreamcast feedback (dc.c) *)

(** Modelled from the spec: adapter.h, which declares [struct generic_fb],
    is not among the sources.  The four fields [dc_fb_to_generic] writes. *)
Record generic_fb := mk_generic_fb {
  fb_wired_id : Z;
  fb_cycles : Z;
  fb_start : Z;
  fb_state : Z
}.

(** The calls of [dc_fb_to_generic] into the adapter's stop timer. *)
Inductive fb_timer :=
| FbStopTimerStop (id : Z)
| FbStopTimerStart (id : Z) (dur_us : Z).

(** The largest [int] of the target. *)
Definition INT_MAX : Z := 2 ^ 31 - 1.

(** Modelled from the spec: util.h, which defines the macro [MAX], is not
    among the sources; the larger of its two arguments. *)
Definition MAX (a b : Z) : Z := Z.max a b.

(** [dc_fb_to_generic]: the feedback record and the timer call.  The
    [uint16_t] at [raw_fb_data + 1] is read little-endian, as the target
    does.  The initial value of [dur_us] is computed in [int] before any
    test: nothing is returned when it exceeds [INT_MAX], or when a byte is
    read beyond the buffer. *)
Definition dc_fb_to_generic (raw_fb_data : list byte) (raw_fb_len : Z)
  : option (generic_fb * list fb_timer) :=
  b0 ← raw_fb_data !! 0%nat;
  let id := byte_val b0 in
  if bool_decide (raw_fb_len = 1) then
    Some (mk_generic_fb id 0 0 0, [FbStopTimerStop id])
  else
    w ← rd16 raw_fb_data 1;
    let dur0 := 1000 * (w * 250 + 250) in
    if bool_decide (INT_MAX < dur0) then None
    else
      b6 ← raw_fb_data !! 6%nat;
      b7 ← raw_fb_data !! 7%nat;
      let freq := byte_val b6 in
      let mag0 := Z.land (byte_val b7) 7 in
      let mag1 := Z.land (Z.shiftr (byte_val b7) 4) 7 in
      if bool_decide (mag0 ≠ 0 ∨ mag1 ≠ 0) then
        cond ←
          (if bool_decide (freq = 0) then Some false
           else if bool_decide (Z.land (byte_val b7) 136 ≠ 0) then Some true
           else b8 ← raw_fb_data !! 8%nat;
                Some (bool_decide (Z.land (byte_val b8) 1 = 0)));
        dur_us ←
          (if cond : bool then
             b5 ← raw_fb_data !! 5%nat;
             if bool_decide (byte_val b5 ≠ 0)
             then Some (1000000 * byte_val b5 * MAX mag0 mag1 / freq)
             else Some (1000000 / freq)
           else Some dur0);
        Some (mk_generic_fb id 0 0 1, [FbStopTimerStart id (u32 dur_us)])
      else Some (mk_generic_fb id 0 0 0, [FbStopTimerStop id]).

(** A rumble command for wired port 2: frequency 16, both magnitudes on;
    and one whose 16-bit duration field is 0xFFFF. *)
Definition rumble_on : list byte :=
  [x02; x03; x00; x00; x00; x02; x10; x07; x00].
Definition rumble_long : list byte :=
  [x02; xff; xff; x00; x00; x00; x00; x00; x00].

(** ** More instances and predicates for the statements *)


(** What [memset (.., 0, ..)] leaves in a session: every field zero. *)
Definition bt_dev_is_zero (z : bt_dev) : Prop :=
  dev_id z = 0 ∧ dev_flags z = 0 ∧ dev_type z = 0 ∧ acl_handle z = 0
  ∧ remote_bdaddr z = zero_bytes 6
  ∧ scid (sdp_tx_chan z) = 0 ∧ scid (sdp_rx_chan z) = 0
  ∧ scid (ctrl_chan z) = 0 ∧ scid (intr_chan z) = 0.

(** What it leaves in an adapter entry: flags, ids, type, report counter
    and report type zero, every row of the report table zero, every byte
    of the input and output buffers zero. *)
Definition bt_data_is_zero (e : bt_data) : Prop :=
  bd_flags e = 0 ∧ bd_dev_id e = 0 ∧ bd_dev_type e = 0
  ∧ bd_report_id e = 0 ∧ bd_report_cnt e = 0 ∧ bd_report_type e = 0
  ∧ Forall (fun r => hr_id r = 0 ∧ hr_len r = 0) (bd_reports e)
  ∧ Forall (fun b => b = x00) (bd_input e)
  ∧ Forall (fun b => b = x00) (bd_output e).

(** Adapter entries in use: initialised, counter 9, a report pending. *)
Definition used_data_entry : bt_data :=
  mk_bt_data 1 2 1 3 9 1
    [mk_report 1 4; mk_report 2 2; mk_report 0 0; mk_report 0 0]
    (replicate 16 xa5) (replicate 16 x5a).

Definition used_data : list bt_data := replicate 7 used_data_entry.

(** What a producer step adds to the queue: the packet, when
    [xRingbufferSend] took it for the queue as it was. *)
Definition step_accepted (P : platform) (txq : list (list byte)) (a : action)
  : list (list byte) :=
  match a with
  | ActTxqAdd p => if xRingbufferSend P txq p then [p] else []
  | _ => []
  end.

(** The packets the ring buffer took in the course of a run. *)
Fixpoint accepted_packets (P : platform) (bt_flags : Z)
    (txq : list (list byte)) (acts : list action) : list (list byte) :=
  match acts with
  | [] => []
  | a :: acts' =>
      match tx_step P bt_flags txq a with
      | Some (f, q, _) => step_accepted P txq a ++ accepted_packets P f q acts'
      | None => []
      end
  end.

(** * Properties *)

(** ** Link-key store *)

Lemma store_scan_app a l1 l2 i index :
  store_scan a (l1 ++ l2) i index
  = store_scan a l2 (i + Z.of_nat (length l1)) (store_scan a l1 i index).
Proof.
  revert i index. induction l1 as [| r l1 IH]; intros i index; simpl.
  - f_equal. lia.
  - rewrite IH. f_equal. lia.
Qed.

Lemma store_scan_absent a recs i index :
  (∀ r, r ∈ recs → lkn_bdaddr r ≠ a) →
  store_scan a recs i index = index.
Proof.
  revert i index. induction recs as [| r recs IH]; intros i index H; simpl.
  - reflexivity.
  - rewrite bool_decide_eq_false_2.
    + apply IH. intros r' Hr'. apply H. by right.
    + intros E. apply (H r); [by left | done].
Qed.

Lemma last_match_split a recs j :
  last_match a recs j →
  ∃ r, recs = take j recs ++ r :: drop (S j) recs
       ∧ lkn_bdaddr r = a
       ∧ length (take j recs) = j
       ∧ ∀ r', r' ∈ drop (S j) recs → lkn_bdaddr r' ≠ a.
Proof.
  intros [(r & Hr & Ha) Hlater]. exists r. repeat split.
  - by rewrite take_drop_middle.
  - done.
  - apply length_take_le. apply lookup_lt_Some in Hr. lia.
  - intros r' Hin. apply list_elem_of_lookup in Hin as [k Hk].
    rewrite lookup_drop in Hk. eapply Hlater; [| exact Hk]. lia.
Qed.

Lemma store_scan_last a recs j i index :
  last_match a recs j → store_scan a recs i index = i + Z.of_nat j.
Proof.
  intros H. destruct (last_match_split _ _ _ H) as (r & Hs & Ha & Hl & Hno).
  rewrite Hs, store_scan_app, Hl. simpl.
  rewrite bool_decide_eq_true_2 by done.
  by apply store_scan_absent.
Qed.

(** Either no record carries the address, or there is a last one. *)
Lemma last_match_dec a (recs : list bt_hci_evt_link_key_notify) :
  (∀ r, r ∈ recs → lkn_bdaddr r ≠ a) ∨ ∃ j, last_match a recs j.
Proof.
  induction recs as [| r recs IH].
  - left. intros r Hr. by apply elem_of_nil in Hr.
  - destruct IH as [Hno | [j Hj]].
    + destruct (decide (lkn_bdaddr r = a)) as [E | E].
      * right. exists 0%nat. split; [by exists r |].
        intros [| j'] r' Hlt Hl; [lia |]. simpl in Hl.
        apply Hno. apply list_elem_of_lookup. eauto.
      * left. intros r' Hr'. apply elem_of_cons in Hr' as [-> | Hr']; auto.
    + right. exists (S j). destruct Hj as [(r0 & Hr0 & Ha) Hl]. split.
      * by exists r0.
      * intros [| j'] r' Hlt Hlk; [lia |]. simpl in Hlk.
        apply (Hl j' r'); [lia | done].
Qed.

Lemma load_unfold keys reply :
  bt_host_load_link_key keys reply
  = foldl load_step (reply, -1) (lk_link_keys keys).
Proof. reflexivity. Qed.

Lemma load_fold_absent recs acc :
  (∀ r, r ∈ recs → lkn_bdaddr r ≠ lkr_bdaddr acc.1) →
  foldl load_step acc recs = acc.
Proof.
  revert acc. induction recs as [| r recs IH]; intros [reply ret] H; simpl.
  - reflexivity.
  - rewrite bool_decide_eq_false_2.
    + apply IH. intros r' Hr'. apply H. by right.
    + simpl in H. intros E. apply (H r); [by left | done].
Qed.

Lemma load_fold_bdaddr recs acc :
  lkr_bdaddr (foldl load_step acc recs).1 = lkr_bdaddr acc.1.
Proof.
  revert acc. induction recs as [| r recs IH]; intros [reply ret]; simpl.
  - reflexivity.
  - case_bool_decide; rewrite IH; reflexivity.
Qed.

Lemma load_fold_last recs j reply ret :
  last_match (lkr_bdaddr reply) recs j →
  ∃ r, recs !! j = Some r
       ∧ foldl load_step (reply, ret) recs
         = (mk_link_key_reply (lkr_bdaddr reply) (lkn_link_key r), 0).
Proof.
  intros H. destruct (last_match_split _ _ _ H) as (r & Hs & Ha & Hl & Hno).
  exists r. split.
  - rewrite Hs. rewrite lookup_app_r by lia. by rewrite Hl, Nat.sub_diag.
  - rewrite Hs, foldl_app. simpl.
    pose proof (load_fold_bdaddr (take j recs) (reply, ret)) as Hb.
    destruct (foldl load_step (reply, ret) (take j recs)) as [reply' ret'].
    simpl in Hb. simpl. rewrite Hb.
    rewrite bool_decide_eq_true_2 by done.
    by apply load_fold_absent.
Qed.

Lemma cursor_advance c :
  0 ≤ c < 16 → Z.land (u32 (c + 1)) 15 = (c + 1) mod 16.
Proof.
  intros H. unfold u32. rewrite Z.mod_small by lia.
  change 15 with (Z.ones 4). by rewrite Z.land_ones by lia.
Qed.

Lemma cursor_advance_moves c : 0 ≤ c < 16 → (c + 1) mod 16 ≠ c.
Proof.
  intros H. destruct (decide (c = 15)) as [-> | Hc]; [done |].
  rewrite Z.mod_small; lia.
Qed.

Lemma last_match_insert a recs j n :
  (j < length recs)%nat →
  (∀ j' r', (j < j')%nat → recs !! j' = Some r' → lkn_bdaddr r' ≠ a) →
  lkn_bdaddr n = a →
  last_match a (<[j := n]> recs) j.
Proof.
  intros Hj Hlater Hn. split.
  - exists n. split; [by rewrite list_lookup_insert_eq | done].
  - intros j' r' Hlt Hl. rewrite list_lookup_insert_ne in Hl by lia.
    by eapply Hlater.
Qed.

(** What [bt_host_store_link_key] computes once the slot [idx] chosen by
    the scan is known. *)
Lemma store_link_key_at sd keys n idx :
  store_scan (lkn_bdaddr n) (lk_link_keys keys) 0 (lk_index keys) = idx →
  0 ≤ idx < Z.of_nat (length (lk_link_keys keys)) →
  bt_host_store_link_key sd keys n
  = let keys' :=
      mk_link_keys
        (if bool_decide (idx = lk_index keys)
         then Z.land (u32 (lk_index keys + 1)) 15 else lk_index keys)
        (<[Z.to_nat idx := n]> (lk_link_keys keys)) in
    Some ((bt_host_store_keys_on_file sd keys').1, keys',
          (bt_host_store_keys_on_file sd keys').2).
Proof.
  intros Hscan Hr. unfold bt_host_store_link_key. rewrite Hscan.
  rewrite bool_decide_eq_true_2 by done. simpl.
  by destruct (bt_host_store_keys_on_file _ _).
Qed.

(** New address: written at the cursor, cursor advances modulo 16. *)
Lemma store_link_key_absent sd keys n :
  link_keys_ok keys →
  (∀ r, r ∈ lk_link_keys keys → lkn_bdaddr r ≠ lkn_bdaddr n) →
  ∃ sd' ret,
    bt_host_store_link_key sd keys n
    = Some (sd',
            mk_link_keys ((lk_index keys + 1) mod 16)
              (<[Z.to_nat (lk_index keys) := n]> (lk_link_keys keys)),
            ret).
Proof.
  intros [Hlen Hc] Habs.
  rewrite (store_link_key_at sd keys n (lk_index keys)).
  - simpl. rewrite bool_decide_eq_true_2 by done.
    rewrite cursor_advance by done. eauto.
  - by apply store_scan_absent.
  - lia.
Qed.

(** Known address, last held by slot [j]: written at [j]; the cursor moves
    exactly when [j] is the cursor. *)
Lemma store_link_key_found sd keys n j :
  link_keys_ok keys →
  last_match (lkn_bdaddr n) (lk_link_keys keys) j →
  ∃ sd' ret,
    bt_host_store_link_key sd keys n
    = Some (sd',
            mk_link_keys
              (if bool_decide (Z.of_nat j = lk_index keys)
               then (lk_index keys + 1) mod 16 else lk_index keys)
              (<[j := n]> (lk_link_keys keys)),
            ret).
Proof.
  intros [Hlen Hc] Hj.
  assert (j < length (lk_link_keys keys))%nat as Hlt.
  { destruct Hj as [(r & Hr & _) _]. by apply lookup_lt_Some in Hr. }
  rewrite (store_link_key_at sd keys n (Z.of_nat j)).
  - simpl. rewrite Nat2Z.id. case_bool_decide.
    + rewrite cursor_advance by done. eauto.
    + eauto.
  - rewrite (store_scan_last _ _ j) by done. lia.
  - lia.
Qed.

Lemma store_link_key_ok sd keys n sd' keys' ret :
  link_keys_ok keys →
  bt_host_store_link_key sd keys n = Some (sd', keys', ret) →
  link_keys_ok keys'.
Proof.
  intros Hok Hs.
  pose proof (Z.mod_pos_bound (lk_index keys + 1) 16 ltac:(lia)) as Hm.
  pose proof Hok as [Hlen Hc].
  destruct (last_match_dec (lkn_bdaddr n) (lk_link_keys keys)) as [Ha | [j Hj]].
  - destruct (store_link_key_absent sd keys n Hok Ha) as (sd1 & r1 & E).
    rewrite E in Hs. inversion Hs; subst.
    split; simpl; [by rewrite length_insert | lia].
  - destruct (store_link_key_found sd keys n j Hok Hj) as (sd1 & r1 & E).
    rewrite E in Hs. inversion Hs; subst.
    split; simpl; [by rewrite length_insert |].
    case_bool_decide; lia.
Qed.

Lemma store_link_key_total sd keys n :
  link_keys_ok keys → is_Some (bt_host_store_link_key sd keys n).
Proof.
  intros Hok.
  destruct (last_match_dec (lkn_bdaddr n) (lk_link_keys keys)) as [Ha | [j Hj]].
  - destruct (store_link_key_absent sd keys n Hok Ha) as (? & ? & ->). eauto.
  - destruct (store_link_key_found sd keys n j Hok Hj) as (? & ? & ->). eauto.
Qed.

(** After a store the stored record is the last one with its address, and
    it does not sit at the cursor. *)
Lemma store_link_key_last sd keys n sd' keys' ret :
  link_keys_ok keys →
  bt_host_store_link_key sd keys n = Some (sd', keys', ret) →
  ∃ j, last_match (lkn_bdaddr n) (lk_link_keys keys') j
       ∧ lk_link_keys keys' !! j = Some n
       ∧ Z.of_nat j ≠ lk_index keys'.
Proof.
  intros Hok Hs. pose proof Hok as [Hlen Hc].
  destruct (last_match_dec (lkn_bdaddr n) (lk_link_keys keys)) as [Ha | [j Hj]].
  - destruct (store_link_key_absent sd keys n Hok Ha) as (sd1 & r1 & E).
    rewrite E in Hs. inversion Hs; subst. simpl.
    exists (Z.to_nat (lk_index keys)). repeat split.
    + exists n. split; [| done]. apply list_lookup_insert_eq. lia.
    + intros j' r' Hlt Hl. rewrite list_lookup_insert_ne in Hl by lia.
      apply Ha. apply list_elem_of_lookup. eauto.
    + apply list_lookup_insert_eq. lia.
    + rewrite Z2Nat.id by lia. intros E'. symmetry in E'.
      by apply cursor_advance_moves in E'.
  - destruct (store_link_key_found sd keys n j Hok Hj) as (sd1 & r1 & E).
    rewrite E in Hs. inversion Hs; subst. simpl.
    assert (j < length (lk_link_keys keys))%nat as Hlt.
    { destruct Hj as [(r & Hr & _) _]. by apply lookup_lt_Some in Hr. }
    exists j. repeat split.
    + exists n. split; [by apply list_lookup_insert_eq | done].
    + intros j' r' Hlt' Hl. rewrite list_lookup_insert_ne in Hl by lia.
      destruct Hj as [_ Hlater]. by eapply Hlater.
    + by apply list_lookup_insert_eq.
    + case_bool_decide as Hb; [| done].
      rewrite Hb. intros E'. symmetry in E'.
      by apply cursor_advance_moves in E'.
Qed.

(** Storing the same record again changes nothing: same slot, same cursor. *)
Lemma store_link_key_twice sd keys n sd1 keys1 ret1 :
  link_keys_ok keys →
  bt_host_store_link_key sd keys n = Some (sd1, keys1, ret1) →
  ∃ sd2 ret2, bt_host_store_link_key sd1 keys1 n = Some (sd2, keys1, ret2).
Proof.
  intros Hok Hs.
  pose proof (store_link_key_ok _ _ _ _ _ _ Hok Hs) as Hok1.
  destruct (store_link_key_last _ _ _ _ _ _ Hok Hs) as (j & Hj & Hn & Hne).
  destruct (store_link_key_found sd1 keys1 n j Hok1 Hj) as (sd2 & r2 & E).
  exists sd2, r2. rewrite E. do 2 f_equal.
  rewrite bool_decide_eq_false_2 by done.
  rewrite list_insert_id by done. by destruct keys1.
Qed.

Lemma load_after_store sd keys n sd' keys' ret key0 :
  link_keys_ok keys →
  bt_host_store_link_key sd keys n = Some (sd', keys', ret) →
  bt_host_load_link_key keys' (mk_link_key_reply (lkn_bdaddr n) key0)
  = (mk_link_key_reply (lkn_bdaddr n) (lkn_link_key n), 0).
Proof.
  intros Hok Hs.
  destruct (store_link_key_last _ _ _ _ _ _ Hok Hs) as (j & Hj & Hn & _).
  rewrite load_unfold.
  destruct (load_fold_last (lk_link_keys keys') j
              (mk_link_key_reply (lkn_bdaddr n) key0) (-1) Hj)
    as (r & Hr & ->).
  rewrite Hn in Hr. by inversion Hr.
Qed.

Lemma last_match_Forall a recs j r :
  recs !! j = Some r → lkn_bdaddr r = a →
  Forall (fun r' => lkn_bdaddr r' ≠ a) (drop (S j) recs) →
  last_match a recs j.
Proof.
  intros Hr Ha Hall. split; [by exists r |].
  intros j' r' Hlt Hl. rewrite Forall_lookup in Hall.
  apply (Hall (j' - S j)%nat). rewrite lookup_drop.
  by replace (S j + (j' - S j))%nat with j' by lia.
Qed.

Lemma store_link_key_keeps_absent a sd keys n sd' keys' ret :
  link_keys_ok keys →
  (∀ r, r ∈ lk_link_keys keys → lkn_bdaddr r ≠ a) →
  lkn_bdaddr n ≠ a →
  bt_host_store_link_key sd keys n = Some (sd', keys', ret) →
  ∀ r, r ∈ lk_link_keys keys' → lkn_bdaddr r ≠ a.
Proof.
  intros Hok Habs Hn Hs r Hr.
  assert (∃ i, lk_link_keys keys' = <[i := n]> (lk_link_keys keys)) as [i Hi].
  { destruct (last_match_dec (lkn_bdaddr n) (lk_link_keys keys))
      as [Ha | [j Hj]].
    - destruct (store_link_key_absent sd keys n Hok Ha) as (? & ? & E).
      rewrite E in Hs. inversion Hs; subst. eauto.
    - destruct (store_link_key_found sd keys n j Hok Hj) as (? & ? & E).
      rewrite E in Hs. inversion Hs; subst. eauto. }
  rewrite Hi in Hr. apply list_elem_of_lookup in Hr as [k Hk].
  apply list_lookup_insert_Some in Hk as [(_ & <- & _) | (_ & Hk)]; [done |].
  apply Habs. apply list_elem_of_lookup. eauto.
Qed.

Lemma store_all_app sd keys recs1 recs2 :
  store_all sd keys (recs1 ++ recs2)
  = '(sd', keys') ← store_all sd keys recs1; store_all sd' keys' recs2.
Proof.
  revert sd keys. induction recs1 as [| n recs1 IH]; intros sd keys; simpl.
  - reflexivity.
  - destruct (bt_host_store_link_key sd keys n) as [[[sd1 keys1] r1] |];
      simpl; [apply IH | reflexivity].
Qed.

Lemma store_all_ok sd keys recs :
  link_keys_ok keys →
  ∃ sd' keys', store_all sd keys recs = Some (sd', keys')
               ∧ link_keys_ok keys'.
Proof.
  revert sd keys. induction recs as [| n recs IH]; intros sd keys Hok; simpl.
  - eauto.
  - destruct (store_link_key_total sd keys n Hok) as [[[sd1 keys1] r1] E].
    rewrite E. simpl. apply IH. by eapply store_link_key_ok.
Qed.

Lemma store_all_keeps_absent a sd keys recs sd' keys' :
  link_keys_ok keys →
  (∀ r, r ∈ lk_link_keys keys → lkn_bdaddr r ≠ a) →
  Forall (fun n => lkn_bdaddr n ≠ a) recs →
  store_all sd keys recs = Some (sd', keys') →
  ∀ r, r ∈ lk_link_keys keys' → lkn_bdaddr r ≠ a.
Proof.
  revert sd keys. induction recs as [| n recs IH];
    intros sd keys Hok Habs Hall Hs; simpl in Hs.
  - by inversion Hs; subst.
  - inversion Hall as [| ? ? Hn Hall']; subst.
    destruct (bt_host_store_link_key sd keys n) as [[[sd1 keys1] r1] |] eqn:E;
      [| done]. simpl in Hs.
    apply (IH sd1 keys1); [| | done | done].
    + by eapply store_link_key_ok.
    + by eapply store_link_key_keeps_absent.
Qed.

(** C3, at a ring the program reaches by itself.  Sixteen bondings fill
    the ring and bring the cursor back to slot 0, which holds peer 1.  When
    peer 1 bonds again its record is found (at slot 0) and overwritten in
    place, and the cursor nevertheless advances to 1: the test
    [index == bt_host_link_keys.index] cannot tell "found at the cursor"
    from "not found". *)
Theorem store_link_key_found_at_cursor :
  store_all sd_ok bt_host_link_keys_init sixteen_peers
  = Some (mk_sd true (Some full_ring), full_ring)
  ∧ lk_index full_ring = 0
  ∧ lk_link_keys full_ring !! 0%nat = Some (peer_rec 1 1)
  ∧ bt_host_store_link_key sd_ok full_ring (peer_rec 1 99)
    = (let keys' :=
         mk_link_keys 1 (<[0%nat := peer_rec 1 99]> sixteen_peers) in
       Some (mk_sd true (Some keys'), keys', 0)).
Proof. repeat split; vm_compute; reflexivity. Qed.

(** C6, as the code has it.  On a well-formed ring: (1) if no record
    carries the address (unused slots carry the all-zero address), and only
    other addresses are stored from then on, the lookup returns -1 and
    hands back the output argument as it was; (2) after the address has been
    stored, anything else has been stored, and the address has been stored
    again with a new key, the lookup returns 0 and the key of the last
    store; (3) whenever several records carry the address, the lookup
    returns 0 and the key of the one with the highest index. *)
Theorem load_link_key_spec keys reply :
  link_keys_ok keys →
  ((∀ r, r ∈ lk_link_keys keys → lkn_bdaddr r ≠ lkr_bdaddr reply) →
   ∀ sd recs,
     Forall (fun n => lkn_bdaddr n ≠ lkr_bdaddr reply) recs →
     ∃ sd' keys',
       store_all sd keys recs = Some (sd', keys')
       ∧ bt_host_load_link_key keys' reply = (reply, -1))
  ∧ (∀ sd n1 recs n2,
       lkn_bdaddr n1 = lkr_bdaddr reply →
       lkn_bdaddr n2 = lkr_bdaddr reply →
       ∃ sd' keys',
         store_all sd keys (n1 :: recs ++ [n2]) = Some (sd', keys')
         ∧ bt_host_load_link_key keys' reply
           = (mk_link_key_reply (lkr_bdaddr reply) (lkn_link_key n2), 0))
  ∧ (∀ j, last_match (lkr_bdaddr reply) (lk_link_keys keys) j →
       ∃ r, lk_link_keys keys !! j = Some r
            ∧ bt_host_load_link_key keys reply
              = (mk_link_key_reply (lkr_bdaddr reply) (lkn_link_key r), 0)).
Proof.
  intros Hok. repeat split.
  - intros Habs sd recs Hall.
    destruct (store_all_ok sd keys recs Hok) as (sd' & keys' & Hs & _).
    exists sd', keys'. split; [done |].
    rewrite load_unfold. apply load_fold_absent. simpl.
    by eapply store_all_keeps_absent.
  - intros sd n1 recs n2 H1 H2.
    destruct (store_all_ok sd keys (n1 :: recs) Hok) as (sd1 & keys1 & Hs1 & Hok1).
    destruct (store_link_key_total sd1 keys1 n2 Hok1) as [[[sd2 keys2] r2] E].
    exists sd2, keys2. split.
    + change (n1 :: recs ++ [n2]) with ((n1 :: recs) ++ [n2]).
      rewrite store_all_app, Hs1. simpl. by rewrite E.
    + pose proof (load_after_store _ _ _ _ _ _ (lkr_link_key reply) Hok1 E)
        as Hl.
      rewrite H2 in Hl. by destruct reply.
  - intros j Hj. rewrite load_unfold. by apply load_fold_last.
Qed.

(** The all-zero address has never been stored in the initial ring, and
    the lookup finds it: every unused slot carries it.  The output key is
    overwritten with the zero key of slot 15. *)
Lemma load_link_key_zero_address_counterexample :
  bt_host_load_link_key bt_host_link_keys_init
    (mk_link_key_reply (zero_bytes 6) (peer_key 9))
  = (mk_link_key_reply (zero_bytes 6) (zero_bytes 16), 0).
Proof. vm_compute. reflexivity. Qed.

Lemma full_ring_ok : link_keys_ok full_ring.
Proof. split; [reflexivity | simpl; lia]. Qed.

Lemma dup_ring_ok : link_keys_ok dup_ring.
Proof. split; [reflexivity | simpl; lia]. Qed.

Lemma load_link_key_spec_witness :
  bt_host_load_link_key full_ring
    (mk_link_key_reply (peer_addr 40) (peer_key 0))
  = (mk_link_key_reply (peer_addr 40) (peer_key 0), -1)
  ∧ (∃ sd' keys',
       store_all sd_ok full_ring [peer_rec 40 1; peer_rec 41 2; peer_rec 40 3]
       = Some (sd', keys')
       ∧ bt_host_load_link_key keys'
           (mk_link_key_reply (peer_addr 40) (peer_key 0))
         = (mk_link_key_reply (peer_addr 40) (peer_key 3), 0))
  ∧ bt_host_load_link_key dup_ring
      (mk_link_key_reply (peer_addr 7) (peer_key 0))
    = (mk_link_key_reply (peer_addr 7) (peer_key 71), 0).
Proof.
  destruct (load_link_key_spec full_ring
              (mk_link_key_reply (peer_addr 40) (peer_key 0)) full_ring_ok)
    as (H1 & H2 & _).
  destruct (load_link_key_spec dup_ring
              (mk_link_key_reply (peer_addr 7) (peer_key 0)) dup_ring_ok)
    as (_ & _ & H3).
  split; [| split].
  - assert (∀ r, r ∈ lk_link_keys full_ring
                 → lkn_bdaddr r ≠ peer_addr 40) as Habs.
    { apply list.Forall_forall. apply (bool_decide_unpack _). vm_compute. exact I. }
    destruct (H1 Habs sd_ok [] (Forall_nil _)) as (sd' & keys' & Hs & Hl).
    simpl in Hs. inversion Hs; subst. exact Hl.
  - apply (H2 sd_ok (peer_rec 40 1) [peer_rec 41 2] (peer_rec 40 3));
      reflexivity.
  - destruct (H3 5%nat) as (r & Hr & Hl).
    + eapply last_match_Forall; [reflexivity | reflexivity |].
      apply (bool_decide_unpack _). vm_compute. exact I.
    + vm_compute in Hr. inversion Hr; subst. exact Hl.
Defined.

(** ** Device session table *)

Lemma get_new_dev_Some P devs i :
  bt_host_get_new_dev P devs = Some i ↔
  (∃ d, devs !! i = Some d ∧ dev_found P d = false)
  ∧ ∀ j d, (j < i)%nat → devs !! j = Some d → dev_found P d = true.
Proof.
  unfold bt_host_get_new_dev. rewrite fmap_Some. split.
  - intros [[i' d] [Hf ->]]. apply list_find_Some in Hf as (Hl & Hp & Hb).
    simpl. split; [by exists d |]. intros j dj Hlt Hj.
    specialize (Hb j dj Hj Hlt). by destruct (dev_found P dj).
  - intros [(d & Hl & Hp) Hb]. exists (i, d). split; [| done].
    apply list_find_Some. repeat split; [done | done |].
    intros j dj Hj Hlt. by rewrite (Hb j dj Hlt Hj).
Qed.

Lemma get_new_dev_None P devs :
  bt_host_get_new_dev P devs = None ↔
  ∀ d, d ∈ devs → dev_found P d = true.
Proof.
  unfold bt_host_get_new_dev. rewrite fmap_None, list_find_None.
  rewrite list.Forall_forall. split; intros H d Hd.
  - specialize (H d Hd). by destruct (dev_found P d).
  - by rewrite (H d Hd).
Qed.

Lemma data_at_insert data id d x :
  data_at data id = Some d →
  data_at (<[Z.to_nat id := x]> data) id = Some x.
Proof.
  unfold data_at. case_bool_decide; [| done]. intros Hl.
  apply list_lookup_insert_eq. by apply lookup_lt_Some in Hl.
Qed.

Lemma dev_found_zero P : dev_found P bt_dev_zero = false.
Proof. unfold dev_found, atomic_test_bit. simpl. apply Z.testbit_0_l. Qed.

(** C7.  In any state of the seven-slot table: [bt_host_get_new_dev]
    returns slot [i] exactly when [i] is the first slot whose discovered bit
    is clear, and -1 exactly when every slot has it set; so the slot it
    returns never has the bit set.  [bt_host_reset_dev] on a slot calls
    [adapter_init_buffer] with the id of the session, then zeroes the
    adapter entry of that id and the session: in the entry the flags, ids,
    type, report counter and report type are 0, every row of the report
    table and every byte of the input and output buffers is zero, the sizes
    being kept; in the session every field is zero; no other session and
    no other entry changes.  The allocation that follows returns a slot: one
    not after the reset slot, and the reset slot itself when every slot
    before it is discovered. *)
Theorem get_new_dev_spec P devs :
  length devs = BT_DEV_MAX →
  (∀ i, bt_host_get_new_dev P devs = Some i ↔
        (i < BT_DEV_MAX)%nat
        ∧ (∃ di, devs !! i = Some di ∧ dev_found P di = false)
        ∧ ∀ j dj, (j < i)%nat → devs !! j = Some dj → dev_found P dj = true)
  ∧ (bt_host_get_new_dev P devs = None ↔
     ∀ di, di ∈ devs → dev_found P di = true)
  ∧ (∀ i di, bt_host_get_new_dev P devs = Some i → devs !! i = Some di →
             dev_found P di = false)
  ∧ (∀ data slot d d0,
       devs !! slot = Some d →
       data_at data (dev_id d) = Some d0 →
       ∃ devs' data' evs i,
         bt_host_reset_dev devs data slot = Some (devs', data', evs)
         ∧ devs' !! slot = Some bt_dev_zero
         ∧ data_at data' (dev_id d) = Some (bt_data_zero d0)
         ∧ bt_host_get_new_dev P devs' = Some i
         ∧ (i ≤ slot)%nat
         ∧ ((∀ j dj, (j < slot)%nat → devs !! j = Some dj →
                     dev_found P dj = true) → i = slot)
         ∧ evs = [CallAdapterInitBuffer (dev_id d)]
         ∧ (∃ z e,
              devs' !! slot = Some z
              ∧ bt_dev_is_zero z
              ∧ data_at data' (dev_id d) = Some e
              ∧ bt_data_is_zero e
              ∧ length (bd_reports e) = length (bd_reports d0)
              ∧ length (bd_input e) = length (bd_input d0)
              ∧ length (bd_output e) = length (bd_output d0))
         ∧ length devs' = length devs
         ∧ length data' = length data
         ∧ (∀ j, j ≠ slot → devs' !! j = devs !! j)
         ∧ (∀ j, j ≠ Z.to_nat (dev_id d) → data' !! j = data !! j)).
Proof.
  intros Hlen. split; [| split; [| split]].
  - intros i. rewrite get_new_dev_Some. split.
    + intros [(di & Hi & Hf) Hb]. split; [| eauto].
      apply lookup_lt_Some in Hi. lia.
    + intros (_ & H1 & H2). eauto.
  - apply get_new_dev_None.
  - intros i di Hn Hi. apply get_new_dev_Some in Hn as [(di' & Hi' & Hf) _].
    congruence.
  - intros data slot d d0 Hslot Hdata.
    pose proof (lookup_lt_Some _ _ _ Hslot) as Hlt.
    assert (<[slot := bt_dev_zero]> devs !! slot = Some bt_dev_zero) as Hz
      by by apply list_lookup_insert_eq.
    destruct (bt_host_get_new_dev P (<[slot := bt_dev_zero]> devs))
      as [i |] eqn:Hn.
    + pose proof Hn as Hn'.
      apply get_new_dev_Some in Hn' as [(di & Hi & Hf) Hb].
      assert (i ≤ slot)%nat as Hle.
      { destruct (decide (i ≤ slot)%nat) as [| Hgt]; [done |].
        pose proof (Hb slot bt_dev_zero ltac:(lia) Hz) as Hc.
        by rewrite dev_found_zero in Hc. }
      exists (<[slot := bt_dev_zero]> devs),
             (<[Z.to_nat (dev_id d) := bt_data_zero d0]> data),
             [CallAdapterInitBuffer (dev_id d)], i.
      split; [unfold bt_host_reset_dev; rewrite Hslot; simpl;
              by rewrite Hdata |].
      split; [done |].
      split; [by eapply data_at_insert |].
      split; [done |]. split; [done |].
      split.
      { intros Hall. destruct (decide (i = slot)) as [| Hne]; [done |].
        rewrite list_lookup_insert_ne in Hi by done.
        rewrite (Hall i di ltac:(lia) Hi) in Hf. done. }
      split; [done |].
      split.
      { exists bt_dev_zero, (bt_data_zero d0).
        split; [done |]. split; [by repeat split |].
        split; [by eapply data_at_insert |].
        split.
        - unfold bt_data_is_zero, bt_data_zero, zero_bytes. simpl.
          repeat split; try done; apply Forall_replicate; done.
        - unfold bt_data_zero, zero_bytes. simpl.
          by rewrite !length_replicate. }
      split; [by rewrite length_insert |].
      split; [by rewrite length_insert |].
      split; intros j Hj; by rewrite list_lookup_insert_ne.
    + apply get_new_dev_None with (d := bt_dev_zero) in Hn.
      * by rewrite dev_found_zero in Hn.
      * apply list_elem_of_lookup. eauto.
Qed.

Lemma get_new_dev_spec_witness :
  bt_host_reset_dev sample_devs used_data 2
  = Some (<[2%nat := bt_dev_zero]> sample_devs,
          <[2%nat := bt_data_zero used_data_entry]> used_data,
          [CallAdapterInitBuffer 2])
  ∧ bt_host_get_new_dev esp32 sample_devs = Some 3%nat
  ∧ bt_host_get_new_dev esp32 (<[2%nat := bt_dev_zero]> sample_devs)
    = Some 2%nat
  ∧ (∃ e, (<[2%nat := bt_data_zero used_data_entry]> used_data) !! 2%nat
          = Some e
          ∧ bd_report_cnt e = 0 ∧ bd_flags e = 0
          ∧ bd_input e = zero_bytes 16
          ∧ bd_reports e = replicate 4 (mk_report 0 0)).
Proof.
  destruct (get_new_dev_spec esp32 sample_devs eq_refl)
    as (_ & _ & _ & Hreset).
  destruct (Hreset used_data 2%nat (sample_dev 2 1 13) used_data_entry
              eq_refl eq_refl)
    as (devs' & data' & evs & i & Hr & _ & _ & Hn & _ & Hi & _ & Hz & _).
  assert (devs' = <[2%nat := bt_dev_zero]> sample_devs
          ∧ data' = <[2%nat := bt_data_zero used_data_entry]> used_data)
    as [-> ->].
  { vm_compute in Hr. inversion Hr. split; reflexivity. }
  split; [reflexivity | split; [reflexivity | split]].
  - rewrite Hn. f_equal. apply Hi.
    intros [| [| j]] dj Hlt Hj; [| | lia];
      vm_compute in Hj; inversion Hj; reflexivity.
  - destruct Hz as (z & e & _ & _ & He & Hzero & _).
    exists e. split; [exact He |].
    vm_compute in He. inversion He. repeat split; reflexivity.
Defined.

(** ** Routing *)

(** C5.  For a packet that leaves reassembly as a complete frame, the
    handler adds to the reassembly log exactly the outcome of the first
    channel-id test that holds.  No session for the handle: the attribute
    handler of the config session exactly when the channel id is the
    attribute-protocol id, the "dev NULL" log line otherwise.  A session
    for the handle: the signaling handler if the id is the signaling id;
    failing that the SDP handler if it is one of the session's SDP ids;
    failing that the HID handler if it is the session's control or
    interrupt id; failing that nothing.  Never more than one handler. *)
Theorem acl_route_first_match P devs fs pkt len handle fs' log frame flen cid :
  pkt_acl_handle pkt = Some handle →
  acl_reassemble P fs pkt len = Some (fs', log, Some (frame, flen)) →
  pkt_l2cap_cid frame = Some cid →
  ∃ evs,
    bt_host_acl_hdlr P devs fs pkt len = Some (fs', log ++ evs)
    ∧ match bt_host_get_dev_from_handle P handle devs with
      | None =>
          (evs = [CallAttHdlr frame flen] ↔ cid = BT_L2CAP_CID_ATT P)
          ∧ (cid ≠ BT_L2CAP_CID_ATT P → evs = [LogDevNull])
      | Some slot =>
          ∃ d, devs !! slot = Some d
            ∧ (cid = BT_L2CAP_CID_BR_SIG P →
               evs = [CallL2capSigHdlr slot frame])
            ∧ (cid ≠ BT_L2CAP_CID_BR_SIG P →
               cid = scid (sdp_tx_chan d) ∨ cid = scid (sdp_rx_chan d) →
               evs = [CallSdpHdlr slot frame])
            ∧ (cid ≠ BT_L2CAP_CID_BR_SIG P →
               cid ≠ scid (sdp_tx_chan d) → cid ≠ scid (sdp_rx_chan d) →
               cid = scid (ctrl_chan d) ∨ cid = scid (intr_chan d) →
               evs = [CallHidHdlr slot frame])
            ∧ (cid ≠ BT_L2CAP_CID_BR_SIG P →
               cid ≠ scid (sdp_tx_chan d) → cid ≠ scid (sdp_rx_chan d) →
               cid ≠ scid (ctrl_chan d) → cid ≠ scid (intr_chan d) →
               evs = [])
      end.
Proof.
  intros Hh Hr Hc. unfold bt_host_acl_hdlr. rewrite Hh. simpl.
  rewrite Hr. simpl. unfold acl_route. rewrite Hc. simpl.
  destruct (bt_host_get_dev_from_handle P handle devs) as [slot |] eqn:Hd.
  - unfold bt_host_get_dev_from_handle in Hd.
    apply fmap_Some in Hd as [[slot' d] [Hf ->]].
    apply list_find_Some in Hf as (Hl & _ & _). simpl. rewrite Hl. simpl.
    repeat case_bool_decide; simpl; eexists; (split; [reflexivity |]);
      exists d; (split; [done |]); repeat split; intros;
      try done; try (by exfalso; intuition congruence).
  - case_bool_decide; eexists; (split; [reflexivity |]); split;
      try done; try (split; [done | congruence]).
Qed.

Lemma acl_route_first_match_witness :
  bt_host_acl_hdlr esp32 sample_devs frag_init (sample_frame 1) 9
  = Some (frag_init, [CallL2capSigHdlr 0 (sample_frame 1)]).
Proof.
  destruct (acl_route_first_match esp32 sample_devs frag_init
              (sample_frame 1) 9 8203 frag_init [] (sample_frame 1) 9 1
              eq_refl eq_refl eq_refl) as (evs & He & Hm).
  change (bt_host_get_dev_from_handle esp32 8203 sample_devs)
    with (Some 0%nat) in Hm.
  destruct Hm as (d & _ & Hsig & _).
  rewrite (Hsig eq_refl) in He. exact He.
Defined.

(** ** Transmit queue *)



Lemma test_set_ready f :
  atomic_test_bit (bt_host_tx_pkt_ready f) BT_CTRL_READY = true.
Proof.
  unfold atomic_test_bit, bt_host_tx_pkt_ready, atomic_set_bit, BT_CTRL_READY.
  rewrite Z.lor_spec. simpl. apply orb_true_r.
Qed.


Lemma byte_val_u8 z : byte_val (u8 z) = z mod 256.
Proof.
  unfold byte_val, u8. pose proof (Z.mod_pos_bound z 256 ltac:(lia)) as Hb.
  destruct (Byte.of_N (Z.to_N (z mod 256))) as [b |] eqn:E; simpl.
  - apply Byte.to_of_N in E. rewrite E. lia.
  - apply Byte.of_N_None_iff in E. lia.
Qed.

Lemma byte_val_nonneg b : 0 ≤ byte_val b.
Proof. unfold byte_val. lia. Qed.

Lemma txq_add_whole P txq p :
  bt_host_txq_add P txq p (Z.of_nat (length p))
  = if xRingbufferSend P txq p
    then Some (txq ++ [p], 0, []) else Some (txq, -1, [LogTxqFull]).
Proof.
  unfold bt_host_txq_add. rewrite bool_decide_eq_true_2 by lia.
  by rewrite Nat2Z.id, firstn_all.
Qed.

Lemma tx_task_delay P flags b1 rest txq :
  portTICK_PERIOD_MS P ≠ 0 →
  atomic_test_bit flags BT_CTRL_READY = true →
  bt_tx_task P flags ((xff :: b1 :: rest) :: txq)
  = Some (flags, txq, [CallVTaskDelay (byte_val b1 / portTICK_PERIOD_MS P)]).
Proof.
  intros Ht Hr. unfold bt_tx_task. rewrite Hr. simpl.
  repeat case_bool_decide; done.
Qed.


Lemma tx_step_total P flags txq a :
  portTICK_PERIOD_MS P ≠ 0 →
  Forall packet_ok txq → action_ok a →
  ∃ f q o, tx_step P flags txq a = Some (f, q, o) ∧ Forall packet_ok q.
Proof.
  intros Ht Hq Ha. destruct a as [| | p]; simpl.
  - unfold bt_tx_task.
    destruct (atomic_test_bit flags BT_CTRL_READY) eqn:Hr; [| eauto].
    destruct Hq as [| packet txq' Hp Hq']; [eauto |].
    destruct packet as [| b0 [| b1 rest]];
      [unfold packet_ok in Hp; simpl in Hp; lia
      | unfold packet_ok in Hp; simpl in Hp; lia |].
    simpl. case_bool_decide; simpl.
    + rewrite bool_decide_eq_false_2 by done. eauto.
    + eauto.
  - eauto.
  - rewrite txq_add_whole. destruct (xRingbufferSend P txq p); simpl.
    + do 3 eexists. split; [done |]. apply Forall_app. split; [done |].
      by constructor.
    + eauto.
Qed.




(** C9, as the code has it.  [bt_host_q_wait_pkt] queues the two bytes
    0xFF and [ms] converted to [uint8_t], whose value is [ms mod 256], and
    logs nothing about the lost bits (the only log line is the one for a
    full queue).  When the drain task reaches that marker it sends nothing
    and calls [vTaskDelay] with [(ms mod 256) / portTICK_PERIOD_MS] ticks,
    the quotient of an integer division.  With a positive tick period the
    time slept is therefore the largest multiple of the tick period that
    is not above [ms mod 256] milliseconds: it equals [ms mod 256] exactly
    when the tick period divides that number (always, when a tick is one
    millisecond), and is 0 when [ms mod 256] is below one tick.  For [ms]
    of 256 or more, [ms mod 256] is less than the delay asked for. *)
Theorem wait_pkt_truncates P txq ms flags rest :
  portTICK_PERIOD_MS P ≠ 0 →
  atomic_test_bit flags BT_CTRL_READY = true →
  bt_host_q_wait_pkt P txq ms
  = (if xRingbufferSend P txq [xff; u8 ms]
     then Some (txq ++ [[xff; u8 ms]], [])
     else Some (txq, [LogTxqFull]))
  ∧ byte_val (u8 ms) = ms mod 256
  ∧ bt_tx_task P flags ([xff; u8 ms] :: rest)
    = Some (flags, rest,
            [CallVTaskDelay ((ms mod 256) / portTICK_PERIOD_MS P)])
  ∧ (portTICK_PERIOD_MS P = 1 →
     bt_tx_task P flags ([xff; u8 ms] :: rest)
     = Some (flags, rest, [CallVTaskDelay (ms mod 256)]))
  ∧ (256 ≤ ms → ms mod 256 < ms)
  ∧ (0 < portTICK_PERIOD_MS P →
     (ms mod 256) / portTICK_PERIOD_MS P * portTICK_PERIOD_MS P
     ≤ ms mod 256
     < (ms mod 256) / portTICK_PERIOD_MS P * portTICK_PERIOD_MS P
       + portTICK_PERIOD_MS P
     ∧ ((ms mod 256) / portTICK_PERIOD_MS P * portTICK_PERIOD_MS P
        = ms mod 256
        ↔ (ms mod 256) mod portTICK_PERIOD_MS P = 0)
     ∧ (ms mod 256 < portTICK_PERIOD_MS P →
        (ms mod 256) / portTICK_PERIOD_MS P = 0)).
Proof.
  intros Ht Hr.
  split; [| split; [| split; [| split; [| split]]]].
  - unfold bt_host_q_wait_pkt.
    change 2 with (Z.of_nat (length [xff; u8 ms])).
    rewrite txq_add_whole. by destruct (xRingbufferSend P txq _).
  - apply byte_val_u8.
  - rewrite tx_task_delay by done. by rewrite byte_val_u8.
  - intros H1. rewrite tx_task_delay by done.
    by rewrite byte_val_u8, H1, Z.div_1_r.
  - intros Hms. pose proof (Z.mod_pos_bound ms 256 ltac:(lia)). lia.
  - intros Hpos.
    pose proof (Z.mod_pos_bound ms 256 eq_refl) as Hm.
    pose proof (Z.div_mod (ms mod 256) (portTICK_PERIOD_MS P) Ht) as Hdm.
    pose proof (Z.mod_pos_bound (ms mod 256) (portTICK_PERIOD_MS P) Hpos)
      as Hr'.
    split; [lia |]. split; [lia |].
    intros Hlt. apply Z.div_small. lia.
Qed.

(** The claim as the spec has it fails with the 10 ms tick of the ESP32:
    a request of 300 ms is queued as 44 and slept as 4 ticks, 40 ms, and a
    request of 261 ms is queued as 5 and slept as 0 ticks. *)
Lemma wait_pkt_delay_counterexample :
  portTICK_PERIOD_MS esp32 = 10
  ∧ bt_host_q_wait_pkt esp32 [] 300 = Some ([[xff; u8 300]], [])
  ∧ bt_tx_task esp32 1 [[xff; u8 300]] = Some (1, [], [CallVTaskDelay 4])
  ∧ 4 * portTICK_PERIOD_MS esp32 ≠ 300 mod 256
  ∧ bt_host_q_wait_pkt esp32 [] 261 = Some ([[xff; u8 261]], [])
  ∧ bt_tx_task esp32 1 [[xff; u8 261]] = Some (1, [], [CallVTaskDelay 0])
  ∧ 0 * portTICK_PERIOD_MS esp32 ≠ 261 mod 256.
Proof. repeat split; vm_compute; congruence. Qed.

Lemma wait_pkt_truncates_witness :
  bt_host_q_wait_pkt esp32 [] 300 = Some ([[xff; x2c]], [])
  ∧ bt_tx_task esp32 1 [[xff; x2c]] = Some (1, [], [CallVTaskDelay 4]).
Proof.
  assert (portTICK_PERIOD_MS esp32 ≠ 0) as Ht by (simpl; lia).
  destruct (wait_pkt_truncates esp32 [] 300 1 [] Ht eq_refl)
    as (Hq & _ & Hd & _ & _ & _).
  split; [exact Hq | exact Hd].
Defined.

(** ** Feedback relay *)

Lemma fb_task_at P devs data fb_data fb_len b0 d :
  fb_data !! 0%nat = Some b0 →
  devs !! Z.to_nat (byte_val b0) = Some d →
  bt_fb_task P devs data fb_data fb_len
  = match data_at data (dev_id d) with
    | None => FbDataOutOfRange (dev_id d)
    | Some e =>
        FbDone (<[Z.to_nat (dev_id d) := (adapter_bridge_fb P fb_data fb_len e).1]> data)
               (if (adapter_bridge_fb P fb_data fb_len e).2
                then [CallHidFeedback (Z.to_nat (byte_val b0))
                        (bd_output (adapter_bridge_fb P fb_data fb_len e).1)]
                else [])
    end.
Proof.
  intros H0 Hd. unfold bt_fb_task. rewrite H0, Hd.
  destruct (data_at data (dev_id d)) as [e |]; [| done].
  by destruct (adapter_bridge_fb P fb_data fb_len e).
Qed.

(** C10.  For a feedback item with first byte [b0] and the seven-slot
    table: the task reads [bt_dev[b0]] whatever [b0] is; that read stays
    inside the table exactly when [b0 < 7], and for [b0 >= 7] it is the
    out-of-range access.  When the read is inside the table, the session
    named in the feedback call is slot [b0], and the outcome is the same
    whatever the flag word of that session holds: the discovered bit is
    never looked at. *)
Theorem fb_task_index_unchecked P devs data fb_data fb_len b0 :
  length devs = BT_DEV_MAX →
  fb_data !! 0%nat = Some b0 →
  (byte_val b0 < 7 ↔
   ∀ index, bt_fb_task P devs data fb_data fb_len ≠ FbDevOutOfRange index)
  ∧ (7 ≤ byte_val b0 →
     bt_fb_task P devs data fb_data fb_len = FbDevOutOfRange (byte_val b0))
  ∧ (∀ data' evs slot output,
       bt_fb_task P devs data fb_data fb_len = FbDone data' evs →
       CallHidFeedback slot output ∈ evs →
       slot = Z.to_nat (byte_val b0))
  ∧ (∀ d flags,
       devs !! Z.to_nat (byte_val b0) = Some d →
       bt_fb_task P (<[Z.to_nat (byte_val b0) := set_dev_flags d flags]> devs)
         data fb_data fb_len
       = bt_fb_task P devs data fb_data fb_len).
Proof.
  intros Hlen H0. pose proof (byte_val_nonneg b0) as Hnn.
  assert (7 ≤ byte_val b0 →
          bt_fb_task P devs data fb_data fb_len
          = FbDevOutOfRange (byte_val b0)) as Hoob.
  { intros Hge. unfold bt_fb_task. rewrite H0.
    rewrite (lookup_ge_None_2 devs); [done |].
    rewrite Hlen. unfold BT_DEV_MAX. lia. }
  split; [| split; [| split]].
  - split.
    + intros Hlt index.
      destruct (lookup_lt_is_Some_2 devs (Z.to_nat (byte_val b0))) as [d Hd].
      { rewrite Hlen. unfold BT_DEV_MAX. lia. }
      rewrite (fb_task_at P devs data fb_data fb_len b0 d H0 Hd).
      by destruct (data_at data (dev_id d)).
    + intros Hne. destruct (decide (byte_val b0 < 7)) as [| Hge]; [done |].
      exfalso. apply (Hne (byte_val b0)). apply Hoob. lia.
  - exact Hoob.
  - intros data' evs slot output Hr Hin.
    destruct (devs !! Z.to_nat (byte_val b0)) as [d |] eqn:Hd.
    + rewrite (fb_task_at P devs data fb_data fb_len b0 d H0 Hd) in Hr.
      destruct (data_at data (dev_id d)) as [e |]; [| done].
      inversion Hr; subst. clear Hr.
      destruct ((adapter_bridge_fb P fb_data fb_len e).2).
      * apply list_elem_of_singleton in Hin. by inversion Hin.
      * by apply elem_of_nil in Hin.
    + unfold bt_fb_task in Hr. by rewrite H0, Hd in Hr.
  - intros d flags Hd.
    rewrite (fb_task_at P devs data fb_data fb_len b0 d H0 Hd).
    rewrite (fb_task_at P _ data fb_data fb_len b0 (set_dev_flags d flags) H0).
    + reflexivity.
    + apply list_lookup_insert_eq. by apply lookup_lt_Some in Hd.
Qed.

Lemma fb_task_index_unchecked_witness :
  bt_fb_task esp32 sample_devs sample_data [x05; x01] 2
  = FbDone sample_data [CallHidFeedback 5 (zero_bytes 16)]
  ∧ bt_fb_task esp32 sample_devs sample_data [x09; x01] 2
    = FbDevOutOfRange 9.
Proof.
  destruct (fb_task_index_unchecked esp32 sample_devs sample_data
              [x09; x01] 2 x09 eq_refl eq_refl) as (_ & Hoob & _).
  split; [reflexivity |]. apply Hoob. change (byte_val x09) with 9. lia.
Defined.

(** ** Bridge *)

Lemma bridge_resolve_None P d device report_id len :
  bridge_resolve P d device report_id len = None ↔
  dev_type device = HID_GENERIC P
  ∧ ∀ r, r ∈ take (REPORT_MAX P) (bd_reports d) → hr_id r ≠ report_id.
Proof.
  unfold bridge_resolve, find_report. case_bool_decide as Ht.
  - destruct (list_find _ _) as [[i r] |] eqn:Hf.
    + split; [done |]. intros [_ Hall]. exfalso.
      apply list_find_Some in Hf as (Hl & Hr & _).
      apply (Hall r); [| done]. apply list_elem_of_lookup. eauto.
    + split; [| done]. intros _. split; [done |].
      apply list_find_None in Hf. by apply list.Forall_forall.
  - split; [done |]. by intros [? _].
Qed.

(** A call that is not discarded is not discarded next time either: the
    report table is not written by the bridge path. *)
Lemma bridge_resolve_again P d e device report_id len d1 len1 :
  bridge_resolve P d device report_id len = Some (d1, len1) →
  bd_reports e = bd_reports d →
  ∃ e1, bridge_resolve P e device report_id len = Some (e1, len1)
        ∧ bd_flags e1 = bd_flags e
        ∧ bd_report_cnt e1 = bd_report_cnt e
        ∧ bd_reports e1 = bd_reports e
        ∧ bd_input e1 = bd_input e.
Proof.
  unfold bridge_resolve, find_report. intros Hr He. rewrite He.
  case_bool_decide.
  - destruct (list_find _ _) as [[i r] |]; [| done].
    inversion Hr; subst. eexists. split; [reflexivity |]. by simpl.
  - inversion Hr; subst. eexists. split; [reflexivity |]. done.
Qed.

Lemma bridge_quiet P data device report_id buf len d d1 len1 :
  data_at data (dev_id device) = Some d →
  bridge_resolve P d device report_id len = Some (d1, len1) →
  atomic_test_bit (bd_flags d1) (BT_INIT P) = false →
  bd_report_cnt d1 ≤ 1 →
  bt_host_bridge P data device report_id buf len
  = Some (<[Z.to_nat (dev_id device)
            := set_report_cnt d1 (u32 (bd_report_cnt d1 + 1))]> data, []).
Proof.
  intros Hd Hr Hf Hc. unfold bt_host_bridge. rewrite Hd. simpl.
  rewrite Hr, Hf. simpl. by rewrite bool_decide_eq_false_2 by lia.
Qed.

Lemma bridge_fires P data device report_id buf len d d1 len1 :
  data_at data (dev_id device) = Some d →
  bridge_resolve P d device report_id len = Some (d1, len1) →
  atomic_test_bit (bd_flags d1) (BT_INIT P) = true ∨ 1 < bd_report_cnt d1 →
  0 ≤ len1 ≤ Z.of_nat (length buf) →
  len1 ≤ Z.of_nat (length (bd_input d1)) →
  ∃ input,
    memcpy (bd_input d1) 0 buf len1 = Some input
    ∧ bt_host_bridge P data device report_id buf len
      = (let d2 := adapter_bridge P
                     (set_bridge_input d1 report_id (dev_id device)
                        (dev_type device) input) in
         Some (<[Z.to_nat (dev_id device)
                 := set_report_cnt d2 (u32 (bd_report_cnt d2 + 1))]> data,
               [CallAdapterBridge (dev_id device)])).
Proof.
  intros Hd Hr Hf Hb1 Hb2. unfold bt_host_bridge. rewrite Hd. simpl.
  rewrite Hr.
  assert (atomic_test_bit (bd_flags d1) (BT_INIT P)
          || bool_decide (1 < bd_report_cnt d1) = true) as ->.
  { destruct Hf as [-> | Hf]; [done |].
    rewrite (bool_decide_eq_true_2 _ Hf). apply orb_true_r. }
  unfold memcpy. rewrite bool_decide_eq_true_2 by lia. simpl. eauto.
Qed.

Lemma bridge_resolve_fields P d device report_id len d1 len1 :
  bridge_resolve P d device report_id len = Some (d1, len1) →
  bd_flags d1 = bd_flags d
  ∧ bd_report_cnt d1 = bd_report_cnt d
  ∧ bd_reports d1 = bd_reports d
  ∧ bd_input d1 = bd_input d.
Proof.
  intros Hr.
  destruct (bridge_resolve_again P d d device report_id len d1 len1 Hr eq_refl)
    as (e1 & He & H). rewrite Hr in He. by inversion He; subst.
Qed.

(** C2, as the code has it.  For a session whose entry is not marked
    initialised and has report counter 0, and for input that is not
    discarded and fits the input buffer: the first call does not reach the
    adapter bridge and leaves the counter at 1; the second call (counter 1)
    does not reach it either and leaves the counter at 2; the third call
    (counter 2) reaches it.  The test in the code is [report_cnt > 1]. *)
Theorem bridge_bootstrap P data device report_id buf len d d1 len1 :
  data_at data (dev_id device) = Some d →
  bridge_resolve P d device report_id len = Some (d1, len1) →
  atomic_test_bit (bd_flags d) (BT_INIT P) = false →
  bd_report_cnt d = 0 →
  0 ≤ len1 ≤ Z.of_nat (length buf) →
  len1 ≤ Z.of_nat (length (bd_input d)) →
  ∃ data1 e1 data2 e2 data3,
    bt_host_bridge P data device report_id buf len = Some (data1, [])
    ∧ data_at data1 (dev_id device) = Some e1
    ∧ bd_report_cnt e1 = 1
    ∧ atomic_test_bit (bd_flags e1) (BT_INIT P) = false
    ∧ bt_host_bridge P data1 device report_id buf len = Some (data2, [])
    ∧ data_at data2 (dev_id device) = Some e2
    ∧ bd_report_cnt e2 = 2
    ∧ bt_host_bridge P data2 device report_id buf len
      = Some (data3, [CallAdapterBridge (dev_id device)]).
Proof.
  intros Hd Hr Hf Hc Hb1 Hb2.
  destruct (bridge_resolve_fields _ _ _ _ _ _ _ Hr) as (F1 & C1 & R1 & I1).
  (* first call *)
  pose proof (bridge_quiet P data device report_id buf len d d1 len1 Hd Hr
                ltac:(by rewrite F1) ltac:(lia)) as Call1.
  set (e1 := set_report_cnt d1 (u32 (bd_report_cnt d1 + 1))) in *.
  set (data1 := <[Z.to_nat (dev_id device) := e1]> data) in *.
  assert (data_at data1 (dev_id device) = Some e1) as Hd1
    by by eapply data_at_insert.
  assert (bd_report_cnt e1 = 1) as Hc1.
  { subst e1. simpl. rewrite C1, Hc. reflexivity. }
  (* second call *)
  destruct (bridge_resolve_again P d e1 device report_id len d1 len1 Hr)
    as (e1' & Hr1 & F1' & C1' & R1' & I1'); [by subst e1 |].
  pose proof (bridge_quiet P data1 device report_id buf len e1 e1' len1
                Hd1 Hr1) as Call2.
  rewrite F1', C1', Hc1 in Call2. subst e1. simpl in Call2.
  rewrite F1 in Call2. specialize (Call2 Hf ltac:(lia)).
  set (e1 := set_report_cnt d1 (u32 (bd_report_cnt d1 + 1))) in *.
  set (e2 := set_report_cnt e1' (u32 (1 + 1))) in *.
  set (data2 := <[Z.to_nat (dev_id device) := e2]> data1) in *.
  assert (data_at data2 (dev_id device) = Some e2) as Hd2
    by by eapply data_at_insert.
  (* third call *)
  destruct (bridge_resolve_again P d e2 device report_id len d1 len1 Hr)
    as (e2' & Hr2 & F2' & C2' & R2' & I2').
  { subst e2. simpl. rewrite R1'. by subst e1. }
  destruct (bridge_fires P data2 device report_id buf len e2 e2' len1
              Hd2 Hr2) as (input & _ & Call3).
  { right. rewrite C2'. subst e2. simpl. reflexivity. }
  { done. }
  { rewrite I2'. subst e2. simpl. rewrite I1'. subst e1. simpl.
    by rewrite I1. }
  exists data1, e1, data2, e2. eexists. repeat split.
  - exact Call1.
  - exact Hd1.
  - exact Hc1.
  - subst e1. simpl. by rewrite F1.
  - exact Call2.
  - exact Hd2.
  - exact Call3.
Qed.

(** The second call of the scenario in the spec: counter at 1, entry not
    initialised.  The adapter bridge is not reached. *)
Lemma bridge_second_call_counterexample :
  ∃ data1 data2,
    bt_host_bridge esp32 sample_data (sample_dev 0 1 11) 1 sample_payload 4
    = Some (data1, [])
    ∧ bd_report_cnt <$> data_at data1 0 = Some 1
    ∧ (fun e => atomic_test_bit (bd_flags e) (BT_INIT esp32))
        <$> data_at data1 0 = Some false
    ∧ bt_host_bridge esp32 data1 (sample_dev 0 1 11) 1 sample_payload 4
      = Some (data2, [])
    ∧ bridge_fired [] = false.
Proof. do 2 eexists. repeat split; vm_compute; reflexivity. Qed.

Lemma bridge_bootstrap_witness :
  ∃ data1 data2 data3,
    bt_host_bridge esp32 sample_data (sample_dev 0 1 11) 1 sample_payload 4
    = Some (data1, [])
    ∧ bt_host_bridge esp32 data1 (sample_dev 0 1 11) 1 sample_payload 4
      = Some (data2, [])
    ∧ bt_host_bridge esp32 data2 (sample_dev 0 1 11) 1 sample_payload 4
      = Some (data3, [CallAdapterBridge 0]).
Proof.
  destruct (bridge_bootstrap esp32 sample_data (sample_dev 0 1 11) 1
              sample_payload 4 (sample_data_entry 0) (sample_data_entry 0) 4
              eq_refl eq_refl eq_refl eq_refl)
    as (data1 & e1 & data2 & e2 & data3 & C1 & _ & _ & _ & C2 & _ & _ & C3).
  - simpl. lia.
  - simpl. lia.
  - exists data1, data2, data3. repeat split; assumption.
Defined.

(** C8, as the code has it.  Provided the adapter bridge leaves the report
    counter alone: (1) for a session of the generic HID type, input whose
    report id is in none of the [REPORT_MAX] rows of the report table is
    discarded: nothing is written, the adapter bridge is not reached, and
    the counter is not incremented; that is the only discarded input;
    (2) on every call that is not discarded, and whose copy fits the
    buffers, the counter goes up by exactly one (as [uint32_t]), whether the
    adapter bridge was reached (entry initialised, or counter above 1) or
    not. *)
Theorem bridge_report_counter P data device report_id buf len d :
  data_at data (dev_id device) = Some d →
  (∀ x, bd_report_cnt (adapter_bridge P x) = bd_report_cnt x) →
  (dev_type device = HID_GENERIC P →
   (∀ r, r ∈ take (REPORT_MAX P) (bd_reports d) → hr_id r ≠ report_id) →
   bt_host_bridge P data device report_id buf len = Some (data, []))
  ∧ (bridge_resolve P d device report_id len = None ↔
     dev_type device = HID_GENERIC P
     ∧ ∀ r, r ∈ take (REPORT_MAX P) (bd_reports d) → hr_id r ≠ report_id)
  ∧ (∀ d1 len1,
       bridge_resolve P d device report_id len = Some (d1, len1) →
       0 ≤ len1 ≤ Z.of_nat (length buf) →
       len1 ≤ Z.of_nat (length (bd_input d)) →
       ∃ data' evs e,
         bt_host_bridge P data device report_id buf len = Some (data', evs)
         ∧ data_at data' (dev_id device) = Some e
         ∧ bd_report_cnt e = u32 (bd_report_cnt d + 1)
         ∧ (0 ≤ bd_report_cnt d < 2 ^ 32 - 1 →
            bd_report_cnt e = bd_report_cnt d + 1)
         ∧ (bridge_fired evs = true ↔
            atomic_test_bit (bd_flags d) (BT_INIT P) = true
            ∨ 1 < bd_report_cnt d)).
Proof.
  intros Hd Hab. split; [| split].
  - intros Ht Hall. unfold bt_host_bridge. rewrite Hd. simpl.
    by rewrite (proj2 (bridge_resolve_None P d device report_id len)).
  - apply bridge_resolve_None.
  - intros d1 len1 Hr Hb1 Hb2.
    destruct (bridge_resolve_fields _ _ _ _ _ _ _ Hr) as (F1 & C1 & R1 & I1).
    assert (∀ c, 0 ≤ c < 2 ^ 32 - 1 → u32 (c + 1) = c + 1) as Hsmall.
    { intros c Hc. unfold u32. apply Z.mod_small. lia. }
    destruct (atomic_test_bit (bd_flags d) (BT_INIT P)) eqn:Hf.
    + destruct (bridge_fires P data device report_id buf len d d1 len1 Hd Hr)
        as (input & _ & Call); [left; by rewrite F1 | done | by rewrite I1 |].
      simpl in Call. do 3 eexists. split; [exact Call |].
      split; [by eapply data_at_insert |]. simpl. rewrite Hab. simpl.
      rewrite C1. repeat split; auto.
    + destruct (decide (1 < bd_report_cnt d)) as [Hgt | Hle].
      * destruct (bridge_fires P data device report_id buf len d d1 len1 Hd Hr)
          as (input & _ & Call);
          [right; by rewrite C1 | done | by rewrite I1 |].
        simpl in Call. do 3 eexists. split; [exact Call |].
        split; [by eapply data_at_insert |]. simpl. rewrite Hab. simpl.
        rewrite C1. repeat split; auto.
      * pose proof (bridge_quiet P data device report_id buf len d d1 len1
                      Hd Hr ltac:(by rewrite F1) ltac:(lia)) as Call.
        do 3 eexists. split; [exact Call |].
        split; [by eapply data_at_insert |]. simpl. rewrite C1.
        repeat split; auto. intros [? | ?]; [done | lia].
Qed.

(** A call for a generic HID session with a report id that is not in its
    table: the call returns before the increment and the counter stays
    at 0. *)
Lemma bridge_discard_counterexample :
  bt_host_bridge esp32 sample_data sample_generic_dev 9 sample_payload 4
  = Some (sample_data, [])
  ∧ bd_report_cnt <$> data_at sample_data (dev_id sample_generic_dev)
    = Some 0.
Proof. split; vm_compute; reflexivity. Qed.

Lemma bridge_report_counter_witness :
  (∃ data' e,
     bt_host_bridge esp32 sample_data sample_generic_dev 2 sample_payload 4
     = Some (data', [])
     ∧ data_at data' 0 = Some e ∧ bd_report_cnt e = 1)
  ∧ bt_host_bridge esp32 sample_data sample_generic_dev 9 sample_payload 4
    = Some (sample_data, []).
Proof.
  destruct (bridge_report_counter esp32 sample_data sample_generic_dev 2
              sample_payload 4 (sample_data_entry 0) eq_refl
              (fun x => eq_refl)) as (_ & _ & Hinc).
  destruct (bridge_report_counter esp32 sample_data sample_generic_dev 9
              sample_payload 4 (sample_data_entry 0) eq_refl
              (fun x => eq_refl)) as (Hdis & _ & _).
  split.
  - destruct (Hinc (set_report_type (sample_data_entry 0) 1) 2 eq_refl)
      as (data' & evs & e & Call & He & Hc & _ & Hfire).
    + simpl. lia.
    + simpl. lia.
    + exists data', e. destruct evs as [| ev evs].
      * repeat split; assumption.
      * exfalso. vm_compute in Call. inversion Call.
  - apply Hdis; [reflexivity |].
    apply list.Forall_forall. apply (bool_decide_unpack _). vm_compute.
    exact I.
Defined.

(** ** ACL reassembly *)

Lemma byte_val_bound b : 0 ≤ byte_val b < 256.
Proof. unfold byte_val. pose proof (Byte.to_N_bounded b). lia. Qed.

Lemma rd16_app_l l1 l2 off :
  (S off < length l1)%nat → rd16 (l1 ++ l2) off = rd16 l1 off.
Proof. intros H. unfold rd16. by rewrite !lookup_app_l by lia. Qed.

Lemma rd16_bound buf off v : rd16 buf off = Some v → 0 ≤ v < 65536.
Proof.
  unfold rd16. destruct (buf !! off) as [lo |]; [| done].
  destruct (buf !! S off) as [hi |]; [| done]. simpl. intros [= <-].
  pose proof (byte_val_bound lo). pose proof (byte_val_bound hi). lia.
Qed.

Lemma rd16_length buf off v : rd16 buf off = Some v → (S off < length buf)%nat.
Proof.
  unfold rd16. destruct (buf !! off) as [lo |]; [| done].
  destruct (buf !! S off) as [hi |] eqn:E; [| done]. intros _.
  by apply lookup_lt_Some in E.
Qed.

Lemma memcpy_app acc rest src :
  (length src ≤ length rest)%nat →
  memcpy (acc ++ rest) (Z.of_nat (length acc)) src (Z.of_nat (length src))
  = Some (acc ++ src ++ drop (length src) rest).
Proof.
  intros H. unfold memcpy.
  rewrite bool_decide_eq_true_2 by (rewrite length_app; lia).
  rewrite <- Nat2Z.inj_add, !Nat2Z.id.
  by rewrite take_app_length, firstn_all, drop_app_add.
Qed.

Lemma memcpy_start buf p :
  (length p ≤ length buf)%nat →
  memcpy buf 0 p (Z.of_nat (length p)) = Some (p ++ drop (length p) buf).
Proof. intros H. apply (memcpy_app [] buf p H). Qed.

Lemma reasm_start P fs p L :
  BT_ACL_START P ≠ BT_ACL_CONT P →
  start_fragment P p L →
  (length p ≤ length (frag_buf fs))%nat →
  acl_reassemble P fs p (Z.of_nat (length p))
  = Some (mk_frag (L + 9) (Z.of_nat (length p))
            (p ++ drop (length p) (frag_buf fs)),
          [LogFragStart], None).
Proof.
  intros Hne ((h & Hh & Hf) & HL & H9 & Hshort) Hfit.
  pose proof (rd16_bound _ _ _ HL) as HLb.
  unfold acl_reassemble. rewrite Hh. simpl.
  rewrite bool_decide_eq_false_2 by congruence. simpl.
  rewrite Hh. simpl. rewrite bool_decide_eq_true_2 by done.
  rewrite HL. simpl.
  change (BT_HCI_H4_HDR_SIZE + BT_HCI_ACL_HDR_SIZE + sizeof_bt_l2cap_hdr)
    with 9.
  unfold u32. rewrite (Z.mod_small (_ - 9)) by lia.
  rewrite bool_decide_eq_true_2 by done.
  rewrite memcpy_start by done. simpl.
  by rewrite Z.mod_small by lia.
Qed.

Lemma cont_fragment_len P c :
  cont_fragment P c →
  Z.of_nat (length (cont_payload c)) < 65536.
Proof. intros [_ Hl]. apply rd16_bound in Hl. lia. Qed.

Lemma reasm_cont_short P T acc rest c :
  cont_fragment P c →
  (length (cont_payload c) ≤ length rest)%nat →
  Z.of_nat (length acc + length (cont_payload c)) < T →
  T < 2 ^ 32 →
  acl_reassemble P (mk_frag T (Z.of_nat (length acc)) (acc ++ rest)) c
    (Z.of_nat (length c))
  = Some (mk_frag T (Z.of_nat (length acc + length (cont_payload c)))
            (acc ++ cont_payload c ++ drop (length (cont_payload c)) rest),
          [LogWaitFragment
             (Z.of_nat (length acc + length (cont_payload c))) T],
          None).
Proof.
  intros [(h & Hh & Hf) Hl] Hfit Hshort HT.
  unfold acl_reassemble. rewrite Hh. simpl.
  rewrite bool_decide_eq_true_2 by done. rewrite Hl. simpl.
  change (Z.to_nat (BT_HCI_H4_HDR_SIZE + BT_HCI_ACL_HDR_SIZE)) with 5%nat.
  fold (cont_payload c). rewrite memcpy_app by done. simpl.
  unfold u32. rewrite <- Nat2Z.inj_add. rewrite Z.mod_small by lia.
  by rewrite bool_decide_eq_true_2 by done.
Qed.

Lemma reasm_cont_final P start L x rest c :
  start_fragment P start L →
  cont_fragment P c →
  (length (cont_payload c) ≤ length rest)%nat →
  Z.of_nat (length (start ++ x) + length (cont_payload c)) = L + 9 →
  let buf := (start ++ x) ++ cont_payload c
               ++ drop (length (cont_payload c)) rest in
  acl_reassemble P
    (mk_frag (L + 9) (Z.of_nat (length (start ++ x))) ((start ++ x) ++ rest))
    c (Z.of_nat (length c))
  = Some (mk_frag (L + 9) (L + 9) buf,
          [LogReassembled (L + 9) (L + 9)], Some (buf, L + 9)).
Proof.
  intros ((hs & Hhs & Hfs) & HL & H9 & Hshort) [(h & Hh & Hf) Hl] Hfit Hsum.
  pose proof (rd16_bound _ _ _ HL) as HLb. intros buf.
  unfold acl_reassemble. rewrite Hh. simpl.
  rewrite bool_decide_eq_true_2 by done. rewrite Hl. simpl.
  change (Z.to_nat (BT_HCI_H4_HDR_SIZE + BT_HCI_ACL_HDR_SIZE)) with 5%nat.
  fold (cont_payload c). rewrite memcpy_app by done. simpl.
  fold buf.
  unfold u32. rewrite <- Nat2Z.inj_add, Hsum. rewrite Z.mod_small by lia.
  rewrite bool_decide_eq_false_2 by lia. simpl.
  assert (pkt_acl_handle buf = Some hs) as ->.
  { unfold pkt_acl_handle, buf. rewrite <- !app_assoc.
    rewrite rd16_app_l by lia. exact Hhs. }
  simpl. rewrite bool_decide_eq_true_2 by done.
  assert (pkt_l2cap_len buf = Some L) as ->.
  { unfold pkt_l2cap_len, buf. rewrite <- !app_assoc.
    rewrite rd16_app_l by lia. exact HL. }
  simpl.
  change (BT_HCI_H4_HDR_SIZE + BT_HCI_ACL_HDR_SIZE + sizeof_bt_l2cap_hdr)
    with 9.
  replace (L + 9 - 9) with L by lia. rewrite Z.mod_small by lia.
  by rewrite bool_decide_eq_false_2 by lia.
Qed.

Lemma reasm_conts P start L :
  start_fragment P start L →
  ∀ conts x rest last,
    Forall (cont_fragment P) conts → cont_fragment P last →
    (0 < length (cont_payload last))%nat →
    Z.of_nat (length (start ++ x)
              + length (concat (cont_payload <$> (conts ++ [last]))))
    = L + 9 →
    (length (concat (cont_payload <$> (conts ++ [last]))) ≤ length rest)%nat →
    let buf := (start ++ x) ++ concat (cont_payload <$> (conts ++ [last]))
               ++ drop (length (concat (cont_payload <$> (conts ++ [last]))))
                       rest in
    reassemble_all P
      (mk_frag (L + 9) (Z.of_nat (length (start ++ x))) ((start ++ x) ++ rest))
      (conts ++ [last])
    = Some (mk_frag (L + 9) (L + 9) buf,
            replicate (length conts) None ++ [Some (buf, L + 9)]).
Proof.
  intros Hstart conts.
  pose proof Hstart as (_ & HL & _ & _). apply rd16_bound in HL.
  induction conts as [| c cs IH]; intros x rest last Hcs Hlast Hpos Hsum Hfit.
  - simpl in *. rewrite app_nil_r in *.
    rewrite (reasm_cont_final P start L x rest last) by done. done.
  - inversion Hcs as [| ? ? Hc Hcs']; subst.
    change ((c :: cs) ++ [last]) with (c :: (cs ++ [last])) in *.
    rewrite fmap_cons, concat_cons in Hsum, Hfit |- *.
    rewrite (length_app (cont_payload c)) in Hsum, Hfit |- *.
    assert (0 < length (concat (cont_payload <$> (cs ++ [last]))))%nat as Hp.
    { rewrite fmap_app, concat_app, length_app. simpl.
      rewrite app_nil_r. lia. }
    cbn [reassemble_all].
    rewrite (reasm_cont_short P (L + 9) (start ++ x) rest c) by (try done; lia).
    cbn [mbind option_bind].
    replace ((start ++ x) ++ cont_payload c
             ++ drop (length (cont_payload c)) rest)
      with ((start ++ (x ++ cont_payload c))
            ++ drop (length (cont_payload c)) rest)
      by by rewrite <- !app_assoc.
    replace (length (start ++ x) + length (cont_payload c))%nat
      with (length (start ++ (x ++ cont_payload c)))
      by (rewrite !length_app; lia).
    rewrite (IH (x ++ cont_payload c) (drop (length (cont_payload c)) rest)
               last Hcs' Hlast Hpos).
    + cbn [mbind option_bind length replicate app].
      rewrite drop_drop. by rewrite <- !app_assoc.
    + rewrite <- Hsum. rewrite !length_app. lia.
    + rewrite length_drop. lia.
Qed.

Lemma reasm_complete P fs p len h :
  pkt_acl_handle p = Some h →
  bt_acl_flags P h ≠ BT_ACL_CONT P →
  (bt_acl_flags P h ≠ BT_ACL_START P
   ∨ ∃ Lp, pkt_l2cap_len p = Some Lp ∧ Lp ≤ u32 (len - 9)) →
  acl_reassemble P fs p len = Some (fs, [], Some (p, len)).
Proof.
  intros Hh Hnc Hwhole. unfold acl_reassemble. rewrite Hh. simpl.
  rewrite bool_decide_eq_false_2 by done. simpl. rewrite Hh. simpl.
  destruct Hwhole as [Hns | (Lp & HL & Hle)].
  - by rewrite bool_decide_eq_false_2 by done.
  - case_bool_decide; [| done]. rewrite HL. simpl.
    change (BT_HCI_H4_HDR_SIZE + BT_HCI_ACL_HDR_SIZE + sizeof_bt_l2cap_hdr)
      with 9.
    by rewrite bool_decide_eq_false_2 by lia.
Qed.










(** * The rest of the code *)

(** ** Link keys: invariant, capacity, persistence *)

Lemma load_step_other acc r :
  lkn_bdaddr r ≠ lkr_bdaddr acc.1 → load_step acc r = acc.
Proof.
  destruct acc as [reply ret]. simpl. intros H.
  rewrite bool_decide_eq_false_2; [done | congruence].
Qed.

Lemma load_step_bdaddr acc r : lkr_bdaddr (load_step acc r).1 = lkr_bdaddr acc.1.
Proof. destruct acc as [reply ret]. simpl. by case_bool_decide. Qed.

Lemma load_fold_insert recs : ∀ j old n acc,
  recs !! j = Some old →
  lkn_bdaddr old ≠ lkr_bdaddr acc.1 →
  lkn_bdaddr n ≠ lkr_bdaddr acc.1 →
  foldl load_step acc (<[j := n]> recs) = foldl load_step acc recs.
Proof.
  induction recs as [| r recs IH]; intros j old n acc Hj Ho Hn; [done |].
  destruct j as [| j]; simpl in *.
  - inversion Hj; subst. by rewrite !load_step_other.
  - apply (IH j old n); [done | by rewrite load_step_bdaddr ..].
Qed.

(** The slot a store writes. *)
Lemma store_link_key_slot sd keys n sd' keys' ret :
  link_keys_ok keys →
  bt_host_store_link_key sd keys n = Some (sd', keys', ret) →
  ∃ j old,
    lk_link_keys keys !! j = Some old
    ∧ lk_link_keys keys' = <[j := n]> (lk_link_keys keys)
    ∧ ((lkn_bdaddr old = lkn_bdaddr n)
       ∨ ((∀ r, r ∈ lk_link_keys keys → lkn_bdaddr r ≠ lkn_bdaddr n)
          ∧ Z.of_nat j = lk_index keys)).
Proof.
  intros Hok Hs. pose proof Hok as [Hlen Hc].
  destruct (last_match_dec (lkn_bdaddr n) (lk_link_keys keys)) as [Ha | [j Hj]].
  - destruct (store_link_key_absent sd keys n Hok Ha) as (sd1 & r1 & E).
    rewrite E in Hs. inversion Hs; subst. simpl.
    destruct (lookup_lt_is_Some_2 (lk_link_keys keys)
                (Z.to_nat (lk_index keys)) ltac:(lia)) as [old Hold].
    exists (Z.to_nat (lk_index keys)), old. repeat split; try done.
    right. split; [done | lia].
  - destruct (store_link_key_found sd keys n j Hok Hj) as (sd1 & r1 & E).
    rewrite E in Hs. inversion Hs; subst. simpl.
    destruct Hj as [(old & Hold & Ha) _]. exists j, old. auto.
Qed.

Lemma ring_slot_lt c k : (ring_slot c k < 16)%nat.
Proof. unfold ring_slot. pose proof (Z.mod_pos_bound (c + Z.of_nat k) 16). lia. Qed.

Lemma ring_slot_0 c : 0 ≤ c < 16 → ring_slot c 0 = Z.to_nat c.
Proof. intros H. unfold ring_slot. rewrite Z.add_0_r, Z.mod_small; lia. Qed.

Lemma ring_slot_S c k : ring_slot ((c + 1) mod 16) k = ring_slot c (S k).
Proof.
  unfold ring_slot. f_equal. rewrite Zplus_mod_idemp_l. f_equal. lia.
Qed.

Lemma ring_slot_ne_0 c k :
  0 ≤ c < 16 → (k < 15)%nat → ring_slot c (S k) ≠ Z.to_nat c.
Proof.
  intros Hc Hk. unfold ring_slot. intros E.
  assert ((c + Z.of_nat (S k)) mod 16 = c) as E' .
  { pose proof (Z.mod_pos_bound (c + Z.of_nat (S k)) 16). lia. }
  clear E. revert E'. Z.div_mod_to_equations. lia.
Qed.

Lemma ring_slot_surj c j :
  0 ≤ c < 16 → (j < 16)%nat → ∃ k, (k < 16)%nat ∧ ring_slot c k = j.
Proof.
  intros Hc Hj. exists (Z.to_nat ((Z.of_nat j - c) mod 16)). split.
  - pose proof (Z.mod_pos_bound (Z.of_nat j - c) 16). lia.
  - unfold ring_slot. pose proof (Z.mod_pos_bound (Z.of_nat j - c) 16).
    rewrite Z2Nat.id by lia. rewrite Zplus_mod_idemp_r.
    replace (c + (Z.of_nat j - c)) with (Z.of_nat j) by lia.
    rewrite Z.mod_small by lia. lia.
Qed.

(** Storing fresh, pairwise different addresses: they go to consecutive
    slots from the cursor on, and nothing else is touched. *)
Lemma store_all_fresh l : ∀ sd keys,
  link_keys_ok keys →
  (length l ≤ 16)%nat →
  NoDup (lkn_bdaddr <$> l) →
  (∀ n r, n ∈ l → r ∈ lk_link_keys keys → lkn_bdaddr r ≠ lkn_bdaddr n) →
  ∃ sd' keys',
    store_all sd keys l = Some (sd', keys')
    ∧ link_keys_ok keys'
    ∧ lk_index keys' = (lk_index keys + Z.of_nat (length l)) mod 16
    ∧ (∀ k n, l !! k = Some n →
              lk_link_keys keys' !! ring_slot (lk_index keys) k = Some n)
    ∧ (∀ j, (∀ k, (k < length l)%nat → j ≠ ring_slot (lk_index keys) k) →
            lk_link_keys keys' !! j = lk_link_keys keys !! j).
Proof.
  induction l as [| n l IH]; intros sd keys Hok Hlen Hnd Hfresh.
  - exists sd, keys. split; [reflexivity |]. split; [done |].
    split; [| split].
    + destruct Hok as [_ Hc]. change (Z.of_nat (length [])) with 0.
      rewrite Z.add_0_r, Z.mod_small; lia.
    + intros k n Hk. by rewrite lookup_nil in Hk.
    + done.
  - pose proof Hok as [Hl Hc]. simpl in Hlen.
    rewrite fmap_cons in Hnd. apply list.NoDup_cons in Hnd as [Hnotin Hnd].
    destruct (store_link_key_absent sd keys n Hok) as (sd1 & r1 & E).
    { intros r Hr. apply (Hfresh n r); [by left | done]. }
    set (keys1 := mk_link_keys ((lk_index keys + 1) mod 16)
                    (<[Z.to_nat (lk_index keys) := n]> (lk_link_keys keys))) in *.
    assert (link_keys_ok keys1) as Hok1 by by eapply store_link_key_ok.
    destruct (IH sd1 keys1 Hok1 ltac:(lia) Hnd)
      as (sd' & keys' & Hrun & Hok' & Hidx & Hpos & Hoth).
    { intros n' r Hn' Hr. simpl in Hr.
      apply list_elem_of_lookup in Hr as [j Hj].
      apply list_lookup_insert_Some in Hj as [(_ & <- & _) | (_ & Hj)].
      - intros Eq. apply Hnotin. rewrite Eq.
        apply list_elem_of_fmap. by exists n'.
      - apply (Hfresh n' r); [by right |].
        apply list_elem_of_lookup. eauto. }
    exists sd', keys'. simpl in Hidx, Hpos, Hoth.
    split; [| split; [done | split; [| split]]].
    + simpl. rewrite E. simpl. exact Hrun.
    + rewrite Hidx. rewrite Zplus_mod_idemp_l. f_equal. simpl length. lia.
    + intros [| k] n' Hk; simpl in Hk.
      * inversion Hk; subst. rewrite ring_slot_0 by done.
        rewrite Hoth.
        -- apply list_lookup_insert_eq. lia.
        -- intros k Hklt. rewrite ring_slot_S. symmetry.
           apply ring_slot_ne_0; [done | lia].
      * rewrite <- ring_slot_S. by apply Hpos.
    + intros j Hj. rewrite Hoth.
      * apply list_lookup_insert_ne. specialize (Hj 0%nat ltac:(simpl; lia)).
        rewrite ring_slot_0 in Hj by done. done.
      * intros k Hklt. rewrite ring_slot_S. apply Hj. simpl. lia.
Qed.

(** After fresh stores every record of the ring is a stored one or an old
    one. *)
Lemma store_all_fresh_elem l sd keys sd' keys' r :
  link_keys_ok keys → (length l ≤ 16)%nat → NoDup (lkn_bdaddr <$> l) →
  (∀ n r, n ∈ l → r ∈ lk_link_keys keys → lkn_bdaddr r ≠ lkn_bdaddr n) →
  store_all sd keys l = Some (sd', keys') →
  r ∈ lk_link_keys keys' →
  r ∈ l ∨ (r ∈ lk_link_keys keys ∧ (length l < 16)%nat).
Proof.
  intros Hok Hlen Hnd Hfresh Hrun Hr.
  destruct (store_all_fresh l sd keys Hok Hlen Hnd Hfresh)
    as (sd2 & keys2 & Hrun2 & Hok2 & _ & Hpos & Hoth).
  rewrite Hrun in Hrun2. inversion Hrun2; subst. clear Hrun2.
  apply list_elem_of_lookup in Hr as [j Hj].
  pose proof (lookup_lt_Some _ _ _ Hj) as Hjl.
  destruct Hok2 as [Hl2 _]. destruct Hok as [Hl Hc].
  destruct (ring_slot_surj (lk_index keys) j Hc ltac:(lia)) as (k & Hk & <-).
  destruct (decide (k < length l)%nat) as [Hkl | Hkl].
  - destruct (lookup_lt_is_Some_2 l k Hkl) as [n Hn].
    rewrite (Hpos k n Hn) in Hj. inversion Hj; subst.
    left. apply list_elem_of_lookup. eauto.
  - right. split; [| lia]. rewrite Hoth in Hj.
    + apply list_elem_of_lookup. eauto.
    + intros k' Hk' Eq. unfold ring_slot in Eq.
      pose proof (Z.mod_pos_bound (lk_index keys + Z.of_nat k) 16).
      pose proof (Z.mod_pos_bound (lk_index keys + Z.of_nat k') 16).
      assert ((lk_index keys + Z.of_nat k) mod 16
              = (lk_index keys + Z.of_nat k') mod 16) as Eq' by lia.
      clear Eq. revert Eq'. Z.div_mod_to_equations. lia.
Qed.

Lemma NoDup_fmap_elem {A B} (f : A → B) (l : list A) x y :
  NoDup (f <$> l) → x ∈ l → y ∈ l → f x = f y → x = y.
Proof.
  intros Hnd Hx Hy Hf.
  apply list_elem_of_lookup in Hx as [i Hi].
  apply list_elem_of_lookup in Hy as [j Hj].
  assert (i = j) as ->.
  { eapply NoDup_lookup; [exact Hnd | |].
    - rewrite list_lookup_fmap, Hi. reflexivity.
    - rewrite list_lookup_fmap, Hj. simpl. by rewrite Hf. }
  congruence.
Qed.

Lemma store_all_fresh_lookup l sd keys sd' keys' n key0 :
  link_keys_ok keys → (length l ≤ 16)%nat → NoDup (lkn_bdaddr <$> l) →
  (∀ n r, n ∈ l → r ∈ lk_link_keys keys → lkn_bdaddr r ≠ lkn_bdaddr n) →
  store_all sd keys l = Some (sd', keys') →
  n ∈ l →
  bt_host_load_link_key keys' (mk_link_key_reply (lkn_bdaddr n) key0)
  = (mk_link_key_reply (lkn_bdaddr n) (lkn_link_key n), 0).
Proof.
  intros Hok Hlen Hnd Hfresh Hrun Hn.
  destruct (store_all_fresh l sd keys Hok Hlen Hnd Hfresh)
    as (sd2 & keys2 & Hrun2 & Hok2 & _ & Hpos & _).
  rewrite Hrun in Hrun2. inversion Hrun2; subst keys2 sd2. clear Hrun2.
  destruct (last_match_dec (lkn_bdaddr n) (lk_link_keys keys')) as [Ha | [j Hj]].
  - exfalso. apply list_elem_of_lookup in Hn as [k Hk].
    apply (Ha n); [| done]. apply list_elem_of_lookup.
    exists (ring_slot (lk_index keys) k). by apply Hpos.
  - rewrite load_unfold.
    destruct (load_fold_last (lk_link_keys keys') j
                (mk_link_key_reply (lkn_bdaddr n) key0) (-1) Hj)
      as (r & Hr & ->). simpl.
    destruct Hj as [(r' & Hr' & Ha) _]. rewrite Hr in Hr'. inversion Hr'; subst r'.
    assert (r ∈ lk_link_keys keys') as Hin
      by (apply list_elem_of_lookup; eauto).
    destruct (store_all_fresh_elem l sd keys sd' keys' r Hok Hlen Hnd Hfresh
                Hrun Hin) as [Hrl | [Hro _]].
    + by rewrite (NoDup_fmap_elem lkn_bdaddr l r n Hnd Hrl Hn Ha).
    + exfalso. by apply (Hfresh n r).
Qed.

(** X1.  From a ring of sixteen records with its cursor in 0..15, any
    sequence of [bt_host_store_link_key] calls runs without an access
    outside the ring, and leaves a ring of sixteen records with its cursor
    in 0..15. *)
Theorem link_keys_invariant sd keys recs :
  link_keys_ok keys →
  ∃ sd' keys',
    store_all sd keys recs = Some (sd', keys') ∧ link_keys_ok keys'.
Proof. apply store_all_ok. Qed.

Lemma link_keys_init_ok : link_keys_ok bt_host_link_keys_init.
Proof. split; [reflexivity | simpl; lia]. Qed.

Lemma link_keys_invariant_witness :
  ∃ sd' keys',
    store_all sd_ok bt_host_link_keys_init
      [peer_rec 1 1; peer_rec 2 2; peer_rec 1 3] = Some (sd', keys')
    ∧ link_keys_ok keys'.
Proof.
  apply (link_keys_invariant sd_ok bt_host_link_keys_init
           [peer_rec 1 1; peer_rec 2 2; peer_rec 1 3]).
  split; [reflexivity | simpl; lia].
Defined.

(** X2.  Up to sixteen keys for pairwise different addresses, none of which
    is in the ring yet, are all retained: after the stores,
    [bt_host_load_link_key] finds each address and returns the key stored
    for it. *)
Theorem link_keys_retains_sixteen sd keys l :
  link_keys_ok keys →
  (length l ≤ 16)%nat →
  NoDup (lkn_bdaddr <$> l) →
  (∀ n r, n ∈ l → r ∈ lk_link_keys keys → lkn_bdaddr r ≠ lkn_bdaddr n) →
  ∃ sd' keys',
    store_all sd keys l = Some (sd', keys')
    ∧ ∀ n key0, n ∈ l →
        bt_host_load_link_key keys' (mk_link_key_reply (lkn_bdaddr n) key0)
        = (mk_link_key_reply (lkn_bdaddr n) (lkn_link_key n), 0).
Proof.
  intros Hok Hlen Hnd Hfresh.
  destruct (store_all_ok sd keys l Hok) as (sd' & keys' & Hrun & _).
  exists sd', keys'. split; [done |]. intros n key0 Hn.
  by eapply store_all_fresh_lookup.
Qed.

(** X3.  Seventeen stores for pairwise different new addresses: the first
    one is gone (its lookup fails and leaves the reply as it was), the
    sixteen later ones are all found with their keys. *)
Theorem link_keys_evicts_oldest sd keys first l :
  link_keys_ok keys →
  length l = 16%nat →
  NoDup (lkn_bdaddr <$> first :: l) →
  (∀ n r, n ∈ first :: l → r ∈ lk_link_keys keys →
          lkn_bdaddr r ≠ lkn_bdaddr n) →
  ∃ sd' keys',
    store_all sd keys (first :: l) = Some (sd', keys')
    ∧ (∀ key0,
         bt_host_load_link_key keys'
           (mk_link_key_reply (lkn_bdaddr first) key0)
         = (mk_link_key_reply (lkn_bdaddr first) key0, -1))
    ∧ (∀ n key0, n ∈ l →
         bt_host_load_link_key keys' (mk_link_key_reply (lkn_bdaddr n) key0)
         = (mk_link_key_reply (lkn_bdaddr n) (lkn_link_key n), 0)).
Proof.
  intros Hok Hlen Hnd Hfresh.
  rewrite fmap_cons in Hnd. apply list.NoDup_cons in Hnd as [Hnotin Hnd].
  destruct (store_link_key_absent sd keys first Hok) as (sd1 & r1 & E).
  { intros r Hr. apply (Hfresh first r); [by left | done]. }
  set (keys1 := mk_link_keys ((lk_index keys + 1) mod 16)
                  (<[Z.to_nat (lk_index keys) := first]> (lk_link_keys keys)))
    in *.
  assert (link_keys_ok keys1) as Hok1 by by eapply store_link_key_ok.
  assert (∀ n r, n ∈ l → r ∈ lk_link_keys keys1 →
                 lkn_bdaddr r ≠ lkn_bdaddr n) as Hfresh1.
  { intros n r Hn Hr. simpl in Hr.
    apply list_elem_of_lookup in Hr as [j Hj].
    apply list_lookup_insert_Some in Hj as [(_ & <- & _) | (_ & Hj)].
    - intros Eq. apply Hnotin. rewrite Eq.
      apply list_elem_of_fmap. by exists n.
    - apply (Hfresh n r); [by right |]. apply list_elem_of_lookup. eauto. }
  destruct (store_all_ok sd1 keys1 l Hok1) as (sd' & keys' & Hrun & _).
  exists sd', keys'. split; [| split].
  - simpl. rewrite E. simpl. exact Hrun.
  - intros key0. rewrite load_unfold. apply load_fold_absent. simpl.
    intros r Hr Eq.
    destruct (store_all_fresh_elem l sd1 keys1 sd' keys' r Hok1 ltac:(lia)
                Hnd Hfresh1 Hrun Hr) as [Hrl | [_ Hlt]]; [| lia].
    apply Hnotin. rewrite <- Eq. apply list_elem_of_fmap. by exists r.
  - intros n key0 Hn.
    by apply (store_all_fresh_lookup l sd1 keys1 sd' keys' n key0 Hok1
                ltac:(lia) Hnd Hfresh1 Hrun).
Qed.

Lemma fresh_for_init l :
  Forall (fun n => lkn_bdaddr n ≠ zero_bytes 6) l →
  ∀ n r, n ∈ l → r ∈ lk_link_keys bt_host_link_keys_init →
         lkn_bdaddr r ≠ lkn_bdaddr n.
Proof.
  intros Hall n r Hn Hr. rewrite list.Forall_forall in Hall.
  apply elem_of_replicate in Hr as [-> _]. intros E.
  by apply (Hall n Hn).
Qed.

Lemma link_keys_retains_sixteen_witness :
  ∃ sd' keys',
    store_all sd_ok bt_host_link_keys_init sixteen_peers = Some (sd', keys')
    ∧ bt_host_load_link_key keys'
        (mk_link_key_reply (peer_addr 1) (peer_key 0))
      = (mk_link_key_reply (peer_addr 1) (peer_key 1), 0).
Proof.
  destruct (link_keys_retains_sixteen sd_ok bt_host_link_keys_init
              sixteen_peers link_keys_init_ok)
    as (sd' & keys' & Hrun & Hl).
  - simpl. lia.
  - apply (bool_decide_unpack _). vm_compute. exact I.
  - apply fresh_for_init. apply (bool_decide_unpack _). vm_compute. exact I.
  - exists sd', keys'. split; [exact Hrun |].
    apply (Hl (peer_rec 1 1)). apply (bool_decide_unpack _). vm_compute.
    exact I.
Defined.

Lemma link_keys_evicts_oldest_witness :
  ∃ sd' keys',
    store_all sd_ok bt_host_link_keys_init (peer_rec 1 1 :: peers_2_to_17)
    = Some (sd', keys')
    ∧ bt_host_load_link_key keys'
        (mk_link_key_reply (peer_addr 1) (peer_key 0))
      = (mk_link_key_reply (peer_addr 1) (peer_key 0), -1)
    ∧ bt_host_load_link_key keys'
        (mk_link_key_reply (peer_addr 17) (peer_key 0))
      = (mk_link_key_reply (peer_addr 17) (peer_key 17), 0).
Proof.
  destruct (link_keys_evicts_oldest sd_ok bt_host_link_keys_init
              (peer_rec 1 1) peers_2_to_17 link_keys_init_ok)
    as (sd' & keys' & Hrun & Hgone & Hkept).
  - reflexivity.
  - apply (bool_decide_unpack _). vm_compute. exact I.
  - apply fresh_for_init. apply (bool_decide_unpack _). vm_compute. exact I.
  - exists sd', keys'. split; [exact Hrun |]. split; [apply Hgone |].
    apply (Hkept (peer_rec 17 17)). apply (bool_decide_unpack _). vm_compute.
    exact I.
Defined.

(** X4.  A store writes exactly one slot of the ring: a slot that held the
    same address or, for an address not in the ring, the slot at the cursor.
    Lookups of any address other than the stored one and the overwritten one
    give what they gave before; the overwritten address, when no other slot
    holds it, is no longer found. *)
Theorem store_link_key_frame sd keys n sd' keys' ret :
  link_keys_ok keys →
  bt_host_store_link_key sd keys n = Some (sd', keys', ret) →
  ∃ j old,
    lk_link_keys keys !! j = Some old
    ∧ lk_link_keys keys' = <[j := n]> (lk_link_keys keys)
    ∧ (lkn_bdaddr old = lkn_bdaddr n
       ∨ ((∀ r, r ∈ lk_link_keys keys → lkn_bdaddr r ≠ lkn_bdaddr n)
          ∧ Z.of_nat j = lk_index keys))
    ∧ (∀ reply,
         lkr_bdaddr reply ≠ lkn_bdaddr n →
         lkr_bdaddr reply ≠ lkn_bdaddr old →
         bt_host_load_link_key keys' reply = bt_host_load_link_key keys reply)
    ∧ (∀ reply,
         lkr_bdaddr reply = lkn_bdaddr old →
         lkn_bdaddr old ≠ lkn_bdaddr n →
         (∀ j' r, j' ≠ j → lk_link_keys keys !! j' = Some r →
                  lkn_bdaddr r ≠ lkn_bdaddr old) →
         bt_host_load_link_key keys' reply = (reply, -1)).
Proof.
  intros Hok Hs.
  destruct (store_link_key_slot sd keys n sd' keys' ret Hok Hs)
    as (j & old & Hold & Hrecs & Hcase).
  exists j, old. split; [done |]. split; [done |]. split; [done |]. split.
  - intros reply Hn Ho. rewrite !load_unfold, Hrecs.
    by apply (load_fold_insert _ j old n).
  - intros reply Ho Hne Honly. rewrite load_unfold, Hrecs.
    apply load_fold_absent. simpl. intros r Hr.
    apply list_elem_of_lookup in Hr as [j' Hj'].
    apply list_lookup_insert_Some in Hj' as [(_ & <- & _) | (Hjj & Hj')].
    + congruence.
    + rewrite Ho. by apply (Honly j' r).
Qed.

Lemma store_link_key_frame_witness :
  ∃ sd' keys' ret,
    bt_host_store_link_key sd_ok full_ring (peer_rec 40 40)
    = Some (sd', keys', ret)
    ∧ bt_host_load_link_key keys'
        (mk_link_key_reply (peer_addr 5) (peer_key 0))
      = bt_host_load_link_key full_ring
          (mk_link_key_reply (peer_addr 5) (peer_key 0)).
Proof.
  destruct (bt_host_store_link_key sd_ok full_ring (peer_rec 40 40))
    as [[[sd' keys'] ret] |] eqn:E; [| vm_compute in E; discriminate].
  destruct (store_link_key_frame sd_ok full_ring (peer_rec 40 40) sd' keys' ret
              full_ring_ok E) as (j & old & Hold & _ & Hcase & Hother & _).
  exists sd', keys', ret. split; [reflexivity |].
  apply Hother.
  - vm_compute. discriminate.
  - destruct Hcase as [Heq | [_ Hj]].
    + exfalso.
      assert (Forall (fun r => lkn_bdaddr r ≠ lkn_bdaddr (peer_rec 40 40))
                (lk_link_keys full_ring)) as Habs.
      { apply (bool_decide_unpack _). vm_compute. exact I. }
      rewrite list.Forall_forall in Habs. apply (Habs old); [| done].
      apply list_elem_of_lookup. eauto.
    + assert (j = 0%nat) as -> by (simpl in Hj; lia).
      vm_compute in Hold. inversion Hold; subst. vm_compute. discriminate.
Defined.

(** X5.  Storing the same notification a second time changes nothing in
    the ring, the cursor included, and the address is then found with that
    key. *)
Theorem store_link_key_twice_same sd keys n sd1 keys1 ret1 :
  link_keys_ok keys →
  bt_host_store_link_key sd keys n = Some (sd1, keys1, ret1) →
  ∃ sd2 ret2,
    bt_host_store_link_key sd1 keys1 n = Some (sd2, keys1, ret2)
    ∧ ∀ key0,
        bt_host_load_link_key keys1 (mk_link_key_reply (lkn_bdaddr n) key0)
        = (mk_link_key_reply (lkn_bdaddr n) (lkn_link_key n), 0).
Proof.
  intros Hok Hs.
  destruct (store_link_key_twice sd keys n sd1 keys1 ret1 Hok Hs)
    as (sd2 & ret2 & E).
  exists sd2, ret2. split; [done |]. intros key0.
  by eapply load_after_store.
Qed.

Lemma store_link_key_twice_same_witness :
  ∃ sd1 keys1 ret1 sd2 ret2,
    bt_host_store_link_key sd_ok full_ring (peer_rec 1 99)
    = Some (sd1, keys1, ret1)
    ∧ bt_host_store_link_key sd1 keys1 (peer_rec 1 99)
      = Some (sd2, keys1, ret2).
Proof.
  destruct (bt_host_store_link_key sd_ok full_ring (peer_rec 1 99))
    as [[[sd1 keys1] ret1] |] eqn:E; [| vm_compute in E; discriminate].
  destruct (store_link_key_twice_same sd_ok full_ring (peer_rec 1 99)
              sd1 keys1 ret1 full_ring_ok E) as (sd2 & ret2 & E2 & _).
  exists sd1, keys1, ret1, sd2, ret2. split; [reflexivity | exact E2].
Defined.

(** X6.  A store is never rolled back.  From a ring of sixteen records
    with its cursor in 0..15 the store runs through, whatever the card does.
    Its return value is -1 exactly when the file could not be opened for
    writing, and 0 otherwise; the card is then as it was.  The ring in
    memory after the store is the same in both cases, and the address is
    found in it with the new key: a store that reports failure has still
    replaced the key. *)
Theorem store_link_key_no_rollback sd keys n :
  link_keys_ok keys →
  ∃ sd' keys' ret,
    bt_host_store_link_key sd keys n = Some (sd', keys', ret)
    ∧ (ret = 0 ∨ ret = -1)
    ∧ (ret = -1 ↔ sd_fopen_ok sd = false)
    ∧ (ret = -1 → sd' = sd)
    ∧ (∀ sd2, ∃ sd2' ret2,
         bt_host_store_link_key sd2 keys n = Some (sd2', keys', ret2))
    ∧ link_keys_ok keys'
    ∧ (∀ key0,
         bt_host_load_link_key keys' (mk_link_key_reply (lkn_bdaddr n) key0)
         = (mk_link_key_reply (lkn_bdaddr n) (lkn_link_key n), 0)).
Proof.
  intros Hok.
  destruct (store_link_key_total sd keys n Hok) as [[[sd' keys'] ret] Hs].
  exists sd', keys', ret. split; [done |].
  pose proof (store_link_key_ok _ _ _ _ _ _ Hok Hs) as Hok'.
  pose proof (fun key0 => load_after_store sd keys n sd' keys' ret key0 Hok Hs)
    as Hload.
  revert Hs. unfold bt_host_store_link_key. case_bool_decide; [| done].
  unfold bt_host_store_keys_on_file.
  destruct (sd_fopen_ok sd) eqn:Hopen; intros [= <- <- <-].
  - split; [by left |]. split; [done |]. split; [done |].
    split; [| done]. intros sd2. destruct (sd_fopen_ok sd2); eauto.
  - split; [by right |]. split; [done |]. split; [done |].
    split; [| done]. intros sd2. destruct (sd_fopen_ok sd2); eauto.
Qed.

Lemma store_link_key_no_rollback_witness :
  ∃ sd' keys',
    bt_host_store_link_key (mk_sd false None) full_ring (peer_rec 1 99)
    = Some (sd', keys', -1)
    ∧ sd' = mk_sd false None
    ∧ bt_host_load_link_key keys'
        (mk_link_key_reply (peer_addr 1) (peer_key 0))
      = (mk_link_key_reply (peer_addr 1) (peer_key 99), 0).
Proof.
  destruct (store_link_key_no_rollback (mk_sd false None) full_ring
              (peer_rec 1 99) full_ring_ok)
    as (sd' & keys' & ret & Hs & _ & Hret & Hsd & _ & _ & Hload).
  assert (ret = -1) as -> by (apply Hret; reflexivity).
  exists sd', keys'. split; [exact Hs |].
  split; [apply Hsd; reflexivity | apply Hload].
Defined.

(** X7.  [bt_host_load_keys_from_file] takes the cursor found in the file
    as it is: a file whose cursor is 16 or more is loaded with return value
    0, after which a store for an address not in the ring writes outside
    the ring (no result in the model), while a store for an address in the
    ring still overwrites its slot. *)
Theorem load_keys_unchecked_cursor sd blob data n :
  sd_linkkeys sd = Some blob →
  length (lk_link_keys blob) = 16%nat →
  16 ≤ lk_index blob →
  (∀ r, r ∈ lk_link_keys blob → lkn_bdaddr r ≠ lkn_bdaddr n) →
  bt_host_load_keys_from_file sd true data = (sd, blob, 0)
  ∧ (∀ sd1, bt_host_store_link_key sd1 blob n = None)
  ∧ (∀ sd1 n' j,
       last_match (lkn_bdaddr n') (lk_link_keys blob) j →
       ∃ sd' ret,
         bt_host_store_link_key sd1 blob n'
         = Some (sd', mk_link_keys (lk_index blob)
                        (<[j := n']> (lk_link_keys blob)), ret)).
Proof.
  intros Hfile Hlen Hidx Habs. split; [| split].
  - unfold bt_host_load_keys_from_file. by rewrite Hfile.
  - intros sd1. unfold bt_host_store_link_key.
    rewrite store_scan_absent by done.
    rewrite bool_decide_eq_false_2; [done | lia].
  - intros sd1 n' j Hj.
    assert (j < 16)%nat as Hjl.
    { destruct Hj as [(r & Hr & _) _]. apply lookup_lt_Some in Hr. lia. }
    rewrite (store_link_key_at sd1 blob n' (Z.of_nat j)).
    + simpl. rewrite Nat2Z.id.
      rewrite bool_decide_eq_false_2 by lia. eauto.
    + rewrite (store_scan_last _ _ j) by done. lia.
    + lia.
Qed.

Lemma load_keys_unchecked_cursor_witness :
  bt_host_load_keys_from_file
    (mk_sd true (Some (mk_link_keys 16 sixteen_peers))) true
    bt_host_link_keys_init
  = (mk_sd true (Some (mk_link_keys 16 sixteen_peers)),
     mk_link_keys 16 sixteen_peers, 0)
  ∧ bt_host_store_link_key sd_ok (mk_link_keys 16 sixteen_peers)
      (peer_rec 40 40) = None.
Proof.
  destruct (load_keys_unchecked_cursor
              (mk_sd true (Some (mk_link_keys 16 sixteen_peers)))
              (mk_link_keys 16 sixteen_peers) bt_host_link_keys_init
              (peer_rec 40 40) eq_refl eq_refl) as (Hl & Hs & _).
  - simpl. lia.
  - apply list.Forall_forall. apply (bool_decide_unpack _). vm_compute.
    exact I.
  - split; [exact Hl | apply Hs].
Defined.

(** ** Session table after a reset *)

(** A lookup whose test needs the discovered bit cannot return a slot that
    has just been zeroed, and keeps returning any other slot. *)
Lemma list_find_reset (Q : bt_dev → Prop) `{∀ d, Decision (Q d)}
    (devs : list bt_dev) (slot : nat) :
  ¬ Q bt_dev_zero →
  (∀ d, list_find Q (<[slot := bt_dev_zero]> devs) ≠ Some (slot, d))
  ∧ (∀ j d, j ≠ slot → list_find Q devs = Some (j, d) →
            list_find Q (<[slot := bt_dev_zero]> devs) = Some (j, d))
  ∧ (∀ j d, list_find Q (<[slot := bt_dev_zero]> devs) = Some (j, d) →
            devs !! j = Some d ∧ Q d ∧ j ≠ slot).
Proof.
  intros Hz. split; [| split].
  - intros d Hf. apply list_find_Some in Hf as (Hl & Hq & _).
    destruct (decide (slot < length devs)%nat) as [Hlt | Hge].
    + rewrite list_lookup_insert_eq in Hl by done. inversion Hl; subst. done.
    + rewrite list_insert_ge in Hl by lia.
      apply lookup_lt_Some in Hl. lia.
  - intros j d Hne Hf. apply list_find_Some in Hf as (Hl & Hq & Hb).
    apply list_find_Some. split; [| split; [done |]].
    + by rewrite list_lookup_insert_ne.
    + intros k y Hk Hlt.
      apply list_lookup_insert_Some in Hk as [(_ & <- & _) | (_ & Hk)];
        [done | by eapply Hb].
  - intros j d Hf. apply list_find_Some in Hf as (Hl & Hq & _).
    apply list_lookup_insert_Some in Hl as [(_ & <- & _) | (Hne & Hl)];
      [done | done].
Qed.

(** X9.  After [bt_host_reset_dev] on a slot no lookup returns that slot:
    not by handle, not by address, not as the active session; and a lookup
    that returned another slot before the reset returns the same slot after
    it. *)
Theorem reset_dev_unresolvable P devs data slot devs' data' evs :
  bt_host_reset_dev devs data slot = Some (devs', data', evs) →
  (∀ handle, bt_host_get_dev_from_handle P handle devs' ≠ Some slot)
  ∧ (∀ bdaddr, bt_host_get_dev_from_bdaddr P bdaddr devs' ≠ Some slot)
  ∧ bt_host_get_active_dev P devs' ≠ Some slot
  ∧ (∀ handle j, j ≠ slot →
       bt_host_get_dev_from_handle P handle devs = Some j →
       bt_host_get_dev_from_handle P handle devs' = Some j)
  ∧ (∀ bdaddr j, j ≠ slot →
       bt_host_get_dev_from_bdaddr P bdaddr devs = Some j →
       bt_host_get_dev_from_bdaddr P bdaddr devs' = Some j)
  ∧ (∀ j, j ≠ slot →
       bt_host_get_active_dev P devs = Some j →
       bt_host_get_active_dev P devs' = Some j).
Proof.
  unfold bt_host_reset_dev. intros Hr.
  destruct (devs !! slot) as [device |]; [| done]. simpl in Hr.
  destruct (data_at data (dev_id device)) as [e0 |]; [| done]. simpl in Hr.
  inversion Hr; subst. clear Hr.
  pose proof (dev_found_zero P) as Hz.
  assert (∀ (Q : bt_dev → Prop) `{∀ d, Decision (Q d)},
            (∀ d, Q d → dev_found P d = true) →
            (fst <$> list_find Q (<[slot := bt_dev_zero]> devs) ≠ Some slot)
            ∧ ∀ j, j ≠ slot → fst <$> list_find Q devs = Some j →
                   fst <$> list_find Q (<[slot := bt_dev_zero]> devs)
                   = Some j) as Hgen.
  { intros Q HQ Hfound.
    destruct (list_find_reset Q devs slot) as (H1 & H2 & _).
    { intros Hq. apply Hfound in Hq. congruence. }
    split.
    - intros Hf. apply fmap_Some in Hf as [[j d] [Hf ->]]. by apply H1 in Hf.
    - intros j Hne Hf. apply fmap_Some in Hf as [[j' d] [Hf ->]].
      simpl in Hne. by rewrite (H2 j' d Hne Hf). }
  repeat split.
  - intros handle. apply Hgen. by intros d [? _].
  - intros bdaddr. apply Hgen. by intros d [? _].
  - apply Hgen. done.
  - intros handle. apply Hgen. by intros d [? _].
  - intros bdaddr. apply Hgen. by intros d [? _].
  - apply Hgen. done.
Qed.

Lemma reset_dev_unresolvable_witness :
  bt_host_get_dev_from_handle esp32 11 sample_devs = Some 0%nat
  ∧ bt_host_get_dev_from_handle esp32 11 (<[0%nat := bt_dev_zero]> sample_devs)
    ≠ Some 0%nat
  ∧ bt_host_get_dev_from_handle esp32 12 (<[0%nat := bt_dev_zero]> sample_devs)
    = Some 1%nat.
Proof.
  destruct (reset_dev_unresolvable esp32 sample_devs sample_data 0
              (<[0%nat := bt_dev_zero]> sample_devs)
              (<[0%nat := bt_data_zero (sample_data_entry 0)]> sample_data)
              [CallAdapterInitBuffer 0] eq_refl)
    as (Hh & _ & _ & Hkeep & _).
  split; [reflexivity |]. split; [apply Hh |].
  apply Hkeep; [lia | reflexivity].
Defined.

(** ** Reassembly beyond the complete frame *)

Lemma reassemble_all_app P l1 : ∀ fs l2,
  reassemble_all P fs (l1 ++ l2)
  = '(fs1, r1) ← reassemble_all P fs l1;
    '(fs2, r2) ← reassemble_all P fs1 l2;
    Some (fs2, r1 ++ r2).
Proof.
  induction l1 as [| p l1 IH]; intros fs l2.
  - simpl. by destruct (reassemble_all P fs l2) as [[fs2 r2] |].
  - change ((p :: l1) ++ l2) with (p :: (l1 ++ l2)). cbn [reassemble_all].
    destruct (acl_reassemble P fs p _) as [[[fs1 log] cur] |]; [| done].
    cbn [mbind option_bind]. rewrite IH.
    destruct (reassemble_all P fs1 l1) as [[fs2 r2] |]; [| done].
    cbn [mbind option_bind].
    by destruct (reassemble_all P fs2 l2) as [[fs3 r3] |].
Qed.

Lemma reasm_shorts P start L :
  start_fragment P start L →
  ∀ conts x rest,
    Forall (cont_fragment P) conts →
    Z.of_nat (length (start ++ x)
              + length (concat (cont_payload <$> conts))) < L + 9 →
    (length (concat (cont_payload <$> conts)) ≤ length rest)%nat →
    reassemble_all P
      (mk_frag (L + 9) (Z.of_nat (length (start ++ x))) ((start ++ x) ++ rest))
      conts
    = Some (mk_frag (L + 9)
              (Z.of_nat (length (start ++ x ++ concat (cont_payload <$> conts))))
              ((start ++ x ++ concat (cont_payload <$> conts))
               ++ drop (length (concat (cont_payload <$> conts))) rest),
            replicate (length conts) None).
Proof.
  intros Hstart conts.
  pose proof Hstart as (_ & HL & _ & _). apply rd16_bound in HL.
  induction conts as [| c cs IH]; intros x rest Hcs Hsum Hfit.
  - simpl. by rewrite !app_nil_r.
  - inversion Hcs as [| ? ? Hc Hcs']; subst.
    rewrite fmap_cons, concat_cons in Hsum, Hfit |- *.
    rewrite (length_app (cont_payload c)) in Hsum, Hfit |- *.
    cbn [reassemble_all].
    rewrite (reasm_cont_short P (L + 9) (start ++ x) rest c) by (try done; lia).
    cbn [mbind option_bind].
    replace ((start ++ x) ++ cont_payload c
             ++ drop (length (cont_payload c)) rest)
      with ((start ++ (x ++ cont_payload c))
            ++ drop (length (cont_payload c)) rest)
      by by rewrite <- !app_assoc.
    replace (length (start ++ x) + length (cont_payload c))%nat
      with (length (start ++ (x ++ cont_payload c)))
      by (rewrite !length_app; lia).
    rewrite (IH (x ++ cont_payload c) (drop (length (cont_payload c)) rest)
               Hcs').
    + cbn [mbind option_bind length replicate].
      rewrite drop_drop. by rewrite <- !app_assoc.
    + rewrite !length_app. rewrite length_app in Hsum. lia.
    + rewrite length_drop. lia.
Qed.

Lemma reasm_cont_reached P start L x rest c :
  start_fragment P start L →
  cont_fragment P c →
  (length (cont_payload c) ≤ length rest)%nat →
  L + 9 ≤ Z.of_nat (length (start ++ x) + length (cont_payload c)) →
  Z.of_nat (length (start ++ x) + length (cont_payload c)) < 2 ^ 32 →
  let buf := (start ++ x) ++ cont_payload c
               ++ drop (length (cont_payload c)) rest in
  let off := Z.of_nat (length (start ++ x) + length (cont_payload c)) in
  acl_reassemble P
    (mk_frag (L + 9) (Z.of_nat (length (start ++ x))) ((start ++ x) ++ rest))
    c (Z.of_nat (length c))
  = Some (mk_frag (L + 9) off buf,
          [LogReassembled off (L + 9)], Some (buf, L + 9)).
Proof.
  intros ((hs & Hhs & Hfs) & HL & H9 & Hshort) [(h & Hh & Hf) Hl] Hfit Hsum Hlt.
  pose proof (rd16_bound _ _ _ HL) as HLb. intros buf off.
  unfold acl_reassemble. rewrite Hh. simpl.
  rewrite bool_decide_eq_true_2 by done. rewrite Hl. simpl.
  change (Z.to_nat (BT_HCI_H4_HDR_SIZE + BT_HCI_ACL_HDR_SIZE)) with 5%nat.
  fold (cont_payload c). rewrite memcpy_app by done. simpl.
  fold buf.
  unfold u32. rewrite <- Nat2Z.inj_add. fold off.
  rewrite (Z.mod_small off) by (subst off; lia).
  rewrite bool_decide_eq_false_2 by lia. simpl.
  assert (pkt_acl_handle buf = Some hs) as ->.
  { unfold pkt_acl_handle, buf. rewrite <- !app_assoc.
    rewrite rd16_app_l by lia. exact Hhs. }
  simpl. rewrite bool_decide_eq_true_2 by done.
  assert (pkt_l2cap_len buf = Some L) as ->.
  { unfold pkt_l2cap_len, buf. rewrite <- !app_assoc.
    rewrite rd16_app_l by lia. exact HL. }
  simpl.
  change (BT_HCI_H4_HDR_SIZE + BT_HCI_ACL_HDR_SIZE + sizeof_bt_l2cap_hdr)
    with 9.
  replace (L + 9 - 9) with L by lia. rewrite Z.mod_small by lia.
  by rewrite bool_decide_eq_false_2 by lia.
Qed.

(** X10.  After a fragmented frame has been completed the reassembler
    keeps its state: one more continuation that still fits the buffer makes
    the frame that was just routed reach routing a second time, with the
    same bytes; the offset moves past the declared size, which stays. *)
Theorem acl_late_continuation P fs start L conts last extra :
  BT_ACL_START P ≠ BT_ACL_CONT P →
  length (frag_buf fs) = 1024%nat →
  start_fragment P start L →
  Forall (cont_fragment P) conts →
  cont_fragment P last →
  (0 < length (cont_payload last))%nat →
  Z.of_nat (length start
            + length (concat (cont_payload <$> (conts ++ [last])))) = L + 9 →
  cont_fragment P extra →
  L + 9 + Z.of_nat (length (cont_payload extra)) ≤ 1024 →
  ∃ fs' buf1 buf2,
    reassemble_all P fs (start :: conts ++ [last; extra])
    = Some (fs', replicate (S (length conts)) None
                 ++ [Some (buf1, L + 9); Some (buf2, L + 9)])
    ∧ frame_bytes (buf1, L + 9)
      = start ++ concat (cont_payload <$> (conts ++ [last]))
    ∧ frame_bytes (buf2, L + 9) = frame_bytes (buf1, L + 9)
    ∧ frag_size fs' = L + 9
    ∧ frag_offset fs' = L + 9 + Z.of_nat (length (cont_payload extra)).
Proof.
  intros Hne Hbuf Hstart Hcs Hlast Hpos Hsum Hextra Hfit.
  set (payload := concat (cont_payload <$> (conts ++ [last]))) in *.
  set (rest := drop (length start) (frag_buf fs)).
  set (rest1 := drop (length payload) rest).
  set (buf1 := (start ++ payload) ++ rest1).
  set (buf2 := (start ++ payload) ++ cont_payload extra
               ++ drop (length (cont_payload extra)) rest1).
  assert (length rest = 1024 - length start)%nat as Hrest.
  { subst rest. rewrite length_drop. lia. }
  assert (length rest1 = 1024 - length start - length payload)%nat as Hrest1.
  { subst rest1. rewrite length_drop. lia. }
  assert (length (start ++ payload) = (length start + length payload)%nat)
    as Hsp by apply length_app.
  exists (mk_frag (L + 9)
            (Z.of_nat (length (start ++ payload)
                       + length (cont_payload extra))) buf2), buf1, buf2.
  split; [| split; [| split; [| split]]].
  - change (start :: conts ++ [last; extra])
      with ([start] ++ (conts ++ [last; extra])).
    replace (conts ++ [last; extra]) with ((conts ++ [last]) ++ [extra])
      by by rewrite <- app_assoc.
    rewrite app_assoc, reassemble_all_app.
    change ([start] ++ conts ++ [last]) with (start :: conts ++ [last]).
    cbn [reassemble_all].
    rewrite (reasm_start P fs start L Hne Hstart) by lia.
    cbn [mbind option_bind]. fold rest.
    pose proof (reasm_conts P start L Hstart conts [] rest last Hcs Hlast Hpos)
      as Hrun.
    rewrite !app_nil_r in Hrun. fold payload in Hrun.
    rewrite Hrun; [| done | lia].
    cbn [mbind option_bind reassemble_all]. fold rest1.
    rewrite (app_assoc start payload rest1). fold buf1.
    pose proof (reasm_cont_reached P start L payload rest1 extra Hstart
                  Hextra ltac:(lia) ltac:(lia) ltac:(lia)) as Hstep.
    cbv zeta in Hstep. fold buf2 in Hstep. fold buf1 in Hstep.
    replace (L + 9) with (Z.of_nat (length (start ++ payload))) at 2 by lia.
    rewrite Hstep. cbn [mbind option_bind]. f_equal. f_equal.
    change (replicate (S (length conts)) None)
      with (None :: replicate (length conts) (@None (list byte * Z))).
    simpl. by rewrite <- app_assoc.
  - unfold frame_bytes. simpl. subst buf1. apply take_app_length'. lia.
  - unfold frame_bytes. simpl. subst buf1 buf2.
    rewrite !take_app_length' by lia. done.
  - done.
  - simpl. lia.
Qed.

(** X11.  A packet that is not a fragment (not a continuation, and not the
    START of a longer frame), received between the fragments of a frame, is
    routed at once as it is and does not disturb the reassembly: the frame
    completes on its last continuation, with the bytes of its START followed
    by the payloads of all its continuations. *)
Theorem acl_interleaved_packet P fs start L conts1 whole conts2 last :
  BT_ACL_START P ≠ BT_ACL_CONT P →
  length (frag_buf fs) = 1024%nat →
  start_fragment P start L →
  Forall (cont_fragment P) (conts1 ++ conts2) →
  cont_fragment P last →
  (0 < length (cont_payload last))%nat →
  Z.of_nat (length start
            + length (concat (cont_payload <$> (conts1 ++ conts2 ++ [last]))))
  = L + 9 →
  L + 9 ≤ 1024 →
  complete_packet P whole →
  ∃ fs',
    reassemble_all P fs (start :: conts1 ++ whole :: conts2 ++ [last])
    = Some (fs',
            replicate (S (length conts1)) None
            ++ Some (whole, Z.of_nat (length whole))
            :: replicate (length conts2) None
            ++ [Some (frag_buf fs', L + 9)])
    ∧ frame_bytes (frag_buf fs', L + 9)
      = start ++ concat (cont_payload <$> (conts1 ++ conts2 ++ [last])).
Proof.
  intros Hne Hbuf Hstart Hcs Hlast Hpos Hsum Hfit (h & Hh & Hnc & Hwhole).
  apply Forall_app in Hcs as [Hcs1 Hcs2].
  set (p1 := concat (cont_payload <$> conts1)) in *.
  set (p2 := concat (cont_payload <$> (conts2 ++ [last]))) in *.
  assert (concat (cont_payload <$> (conts1 ++ conts2 ++ [last])) = p1 ++ p2)
    as Hp by (subst p1 p2; by rewrite fmap_app, concat_app).
  rewrite Hp in Hsum |- *. rewrite length_app in Hsum.
  assert (0 < length p2)%nat as Hp2.
  { subst p2. rewrite fmap_app, concat_app, length_app. simpl.
    rewrite app_nil_r. lia. }
  set (rest := drop (length start) (frag_buf fs)).
  assert (length rest = 1024 - length start)%nat as Hrest.
  { subst rest. rewrite length_drop. lia. }
  set (rest1 := drop (length p1) rest).
  assert (length rest1 = 1024 - length start - length p1)%nat as Hrest1.
  { subst rest1. rewrite length_drop. lia. }
  set (buf := (start ++ p1) ++ p2 ++ drop (length p2) rest1).
  exists (mk_frag (L + 9) (L + 9) buf). split.
  - change (start :: conts1 ++ whole :: conts2 ++ [last])
      with ([start] ++ conts1 ++ [whole] ++ (conts2 ++ [last])).
    rewrite reassemble_all_app.
    cbn [reassemble_all].
    rewrite (reasm_start P fs start L Hne Hstart) by lia.
    cbn [mbind option_bind]. fold rest.
    pose proof (reasm_shorts P start L Hstart conts1 [] rest Hcs1) as Hs.
    rewrite !app_nil_r in Hs. fold p1 in Hs.
    change ([] ++ p1) with p1 in Hs.
    rewrite reassemble_all_app.
    rewrite Hs; [| lia | lia]. cbn [mbind option_bind]. fold rest1.
    rewrite reassemble_all_app. cbn [reassemble_all].
    rewrite (reasm_complete P _ whole _ h Hh Hnc Hwhole).
    cbn [mbind option_bind].
    pose proof (reasm_conts P start L Hstart conts2 p1 rest1 last Hcs2 Hlast
                  Hpos) as Hrun.
    fold p2 in Hrun. cbv zeta in Hrun. fold buf in Hrun.
    rewrite Hrun; [| rewrite length_app; lia | lia].
    cbn [mbind option_bind]. reflexivity.
  - unfold frame_bytes. simpl. subst buf.
    rewrite (app_assoc start p1 p2), (app_assoc (start ++ p1)).
    apply take_app_length'. rewrite !length_app. lia.
Qed.

Lemma acl_late_continuation_witness :
  ∃ fs' buf1 buf2,
    reassemble_all esp32 frag_init
      [frag_start; frag_cont_a; frag_cont_b; frag_cont_a]
    = Some (fs', [None; None; Some (buf1, 17); Some (buf2, 17)])
    ∧ frame_bytes (buf1, 17) = frag_whole
    ∧ frame_bytes (buf2, 17) = frag_whole
    ∧ frag_offset fs' = 19.
Proof.
  assert (start_fragment esp32 frag_start 8) as Hs.
  { split; [by eexists | repeat split; vm_compute; congruence]. }
  assert (cont_fragment esp32 frag_cont_a) as Ha.
  { split; [by eexists | reflexivity]. }
  assert (cont_fragment esp32 frag_cont_b) as Hb.
  { split; [by eexists | reflexivity]. }
  destruct (acl_late_continuation esp32 frag_init frag_start 8 [frag_cont_a]
              frag_cont_b frag_cont_a)
    as (fs' & buf1 & buf2 & Hrun & Hb1 & Hb2 & _ & Hoff).
  - simpl. lia.
  - reflexivity.
  - exact Hs.
  - by constructor.
  - exact Hb.
  - simpl. lia.
  - reflexivity.
  - exact Ha.
  - simpl. lia.
  - exists fs', buf1, buf2.
    split; [exact Hrun | split; [exact Hb1 | split; [| exact Hoff]]].
    exact (eq_trans Hb2 Hb1).
Defined.

Lemma acl_interleaved_packet_witness :
  ∃ fs',
    reassemble_all esp32 frag_init
      [frag_start; frag_cont_a; sample_frame 1; frag_cont_b]
    = Some (fs', [None; None; Some (sample_frame 1, 9);
                  Some (frag_buf fs', 17)])
    ∧ frame_bytes (frag_buf fs', 17) = frag_whole.
Proof.
  assert (start_fragment esp32 frag_start 8) as Hs.
  { split; [by eexists | repeat split; vm_compute; congruence]. }
  assert (cont_fragment esp32 frag_cont_a) as Ha.
  { split; [by eexists | reflexivity]. }
  assert (cont_fragment esp32 frag_cont_b) as Hb.
  { split; [by eexists | reflexivity]. }
  assert (complete_packet esp32 (sample_frame 1)) as Hw.
  { eexists. split; [reflexivity |]. split; [vm_compute; congruence |].
    right. eexists. split; [reflexivity |]. vm_compute. congruence. }
  destruct (acl_interleaved_packet esp32 frag_init frag_start 8 [frag_cont_a]
              (sample_frame 1) [] frag_cont_b) as (fs' & Hrun & Hbytes).
  - simpl. lia.
  - reflexivity.
  - exact Hs.
  - by constructor.
  - exact Hb.
  - simpl. lia.
  - reflexivity.
  - lia.
  - exact Hw.
  - exists fs'. split; [exact Hrun | exact Hbytes].
Defined.

(** ** Flag bits *)

Lemma testbit_one k : Z.testbit 1 k = bool_decide (k = 0).
Proof. destruct k as [| p | p]; [done | by destruct p | done]. Qed.

Lemma testbit_mask b bit :
  0 ≤ bit → Z.testbit (Z.shiftl 1 b) bit = bool_decide (bit = b).
Proof.
  intros Hbit. rewrite Z.shiftl_spec, testbit_one by done.
  apply bool_decide_ext. lia.
Qed.



Lemma test_clear_same f b :
  atomic_test_bit (atomic_clear_bit f b) b = false.
Proof.
  unfold atomic_test_bit, atomic_clear_bit.
  destruct (Z.lt_ge_cases b 0) as [Hneg | Hpos].
  { by rewrite Z.testbit_neg_r by done. }
  rewrite Z.land_spec, Z.lnot_spec, testbit_mask, bool_decide_eq_true_2
    by done.
  apply andb_false_r.
Qed.

Lemma test_set_same f b :
  0 ≤ b → atomic_test_bit (atomic_set_bit f b) b = true.
Proof.
  intros Hb. unfold atomic_test_bit, atomic_set_bit.
  rewrite Z.lor_spec, testbit_mask, bool_decide_eq_true_2 by done.
  apply orb_true_r.
Qed.

(** ** Transmit queue order *)

Lemma sent_packets_app tr1 tr2 :
  sent_packets (tr1 ++ tr2) = sent_packets tr1 ++ sent_packets tr2.
Proof. unfold sent_packets. apply omap_app. Qed.

Lemma real_packets_app q1 q2 :
  real_packets (q1 ++ q2) = real_packets q1 ++ real_packets q2.
Proof. unfold real_packets. apply List.filter_app. Qed.

(** One step: what was queued before followed by what the step added is
    what the step popped followed by what is queued after it, and the
    step sent the popped packet unless it is a delay marker. *)
Lemma tx_step_fifo P flags txq a f q o :
  Forall packet_ok txq →
  tx_step P flags txq a = Some (f, q, o) →
  ∃ popped,
    txq ++ step_accepted P txq a = popped ++ q
    ∧ sent_packets o = real_packets popped.
Proof.
  intros Hq Hs. destruct a as [| | p]; cbn [tx_step step_accepted] in *.
  - rewrite app_nil_r.
    destruct (bt_tx_task P flags txq) as [[[f3 q3] evs] |] eqn:Ht; [| done].
    cbn [mbind option_bind] in Hs. inversion Hs; subst. clear Hs.
    unfold bt_tx_task in Ht.
    destruct (atomic_test_bit flags BT_CTRL_READY);
      [| inversion Ht; subst; by exists []].
    destruct Hq as [| packet txq' Hp Hq'];
      [inversion Ht; subst; by exists [] |].
    destruct packet as [| b0 rest]; [done |].
    cbn [lookup list_lookup mbind option_bind] in Ht.
    case_bool_decide as Hff.
    + destruct rest as [| b1 rest]; [done |].
      cbn [lookup list_lookup mbind option_bind] in Ht.
      case_bool_decide; [done |]. inversion Ht; subst.
      exists [b0 :: b1 :: rest]. split; [done |].
      unfold real_packets. cbn [List.filter is_wait_pkt].
      by rewrite bool_decide_eq_true_2.
    + inversion Ht; subst. exists [b0 :: rest]. split; [done |].
      unfold real_packets. cbn [List.filter is_wait_pkt].
      by rewrite bool_decide_eq_false_2.
  - inversion Hs; subst. exists []. by rewrite app_nil_r.
  - rewrite txq_add_whole in Hs.
    destruct (xRingbufferSend P txq p); cbn [mbind option_bind] in Hs;
      inversion Hs; subst; exists []; [done | by rewrite app_nil_r].
Qed.

Lemma step_accepted_sublist P txq a :
  step_accepted P txq a
  `sublist_of` queued_packets [a].
Proof.
  destruct a as [| | p]; cbn; try done.
  destruct (xRingbufferSend P txq p); [done | by apply sublist_cons].
Qed.

Lemma queued_packets_cons a acts :
  queued_packets (a :: acts) = queued_packets [a] ++ queued_packets acts.
Proof. by destruct a. Qed.

(** X12.  First in, first out.  [bt_host_txq_add] appends the packet to
    the queue and returns 0 when [xRingbufferSend] takes it, and leaves the
    queue alone and returns -1 when it does not.  In every interleaving of
    producers, ready callbacks and drain turns (tick period non-zero, each
    queued packet at least two bytes long) the run goes through, and the
    queue at the start followed by the packets the ring buffer took, in the
    order they were offered, is what the drain task has popped followed by
    what is still queued.  The packets sent to the controller are the
    popped ones that are not delay markers, in that order: nothing is sent
    twice, out of order or without having been queued, and no delay marker
    is sent.  The packets taken are among those offered, and are all of
    them when the ring buffer never refuses. *)
Theorem tx_fifo_order P acts : ∀ flags txq,
  portTICK_PERIOD_MS P ≠ 0 →
  Forall packet_ok txq → Forall action_ok acts →
  (∀ q p,
     bt_host_txq_add P q p (Z.of_nat (length p))
     = Some (if xRingbufferSend P q p then (q ++ [p], 0, [])
             else (q, -1, [LogTxqFull])))
  ∧ ∃ f q tr popped,
      tx_run P flags txq acts = Some (f, q, tr)
      ∧ txq ++ accepted_packets P flags txq acts = popped ++ q
      ∧ sent_packets tr = real_packets popped
      ∧ accepted_packets P flags txq acts `sublist_of` queued_packets acts
      ∧ ((∀ q0 p, xRingbufferSend P q0 p = true) →
         accepted_packets P flags txq acts = queued_packets acts).
Proof.
  intros flags txq Ht Hq Ha. split.
  { intros q p. rewrite txq_add_whole. by destruct (xRingbufferSend P q p). }
  revert flags txq Hq.
  induction Ha as [| a acts Ha1 Ha2 IH]; intros flags txq Hq.
  - exists flags, txq, [], []. cbn [accepted_packets tx_run].
    rewrite app_nil_r. repeat split; done.
  - destruct (tx_step_total P flags txq a Ht Hq Ha1)
      as (f1 & q1 & o1 & Hs & Hq1).
    destruct (tx_step_fifo P flags txq a f1 q1 o1 Hq Hs)
      as (pop1 & Hpop & Hsent).
    destruct (IH f1 q1 Hq1)
      as (f & q & tr & pop & Hrun & Hfifo & Hs2 & Hsub & Hall).
    cbn [tx_run accepted_packets]. rewrite Hs. cbn [mbind option_bind].
    rewrite Hrun. cbn [mbind option_bind].
    exists f, q, (o1 ++ tr), (pop1 ++ pop).
    split; [done |]. split; [| split; [| split]].
    + rewrite app_assoc, Hpop, <- !app_assoc. by rewrite Hfifo.
    + by rewrite sent_packets_app, real_packets_app, Hsent, Hs2.
    + rewrite queued_packets_cons. apply sublist_app; [| done].
      apply step_accepted_sublist.
    + intros Hfull. rewrite queued_packets_cons, (Hall Hfull). f_equal.
      destruct a as [| | p]; cbn; try done. by rewrite Hfull.
Qed.

Lemma tx_fifo_order_witness :
  ∃ f q tr popped,
    tx_run esp32 1 [] fifo_acts = Some (f, q, tr)
    ∧ [] ++ accepted_packets esp32 1 [] fifo_acts = popped ++ q
    ∧ sent_packets tr = real_packets popped
    ∧ accepted_packets esp32 1 [] fifo_acts
      = [[x01; x03]; [xff; x32]; [x01; x01]]
    ∧ sent_packets tr = [[x01; x03]; [x01; x01]].
Proof.
  destruct (tx_fifo_order esp32 fifo_acts 1 [])
    as (_ & f & q & tr & popped & Hrun & Hfifo & Hsent & _ & _).
  - simpl. lia.
  - constructor.
  - repeat first
      [ apply Forall_nil
      | apply Forall_cons;
        [unfold action_ok, packet_ok; simpl; first [exact I | lia] |] ].
  - exists f, q, tr, popped.
    split; [exact Hrun |]. split; [exact Hfifo |]. split; [exact Hsent |].
    split; [reflexivity |].
    vm_compute in Hrun. inversion Hrun. reflexivity.
Defined.

(** ** Housekeeping *)

Lemma sdp_hk_dev_idle P E i d data :
  sdp_due P E d = false →
  sdp_housekeeping_dev P E i d data = Some (d, data, []).
Proof. unfold sdp_due, sdp_housekeeping_dev. by intros ->. Qed.

Lemma sdp_hk_dev_busy P E i d data e :
  sdp_due P E d = true → data !! i = Some e →
  ∃ d' evs,
    sdp_housekeeping_dev P E i d data
    = Some (d', <[i := bt_sdp_parser E e]> data, evs)
    ∧ dev_sdp_pending E d' = false
    ∧ ((∀ x, dev_type (bt_hid_init E x) = dev_type x) →
       dev_type d' = bd_dev_type (bt_sdp_parser E e)).
Proof.
  unfold sdp_due, sdp_housekeeping_dev. intros -> ->.
  cbn [mbind option_bind].
  case_bool_decide as Hty.
  - destruct (atomic_test_bit _ (BT_DEV_HID_INTR_READY E)).
    + do 2 eexists. split; [reflexivity |]. split.
      * unfold dev_sdp_pending. simpl. apply test_clear_same.
      * intros Hkeep. simpl. by rewrite Hkeep.
    + do 2 eexists. split; [reflexivity |]. split.
      * unfold dev_sdp_pending. simpl. apply test_clear_same.
      * done.
  - do 2 eexists. split; [reflexivity |]. split.
    + unfold dev_sdp_pending. simpl. apply test_clear_same.
    + intros _. simpl. destruct (decide (bd_dev_type (bt_sdp_parser E e)
                                         = dev_type d)); [done | by destruct Hty].
Qed.

Lemma sdp_hk_idle P E devs : ∀ i data,
  Forall (λ d, sdp_due P E d = false) devs →
  sdp_housekeeping P E i devs data = Some (devs, data, []).
Proof.
  induction devs as [| d devs IH]; intros i data Hall; [done |].
  inversion Hall as [| ? ? Hd Hrest]; subst.
  cbn [sdp_housekeeping]. rewrite sdp_hk_dev_idle by done.
  cbn [mbind option_bind]. by rewrite IH.
Qed.

Lemma sdp_hk_pass P E devs : ∀ i data,
  (i + length devs ≤ length data)%nat →
  ∃ devs' data' evs,
    sdp_housekeeping P E i devs data = Some (devs', data', evs)
    ∧ length devs' = length devs
    ∧ length data' = length data
    ∧ Forall (λ d, sdp_due P E d = false) devs'
    ∧ (∀ j e, data !! j = Some e →
         data' !! j
         = Some (if bool_decide (i ≤ j)%nat
                    && from_option (sdp_due P E) false (devs !! (j - i)%nat)
                 then bt_sdp_parser E e else e))
    ∧ (∀ k d, devs !! k = Some d → sdp_due P E d = false →
         devs' !! k = Some d)
    ∧ ((∀ x, dev_type (bt_hid_init E x) = dev_type x) →
       ∀ k d d' e, devs !! k = Some d → sdp_due P E d = true →
         devs' !! k = Some d' → data !! (i + k)%nat = Some e →
         dev_type d' = bd_dev_type (bt_sdp_parser E e)).
Proof.
  induction devs as [| d devs IH]; intros i data Hlen.
  - exists [], data, []. repeat split; try done.
    intros j e Hj. by rewrite andb_false_r.
  - simpl in Hlen. cbn [sdp_housekeeping].
    destruct (sdp_due P E d) eqn:Hdue.
    + destruct (lookup_lt_is_Some_2 data i ltac:(lia)) as [e0 He0].
      destruct (sdp_hk_dev_busy P E i d data e0 Hdue He0)
        as (d' & evs & -> & Hclr & Hty).
      cbn [mbind option_bind].
      destruct (IH (S i) (<[i := bt_sdp_parser E e0]> data))
        as (devs' & data' & evs' & -> & Hl1 & Hl2 & Hall & Hdata & Hkeep & Hsync).
      { rewrite length_insert. lia. }
      cbn [mbind option_bind]. do 3 eexists. split; [reflexivity |].
      split; [simpl; lia |]. split; [by rewrite Hl2, length_insert |].
      split.
      { constructor; [| done]. unfold sdp_due. rewrite Hclr.
        apply andb_false_r. }
      split; [| split].
      * intros j e Hj. destruct (decide (j = i)) as [-> | Hne].
        -- rewrite (Hdata i (bt_sdp_parser E e0))
             by (apply list_lookup_insert_eq; lia).
           rewrite (bool_decide_eq_false_2 (S i ≤ i)%nat) by lia.
           rewrite bool_decide_eq_true_2 by lia.
           rewrite Nat.sub_diag. simpl. rewrite Hdue.
           rewrite He0 in Hj. by inversion Hj.
        -- rewrite (Hdata j e) by by rewrite list_lookup_insert_ne.
           f_equal. destruct (decide (i < j)%nat) as [Hlt | Hge].
           ++ rewrite !bool_decide_eq_true_2 by lia.
              replace (j - i)%nat with (S (j - S i)) by lia. done.
           ++ by rewrite !bool_decide_eq_false_2 by lia.
      * intros [| k] x Hx Hxd; simpl in Hx.
        -- inversion Hx; subst. congruence.
        -- simpl. by eapply Hkeep.
      * intros Hhid [| k] x x' e Hx Hxd Hx' He; simpl in Hx, Hx'.
        -- inversion Hx; subst. inversion Hx'; subst.
           rewrite Nat.add_0_r in He. rewrite He0 in He. inversion He; subst.
           by apply Hty.
        -- eapply (Hsync Hhid k x x' e); try done.
           rewrite list_lookup_insert_ne by lia.
           by replace (S i + k)%nat with (i + S k)%nat by lia.
    + rewrite sdp_hk_dev_idle by done. cbn [mbind option_bind].
      destruct (IH (S i) data)
        as (devs' & data' & evs' & -> & Hl1 & Hl2 & Hall & Hdata & Hkeep & Hsync).
      { lia. }
      cbn [mbind option_bind]. do 3 eexists. split; [reflexivity |].
      split; [simpl; lia |]. split; [done |].
      split; [by constructor |].
      split; [| split].
      * intros j e Hj. rewrite (Hdata j e Hj). f_equal.
        destruct (decide (j = i)) as [-> | Hne].
        -- rewrite (bool_decide_eq_false_2 (S i ≤ i)%nat) by lia.
           rewrite Nat.sub_diag. simpl. rewrite Hdue.
           by rewrite andb_false_r.
        -- destruct (decide (i < j)%nat) as [Hlt | Hge].
           ++ rewrite !bool_decide_eq_true_2 by lia.
              replace (j - i)%nat with (S (j - S i)) by lia. done.
           ++ by rewrite !bool_decide_eq_false_2 by lia.
      * intros [| k] x Hx Hxd; simpl in Hx.
        -- by inversion Hx; subst.
        -- simpl. by eapply Hkeep.
      * intros Hhid [| k] x x' e Hx Hxd Hx' He; simpl in Hx, Hx'.
        -- inversion Hx; subst. congruence.
        -- eapply (Hsync Hhid k x x' e); try done.
           by replace (S i + k)%nat with (i + S k)%nat by lia.
Qed.

(** X13.  The per-device loop of [bt_host_task], with an adapter entry for
    every session.  The pass runs through; afterwards no session is both
    discovered and flagged as having SDP data, and a second pass does
    nothing.  The SDP parser has been applied to exactly the adapter entries
    of the sessions that were discovered and flagged; the other entries and
    the other sessions are untouched.  When [bt_hid_init] keeps the type of
    a session, each session that was due ends with the device type of its
    parsed adapter entry. *)
Theorem sdp_housekeeping_settles P E devs data :
  (length devs ≤ length data)%nat →
  ∃ devs' data' evs,
    sdp_housekeeping P E 0 devs data = Some (devs', data', evs)
    ∧ length devs' = length devs
    ∧ length data' = length data
    ∧ Forall (λ d, sdp_due P E d = false) devs'
    ∧ sdp_housekeeping P E 0 devs' data' = Some (devs', data', [])
    ∧ (∀ j e, data !! j = Some e →
         data' !! j
         = Some (if from_option (sdp_due P E) false (devs !! j)
                 then bt_sdp_parser E e else e))
    ∧ (∀ k d, devs !! k = Some d → sdp_due P E d = false →
         devs' !! k = Some d)
    ∧ ((∀ x, dev_type (bt_hid_init E x) = dev_type x) →
       ∀ k d d' e, devs !! k = Some d → sdp_due P E d = true →
         devs' !! k = Some d' → data !! k = Some e →
         dev_type d' = bd_dev_type (bt_sdp_parser E e)).
Proof.
  intros Hlen.
  destruct (sdp_hk_pass P E devs 0%nat data ltac:(simpl; lia))
    as (devs' & data' & evs & Hrun & Hl1 & Hl2 & Hall & Hdata & Hkeep & Hsync).
  exists devs', data', evs.
  split; [done |]. split; [done |]. split; [done |]. split; [done |].
  split; [by apply sdp_hk_idle |]. split; [| split; [done |]].
  - intros j e Hj. rewrite (Hdata j e Hj).
    rewrite bool_decide_eq_true_2 by lia. by rewrite Nat.sub_0_r.
  - intros Hhid k d d' e Hd Hdue Hd' He. by eapply (Hsync Hhid k d d' e).
Qed.

Lemma sdp_housekeeping_settles_witness :
  ∃ devs' data' evs,
    sdp_housekeeping esp32 sample_env 0 hk_devs sample_data
    = Some (devs', data', evs)
    ∧ sdp_housekeeping esp32 sample_env 0 devs' data' = Some (devs', data', []).
Proof.
  destruct (sdp_housekeeping_settles esp32 sample_env hk_devs sample_data)
    as (devs' & data' & evs & Hrun & _ & _ & _ & Hagain & _).
  - simpl. lia.
  - exists devs', data', evs. split; [exact Hrun | exact Hagain].
Defined.



Lemma disconnect_all_spec P E devs : ∀ i,
  ∃ slots,
    disconnect_all P E i devs
    = (found_or_not P E <$> devs, HkDisconnect <$> slots)
    ∧ NoDup slots
    ∧ (∀ k, k ∈ slots
            ↔ (i ≤ k)%nat
              ∧ ∃ d, devs !! (k - i)%nat = Some d ∧ dev_found P d = true).
Proof.
  induction devs as [| d devs IH]; intros i.
  - exists []. split; [done |]. split; [constructor |].
    intros k. split; [by intros ?%elem_of_nil |].
    intros (_ & d & Hd & _). by rewrite lookup_nil in Hd.
  - destruct (IH (S i)) as (slots & Hrun & Hnd & Hin).
    cbn [disconnect_all]. rewrite Hrun.
    destruct (dev_found P d) eqn:Hf.
    + exists (i :: slots).
      split; [rewrite !fmap_cons; unfold found_or_not at 2; by rewrite Hf |].
      split.
      * constructor; [| done]. rewrite Hin. lia.
      * intros k. rewrite elem_of_cons, Hin. split.
        -- intros [-> | (Hle & x & Hx & Hxf)].
           ++ split; [lia |]. exists d. by rewrite Nat.sub_diag.
           ++ split; [lia |]. exists x.
              by replace (k - i)%nat with (S (k - S i)) by lia.
        -- intros (Hle & x & Hx & Hxf).
           destruct (decide (k = i)) as [-> | Hne]; [by left | right].
           split; [lia |]. exists x.
           by replace (k - i)%nat with (S (k - S i)) in Hx by lia.
    + exists slots.
      split; [rewrite !fmap_cons; unfold found_or_not at 2; by rewrite Hf |].
      split; [done |].
      intros k. rewrite Hin. split.
      * intros (Hle & x & Hx & Hxf). split; [lia |]. exists x.
        by replace (k - i)%nat with (S (k - S i)) by lia.
      * intros (Hle & x & Hx & Hxf).
        destruct (decide (k = i)) as [-> | Hne].
        { rewrite Nat.sub_diag in Hx. simpl in Hx. congruence. }
        split; [lia |]. exists x.
        by replace (k - i)%nat with (S (k - S i)) in Hx by lia.
Qed.



(** X14.  The BOOT switch pressed (level 0) while the inhibit bit is
    clear: the bit is set, and [bt_hci_disconnect] is called once for each
    discovered session and for no other, after the log line and before the
    two-second timer is created and started.  While the bit is set the
    switch does nothing, whatever its level. *)
Theorem boot_sw_disconnects P E flags devs :
  atomic_test_bit flags BT_HOST_DISCONN_SW_INHIBIT = false →
  ∃ slots,
    boot_sw P E 0 flags devs
    = (atomic_set_bit flags BT_HOST_DISCONN_SW_INHIBIT,
       found_or_not P E <$> devs,
       [HkLogBootSw] ++ (HkDisconnect <$> slots)
       ++ [HkTimerCreate; HkTimerStartOnce 2000000])
    ∧ NoDup slots
    ∧ (∀ k, k ∈ slots ↔ ∃ d, devs !! k = Some d ∧ dev_found P d = true)
    ∧ (∀ level devs',
         boot_sw P E level (atomic_set_bit flags BT_HOST_DISCONN_SW_INHIBIT)
           devs'
         = (atomic_set_bit flags BT_HOST_DISCONN_SW_INHIBIT, devs', [])).
Proof.
  intros Harm.
  destruct (disconnect_all_spec P E devs 0%nat) as (slots & Hrun & Hnd & Hin).
  exists slots. split; [| split; [done | split]].
  - unfold boot_sw. rewrite Harm, bool_decide_eq_true_2 by done.
    cbn [andb negb]. by rewrite Hrun.
  - intros k. rewrite Hin, Nat.sub_0_r. split.
    + by intros (_ & H).
    + intros H. split; [lia | done].
  - intros level devs'. unfold boot_sw.
    rewrite test_set_same by done. by rewrite andb_false_r.
Qed.

Lemma boot_sw_disconnects_witness :
  ∃ slots,
    boot_sw esp32 sample_env 0 1 hk_devs
    = (atomic_set_bit 1 BT_HOST_DISCONN_SW_INHIBIT,
       found_or_not esp32 sample_env <$> hk_devs,
       [HkLogBootSw] ++ (HkDisconnect <$> slots)
       ++ [HkTimerCreate; HkTimerStartOnce 2000000])
    ∧ NoDup slots.
Proof.
  destruct (boot_sw_disconnects esp32 sample_env 1 hk_devs eq_refl)
    as (slots & Hrun & Hnd & _).
  exists slots. split; [exact Hrun | exact Hnd].
Defined.






(** ** Start-up *)

(** X16.  The outcomes of [bt_host_init].  Either the three tasks are
    created, in the order host, feedback, transmit: then the return value is
    [ESP_OK], the ring buffer was created and the ready bit is set.  Or no
    task is created, and then the function aborted in [ESP_ERROR_CHECK] with
    nothing done; or it returned the error code of the controller, different
    from [ESP_OK], with the flag word untouched; or the ring buffer could not
    be created, in which case it returns [ESP_OK] all the same, with the
    ready bit set. *)
Theorem init_outcomes W flags res flags' steps :
  bt_host_init W flags = (res, flags', steps) →
  (tasks_started steps = [TASK_HOST; TASK_FB; TASK_TX]
   ∧ res = InitReturn (ESP_OK W)
   ∧ xRingbufferCreate_ok W = true
   ∧ flags' = bt_host_tx_pkt_ready flags
   ∧ atomic_test_bit flags' BT_CTRL_READY = true)
  ∨ (tasks_started steps = []
     ∧ ((res = InitAbort ∧ steps = [] ∧ flags' = flags)
        ∨ (∃ r, res = InitReturn r ∧ r ≠ ESP_OK W ∧ flags' = flags)
        ∨ (res = InitReturn (ESP_OK W)
           ∧ xRingbufferCreate_ok W = false
           ∧ flags' = bt_host_tx_pkt_ready flags))).
Proof.
  unfold bt_host_init. intros Hrun.
  destruct (if bool_decide (nvs_flash_init_first W
                            = ESP_ERR_NVS_NO_FREE_PAGES W)
            then if bool_decide (nvs_flash_erase_ret W = ESP_OK W)
                 then Some (nvs_flash_init_second W) else None
            else Some (nvs_flash_init_first W)) as [ret |].
  2: { inversion Hrun; subst. right. split; [done |]. by left. }
  case_bool_decide as Hret.
  2: { inversion Hrun; subst. right. split; [done |]. by left. }
  case_bool_decide as Hinit.
  { inversion Hrun; subst. right. split; [done |]. right. left. eauto. }
  case_bool_decide as Hen.
  { inversion Hrun; subst. right. split; [done |]. right. left. eauto. }
  assert (esp_bt_controller_enable_ret W = ESP_OK W) as Hok.
  { destruct (decide (esp_bt_controller_enable_ret W = ESP_OK W)); done. }
  destruct (xRingbufferCreate_ok W) eqn:Hring; inversion Hrun; subst.
  - left. rewrite Hok. repeat split; try done. apply test_set_ready.
  - right. split; [done |]. right. right. by rewrite Hok.
Qed.

Lemma init_outcomes_witness :
  (tasks_started (bt_host_init (sample_world true) 0).2
   = [TASK_HOST; TASK_FB; TASK_TX]
   ∧ (bt_host_init (sample_world true) 0).1.1 = InitReturn 0)
  ∧ (tasks_started (bt_host_init (sample_world false) 0).2 = []
     ∧ (bt_host_init (sample_world false) 0).1.1 = InitReturn 0).
Proof.
  split.
  - destruct (init_outcomes (sample_world true) 0 _ _ _ eq_refl)
      as [(Ht & Hr & _) | (Ht & _)].
    + split; [exact Ht | exact Hr].
    + vm_compute in Ht. discriminate Ht.
  - destruct (init_outcomes (sample_world false) 0 _ _ _ eq_refl)
      as [(Ht & _) | (Ht & _)].
    + vm_compute in Ht. discriminate Ht.
    + split; [exact Ht | reflexivity].
Defined.

(** X17.  With a BDADDR.BIN of at least six bytes that can be opened,
    [bt_host_load_bdaddr_from_file] returns 0 and sets a base MAC of six
    bytes: the first five bytes of the file unchanged and the sixth reduced
    by 2 modulo 256, so that adding 2 modulo 256 gives the byte of the file
    back.  For a sixth byte of 0 or 1 the result is 254 or 255: nothing is
    borrowed from the fifth byte. *)
Theorem load_bdaddr_offset content :
  (6 ≤ length content)%nat →
  ∃ mac b5 m5,
    bt_host_load_bdaddr_from_file (Some content) true = Some (Some mac, 0)
    ∧ length mac = 6%nat
    ∧ take 5 mac = take 5 content
    ∧ content !! 5%nat = Some b5
    ∧ mac !! 5%nat = Some m5
    ∧ byte_val m5 = (byte_val b5 - 2) mod 256
    ∧ (byte_val m5 + 2) mod 256 = byte_val b5
    ∧ (byte_val b5 < 2 → byte_val m5 = byte_val b5 + 254).
Proof.
  intros Hlen.
  destruct (lookup_lt_is_Some_2 content 5 ltac:(lia)) as [b5 Hb5].
  exists (<[5%nat := u8 (byte_val b5 - 2)]> (take 6 content)), b5,
    (u8 (byte_val b5 - 2)).
  pose proof (byte_val_bound b5) as Hb.
  assert (length (take 6 content) = 6%nat) as Hl6
    by (rewrite length_take; lia).
  split; [| split; [| split; [| split; [| split; [| split; [| split]]]]]].
  - unfold bt_host_load_bdaddr_from_file.
    rewrite bool_decide_eq_true_2 by done.
    rewrite lookup_take_lt by lia. rewrite Hb5. done.
  - by rewrite length_insert.
  - rewrite take_insert_ge by lia. rewrite take_take. done.
  - done.
  - apply list_lookup_insert_eq. lia.
  - apply byte_val_u8.
  - rewrite byte_val_u8. rewrite Z.add_mod_idemp_l by lia.
    replace (byte_val b5 - 2 + 2) with (byte_val b5) by lia.
    apply Z.mod_small. lia.
  - intros Hsmall. rewrite byte_val_u8.
    replace (byte_val b5 - 2) with ((byte_val b5 + 254) + (-1) * 256) by lia.
    rewrite Z.mod_add by lia. apply Z.mod_small. lia.
Qed.

Lemma load_bdaddr_offset_witness :
  ∃ mac b5 m5,
    bt_host_load_bdaddr_from_file (Some bdaddr_file) true
    = Some (Some mac, 0)
    ∧ length mac = 6%nat
    ∧ take 5 mac = take 5 bdaddr_file
    ∧ bdaddr_file !! 5%nat = Some b5
    ∧ mac !! 5%nat = Some m5
    ∧ byte_val m5 = (byte_val b5 - 2) mod 256
    ∧ (byte_val m5 + 2) mod 256 = byte_val b5
    ∧ (byte_val b5 < 2 → byte_val m5 = byte_val b5 + 254).
Proof. apply (load_bdaddr_offset bdaddr_file). simpl. lia. Defined.

(** ** Bridge: what is delivered, and when the copy overruns *)

Lemma bridge_resolve_len P d device report_id len d1 len1 :
  bridge_resolve P d device report_id len = Some (d1, len1) →
  bd_output d1 = bd_output d
  ∧ (dev_type device ≠ HID_GENERIC P →
     len1 = len ∧ bd_report_type d1 = bd_report_type d)
  ∧ (dev_type device = HID_GENERIC P →
     ∃ i r, take (REPORT_MAX P) (bd_reports d) !! i = Some r
            ∧ hr_id r = report_id
            ∧ (∀ j s, (j < i)%nat →
                 take (REPORT_MAX P) (bd_reports d) !! j = Some s →
                 hr_id s ≠ report_id)
            ∧ len1 = hr_len r
            ∧ bd_report_type d1 = Z.of_nat i).
Proof.
  unfold bridge_resolve, find_report. case_bool_decide as Ht.
  - destruct (list_find _ _) as [[i r] |] eqn:Hf; [| done].
    intros Hr. inversion Hr; subst. split; [done |]. split; [done |].
    intros _. apply list_find_Some in Hf as (Hl & Hid & Hfirst).
    exists i, r. repeat split; try done.
    intros j s Hj Hs. by eapply Hfirst.
  - intros Hr. inversion Hr; subst. split; [done |]. split; [done |]. done.
Qed.

(** X18.  What the adapter bridge is handed.  When the guard of the copy
    passes (entry initialised, or report counter above 1), the input is not
    discarded and the copy fits, [bt_host_bridge] calls [adapter_bridge]
    once, on an entry whose input buffer starts with the first [len1] bytes
    of the data and keeps its old bytes after them, with report id, session
    id and session type filled in, and with output buffer and report table
    unchanged.  The stored entry is what the adapter bridge returns, with
    its counter incremented; no other adapter entry changes.  For a session
    that is not of the generic HID type [len1] is the length the caller
    gave; for one of the generic type that length is ignored: [len1] is the
    length of the first row of the report table with the report id, and the
    number of that row is recorded as report type. *)
Theorem bridge_delivery P data device report_id buf len d d1 len1 :
  data_at data (dev_id device) = Some d →
  bridge_resolve P d device report_id len = Some (d1, len1) →
  bridge_guard P d = true →
  0 ≤ len1 ≤ Z.of_nat (length buf) →
  len1 ≤ Z.of_nat (length (bd_input d)) →
  ∃ x data',
    bt_host_bridge P data device report_id buf len
    = Some (data', [CallAdapterBridge (dev_id device)])
    ∧ bd_input x
      = take (Z.to_nat len1) buf ++ drop (Z.to_nat len1) (bd_input d)
    ∧ bd_report_id x = report_id
    ∧ bd_dev_id x = dev_id device
    ∧ bd_dev_type x = dev_type device
    ∧ bd_output x = bd_output d
    ∧ bd_reports x = bd_reports d
    ∧ data_at data' (dev_id device)
      = Some (set_report_cnt (adapter_bridge P x)
                (u32 (bd_report_cnt (adapter_bridge P x) + 1)))
    ∧ length data' = length data
    ∧ (∀ j, j ≠ Z.to_nat (dev_id device) → data' !! j = data !! j)
    ∧ (dev_type device ≠ HID_GENERIC P →
       len1 = len ∧ bd_report_type x = bd_report_type d)
    ∧ (dev_type device = HID_GENERIC P →
       ∃ i r, take (REPORT_MAX P) (bd_reports d) !! i = Some r
              ∧ hr_id r = report_id
              ∧ (∀ j s, (j < i)%nat →
                   take (REPORT_MAX P) (bd_reports d) !! j = Some s →
                   hr_id s ≠ report_id)
              ∧ len1 = hr_len r
              ∧ bd_report_type x = Z.of_nat i).
Proof.
  intros Hd Hr Hg Hb1 Hb2.
  destruct (bridge_resolve_fields _ _ _ _ _ _ _ Hr) as (F1 & C1 & R1 & I1).
  destruct (bridge_resolve_len _ _ _ _ _ _ _ Hr) as (O1 & Hng & Hgen).
  destruct (bridge_fires P data device report_id buf len d d1 len1 Hd Hr)
    as (input & Hcp & Hrun).
  { unfold bridge_guard in Hg. rewrite F1, C1.
    apply orb_prop in Hg as [Hg | Hg]; [by left | right].
    by apply bool_decide_eq_true_1 in Hg. }
  { done. }
  { by rewrite I1. }
  unfold memcpy in Hcp. rewrite bool_decide_eq_true_2 in Hcp
    by (rewrite I1; lia).
  simpl in Hcp. inversion Hcp as [Hin]. clear Hcp.
  assert (input = take (Z.to_nat len1) buf
                  ++ drop (Z.to_nat len1) (bd_input d)) as Hinput
    by (by rewrite <- Hin, I1).
  clear Hin. cbv zeta in Hrun. rewrite Hrun.
  set (x := set_bridge_input d1 report_id (dev_id device) (dev_type device)
              input).
  exists x, (<[Z.to_nat (dev_id device)
              := set_report_cnt (adapter_bridge P x)
                   (u32 (bd_report_cnt (adapter_bridge P x) + 1))]> data).
  split; [done |]. split; [exact Hinput |].
  split; [done |]. split; [done |]. split; [done |]. split; [done |].
  split; [done |]. split; [by eapply data_at_insert |].
  split; [by rewrite length_insert |].
  split; [intros j Hj; by rewrite list_lookup_insert_ne |].
  split; done.
Qed.

Lemma bridge_delivery_witness :
  ∃ x data',
    bt_host_bridge esp32 running_data sample_generic_dev 2 sample_payload 4
    = Some (data', [CallAdapterBridge 0])
    ∧ bd_input x = [x10; x20] ++ zero_bytes 14.
Proof.
  destruct (bridge_delivery esp32 running_data sample_generic_dev 2
              sample_payload 4 (sample_data_entry 2)
              (set_report_type (sample_data_entry 2) 1) 2
              eq_refl eq_refl eq_refl)
    as (x & data' & Hrun & Hin & _).
  - simpl. lia.
  - simpl. lia.
  - exists x, data'. split; [exact Hrun | exact Hin].
Defined.

(** X19.  [bt_host_bridge] makes an access out of bounds (no result in the
    model) in exactly two cases: the session id is no index of the adapter
    table; or the input is not discarded, the guard of the copy passes, and
    the length of the copy is larger than the data or than the input buffer.
    The function does not check that length. *)
Theorem bridge_out_of_bounds_iff P data device report_id buf len :
  bt_host_bridge P data device report_id buf len = None
  ↔ data_at data (dev_id device) = None
    ∨ ∃ d d1 len1,
        data_at data (dev_id device) = Some d
        ∧ bridge_resolve P d device report_id len = Some (d1, len1)
        ∧ bridge_guard P d = true
        ∧ ¬ (0 ≤ len1 ≤ Z.of_nat (length buf)
             ∧ len1 ≤ Z.of_nat (length (bd_input d))).
Proof.
  unfold bt_host_bridge.
  destruct (data_at data (dev_id device)) as [d |] eqn:Hd; cbn [mbind option_bind].
  2: { split; [by left | done]. }
  destruct (bridge_resolve P d device report_id len) as [[d1 len1] |] eqn:Hr.
  2: { split; [done |]. intros [? | (? & ? & ? & ? & ? & _)]; congruence. }
  destruct (bridge_resolve_fields _ _ _ _ _ _ _ Hr) as (F1 & C1 & R1 & I1).
  fold (bridge_guard P d1).
  assert (bridge_guard P d1 = bridge_guard P d) as ->
    by (unfold bridge_guard; by rewrite F1, C1).
  destruct (bridge_guard P d) eqn:Hg.
  - unfold memcpy. rewrite I1. case_bool_decide as Hfit; cbn [mbind option_bind].
    + split; [done |].
      intros [? | (d' & d1' & len1' & Hd' & Hr' & _ & Hbad)]; [done |].
      inversion Hd'; subst. rewrite Hr in Hr'. inversion Hr'; subst.
      destruct Hbad. lia.
    + split; [| done]. intros _. right. exists d, d1, len1.
      repeat split; try done. intros Hok. apply Hfit. lia.
  - cbn [mbind option_bind]. split; [done |].
    intros [? | (d' & d1' & len1' & Hd' & _ & Hg' & _)]; [done |].
    inversion Hd'; subst. congruence.
Qed.

Lemma bridge_out_of_bounds_iff_witness :
  bt_host_bridge esp32 running_data (sample_dev 0 1 11) 1 sample_payload 5
  = None.
Proof.
  apply (proj2 (bridge_out_of_bounds_iff esp32 running_data
                  (sample_dev 0 1 11) 1 sample_payload 5)).
  right. exists (sample_data_entry 2), (sample_data_entry 2), 5.
  split; [reflexivity |]. split; [reflexivity |]. split; [reflexivity |].
  intros [[_ H] _]. simpl in H. lia.
Defined.

(** ** Dreamcast feedback *)

Lemma land7_bound a : 0 ≤ Z.land a 7 ≤ 7.
Proof.
  assert (Z.land a 7 = a mod 8) as ->
    by (change 7 with (Z.ones 3); by rewrite Z.land_ones by lia).
  pose proof (Z.mod_pos_bound a 8 eq_refl). lia.
Qed.

Lemma u32_small z : 0 ≤ z ≤ INT_MAX → u32 z = z.
Proof. unfold u32, INT_MAX. intros H. apply Z.mod_small. lia. Qed.

(** X20.  [dc_fb_to_generic] on a command of length 1, or on a buffer of
    at least nine bytes whose 16-bit duration field is at most 8588: the
    wired id is the first byte, cycles and start are 0, and exactly one call
    goes to the stop timer.  Either the state is 0 and the timer is stopped,
    or the state is 1 and the timer is started with a duration between 3921
    microseconds and [INT_MAX], so never with zero.  The state is 1 exactly
    when the length is not 1 and one of the two magnitudes of byte 7 is
    non-zero. *)
Theorem dc_fb_stop_timer raw len :
  (1 ≤ length raw)%nat →
  (len ≠ 1 →
   (9 ≤ length raw)%nat ∧ ∃ w, rd16 raw 1 = Some w ∧ w ≤ 8588) →
  ∃ b0 fb call,
    raw !! 0%nat = Some b0
    ∧ dc_fb_to_generic raw len = Some (fb, [call])
    ∧ fb_wired_id fb = byte_val b0
    ∧ fb_cycles fb = 0
    ∧ fb_start fb = 0
    ∧ ((fb_state fb = 0 ∧ call = FbStopTimerStop (byte_val b0))
       ∨ (fb_state fb = 1
          ∧ ∃ dur_us, call = FbStopTimerStart (byte_val b0) dur_us
                      ∧ 3921 ≤ dur_us ≤ INT_MAX))
    ∧ (fb_state fb = 1
       ↔ len ≠ 1
         ∧ ∃ b7, raw !! 7%nat = Some b7
                 ∧ (Z.land (byte_val b7) 7 ≠ 0
                    ∨ Z.land (Z.shiftr (byte_val b7) 4) 7 ≠ 0)).
Proof.
  intros Hlen1 Hcmd.
  destruct (lookup_lt_is_Some_2 raw 0 ltac:(lia)) as [b0 H0].
  exists b0. unfold dc_fb_to_generic. rewrite H0.
  cbn [mbind option_bind].
  case_bool_decide as Hone.
  { do 2 eexists. split; [done |]. split; [reflexivity |].
    repeat split; try done.
    - left. done.
    - simpl. intros [? _]. done. }
  destruct (Hcmd Hone) as (Hlen & w & Hw & Hsmall).
  destruct (lookup_lt_is_Some_2 raw 5 ltac:(lia)) as [b5 H5].
  destruct (lookup_lt_is_Some_2 raw 6 ltac:(lia)) as [b6 H6].
  destruct (lookup_lt_is_Some_2 raw 7 ltac:(lia)) as [b7 H7].
  destruct (lookup_lt_is_Some_2 raw 8 ltac:(lia)) as [b8 H8].
  pose proof (rd16_bound _ _ _ Hw) as Hwb.
  pose proof (byte_val_bound b5) as Hb5.
  pose proof (byte_val_bound b6) as Hb6.
  pose proof (land7_bound (byte_val b7)) as Hm0.
  pose proof (land7_bound (Z.shiftr (byte_val b7) 4)) as Hm1.
  rewrite Hw. cbn [mbind option_bind].
  rewrite bool_decide_eq_false_2 by (unfold INT_MAX; lia).
  rewrite H6, H7. cbn [mbind option_bind].
  set (mag0 := Z.land (byte_val b7) 7) in *.
  set (mag1 := Z.land (Z.shiftr (byte_val b7) 4) 7) in *.
  case_bool_decide as Hmag.
  2: { do 2 eexists. split; [done |]. split; [reflexivity |].
       repeat split; try done.
       - left. done.
       - intros [_ (b7' & Hb7' & Hon)].
         assert (b7' = b7) as -> by congruence. done. }
  assert (∃ dur_us,
            3921 ≤ dur_us ≤ INT_MAX
            ∧ ('(cond) ←
                 (if bool_decide (byte_val b6 = 0) then Some false
                  else if bool_decide (Z.land (byte_val b7) 136 ≠ 0)
                       then Some true
                       else b8 ← raw !! 8%nat;
                            Some (bool_decide (Z.land (byte_val b8) 1 = 0)));
               dur_us ←
                 (if cond : bool then
                    b5 ← raw !! 5%nat;
                    if bool_decide (byte_val b5 ≠ 0)
                    then Some (1000000 * byte_val b5 * MAX mag0 mag1
                               / byte_val b6)
                    else Some (1000000 / byte_val b6)
                  else Some (1000 * (w * 250 + 250)));
               Some (mk_generic_fb (byte_val b0) 0 0 1,
                     [FbStopTimerStart (byte_val b0) (u32 dur_us)]))
              = Some (mk_generic_fb (byte_val b0) 0 0 1,
                      [FbStopTimerStart (byte_val b0) dur_us]))
    as (dur_us & Hdur & ->).
  { assert (∀ d, 3921 ≤ d ≤ INT_MAX →
              ∃ dur_us, 3921 ≤ dur_us ≤ INT_MAX
                ∧ Some (mk_generic_fb (byte_val b0) 0 0 1,
                        [FbStopTimerStart (byte_val b0) (u32 d)])
                  = Some (mk_generic_fb (byte_val b0) 0 0 1,
                          [FbStopTimerStart (byte_val b0) dur_us])) as Hfin.
    { intros d Hd. exists d. split; [done |].
      rewrite u32_small; [done | lia]. }
    assert (3921 ≤ 1000 * (w * 250 + 250) ≤ INT_MAX) as Hd0
      by (unfold INT_MAX; lia).
    assert (byte_val b6 ≠ 0 →
            3921 ≤ 1000000 / byte_val b6 ≤ INT_MAX) as Hd1.
    { intros Hf. split.
      - apply Z.div_le_lower_bound; lia.
      - unfold INT_MAX. apply Z.div_le_upper_bound; lia. }
    assert (byte_val b6 ≠ 0 → byte_val b5 ≠ 0 →
            3921 ≤ 1000000 * byte_val b5 * MAX mag0 mag1 / byte_val b6
            ≤ INT_MAX) as Hd2.
    { intros Hf Hb. unfold MAX.
      assert (1 ≤ Z.max mag0 mag1 ≤ 7) as Hmx by lia.
      split.
      - apply Z.div_le_lower_bound; [lia | nia].
      - unfold INT_MAX. apply Z.div_le_upper_bound; [lia | nia]. }
    case_bool_decide as Hf; cbn [mbind option_bind].
    { by apply Hfin. }
    case_bool_decide as H88; cbn [mbind option_bind].
    - rewrite H5. cbn [mbind option_bind].
      case_bool_decide; cbn [mbind option_bind]; apply Hfin; auto.
    - rewrite H8. cbn [mbind option_bind].
      case_bool_decide; cbn [mbind option_bind]; [| by apply Hfin].
      rewrite H5. cbn [mbind option_bind].
      case_bool_decide; cbn [mbind option_bind]; apply Hfin; auto. }
  do 2 eexists. split; [done |]. split; [reflexivity |].
  repeat split; try done.
  - right. split; [done |]. by exists dur_us.
  - by exists b7.
Qed.

(** X21.  With a length other than 1 and a 16-bit duration field of 8589
    or more, the initial value of [dur_us], 1000 * (field * 250 + 250),
    computed in [int] before any test, exceeds [INT_MAX] (no result in the
    model), whatever the magnitudes say. *)
Theorem dc_fb_duration_overflow raw len w b0 :
  raw !! 0%nat = Some b0 →
  len ≠ 1 →
  rd16 raw 1 = Some w →
  8589 ≤ w →
  dc_fb_to_generic raw len = None.
Proof.
  intros H0 Hlen Hw Hbig. unfold dc_fb_to_generic. rewrite H0.
  cbn [mbind option_bind]. rewrite bool_decide_eq_false_2 by done.
  rewrite Hw. cbn [mbind option_bind].
  rewrite bool_decide_eq_true_2; [done |]. unfold INT_MAX. lia.
Qed.

Lemma dc_fb_stop_timer_witness :
  (∃ fb, dc_fb_to_generic [x02] 1 = Some (fb, [FbStopTimerStop 2])
         ∧ fb_state fb = 0)
  ∧ ∃ fb call,
      dc_fb_to_generic rumble_on 9 = Some (fb, [call])
      ∧ fb_state fb = 1
      ∧ ∃ dur_us, call = FbStopTimerStart 2 dur_us
                  ∧ 3921 ≤ dur_us ≤ INT_MAX.
Proof.
  split.
  - destruct (dc_fb_stop_timer [x02] 1)
      as (b0 & fb & call & H0 & Hrun & _ & _ & _ & Hcase & Hon).
    + simpl. lia.
    + intros Hne. exfalso. apply Hne. reflexivity.
    + inversion H0; subst.
      destruct Hcase as [[Hst ->] | [Hst _]].
      * exists fb. split; [exact Hrun | exact Hst].
      * exfalso. apply Hon in Hst as [Hne _]. apply Hne. reflexivity.
  - destruct (dc_fb_stop_timer rumble_on 9)
      as (b0 & fb & call & H0 & Hrun & _ & _ & _ & Hcase & Hon).
    + simpl. lia.
    + intros _. split; [simpl; lia |]. exists 3.
      split; [reflexivity | lia].
    + inversion H0; subst.
      assert (fb_state fb = 1) as Hst.
      { apply Hon. split; [lia |]. exists x07.
        split; [reflexivity |]. left. vm_compute. discriminate. }
      exists fb, call. split; [exact Hrun |]. split; [exact Hst |].
      destruct Hcase as [[H0' _] | [_ Hd]]; [| exact Hd].
      rewrite Hst in H0'. discriminate H0'.
Defined.

Lemma dc_fb_duration_overflow_witness :
  dc_fb_to_generic rumble_long 9 = None.
Proof.
  apply (dc_fb_duration_overflow rumble_long 9 65535 x02).
  - reflexivity.
  - lia.
  - reflexivity.
  - lia.
Defined.
